(** * Python-Helper: a shallow embedding of the helper library and of the
      pending-reports job, with the properties of its specification.

    Part I holds the embedding, one module per source file.
    Part II holds the lemmas and the theorems about it. *)

From Stdlib Require Import ZArith String Ascii List Bool Lia Arith.
From Stdlib Require Import Permutation.
From Stdlib Require Decimal DecimalString DecimalN DecimalPos DecimalFacts.
Import ListNotations.

Local Open Scope string_scope.
Local Open Scope Z_scope.

(* ================================================================== *)
(** * Part I.  The embedding                                            *)
(* ================================================================== *)

(** ** Python values shared by every module *)

Module Py.

(** The exception classes the helpers meet.  [ImportError] is told apart
    because two helpers catch it by name; every class is a subclass of
    [Exception]. *)
Inductive exn : Type :=
  | ValueError (msg : string)
  | TypeError (msg : string)
  | ImportError (msg : string)
  | OSError (msg : string)
  | JSONDecodeError (msg : string)
  | HTTPError (msg : string).

(** A call either returns a value or raises. *)
Inductive result (E A : Type) : Type :=
  | Returned (a : A)
  | Raised (e : E).
Arguments Returned {E A} a.
Arguments Raised {E A} e.

(** [c in chars] for a character and a string. *)
Fixpoint char_in (c : ascii) (chars : string) : bool :=
  match chars with
  | EmptyString => false
  | String d rest => Ascii.eqb c d || char_in c rest
  end.

(** [s.lstrip(chars)] with the predicate that says which characters go. *)
Fixpoint lstrip_by (drop : ascii -> bool) (s : string) : string :=
  match s with
  | EmptyString => EmptyString
  | String c rest => if drop c then lstrip_by drop rest else s
  end.

(** [s.rstrip(chars)]: a character is kept unless everything after it went
    and it is itself one to drop. *)
Fixpoint rstrip_by (drop : ascii -> bool) (s : string) : string :=
  match s with
  | EmptyString => EmptyString
  | String c rest =>
      match rstrip_by drop rest with
      | EmptyString => if drop c then EmptyString else String c EmptyString
      | kept => String c kept
      end
  end.

Definition strip_by (drop : ascii -> bool) (s : string) : string :=
  rstrip_by drop (lstrip_by drop s).

(** [s.strip(chars)] *)
Definition strip_chars (chars : string) (s : string) : string :=
  strip_by (fun c => char_in c chars) s.

(** [str.isspace] on the code points below 256: TAB, LF, VT, FF, CR,
    FS, GS, RS, US, SPACE, NEL and NBSP. *)
Definition isspace (c : ascii) : bool :=
  let n := N_of_ascii c in
  (((9 <=? n) && (n <=? 13)) || ((28 <=? n) && (n <=? 32))
   || (n =? 133) || (n =? 160))%N.

(** [s.strip()] *)
Definition strip (s : string) : string := strip_by isspace s.

(** The length of [range(start, stop, step)] for a step that is not 0. *)
Definition range_len (start stop step : Z) : Z :=
  if 0 <? step
  then (if start <? stop then (stop - start - 1) / step + 1 else 0)
  else (if stop <? start then (start - stop - 1) / (- step) + 1 else 0).

(** [range(start, stop, step)]: item [i] is [start + i * step]; a step of 0
    raises ValueError. *)
Definition range (start stop step : Z) : result exn (list Z) :=
  if step =? 0 then Raised (ValueError "range() arg 3 must not be zero")
  else Returned (map (fun i => start + Z.of_nat i * step)
                     (seq 0 (Z.to_nat (range_len start stop step)))).

(** How a slice bound is brought into [0, len]: a negative bound counts
    from the end. *)
Definition slice_bound (len i : Z) : Z :=
  if i <? 0 then Z.max 0 (i + len) else Z.min i len.

(** [lst[i:j]] *)
Definition slice {A : Type} (lst : list A) (i j : Z) : list A :=
  let len := Z.of_nat (List.length lst) in
  let lo := slice_bound len i in
  let hi := slice_bound len j in
  firstn (Z.to_nat (hi - lo)) (skipn (Z.to_nat lo) lst).

End Py.

(** ** python_helpers/utilities/__init__.py *)

Module Utilities.
Import Py.

(** The character class of [clean_filename]: less-than, greater-than, colon,
    double quote (code 34), slash, backslash (code 92), bar, question mark
    and star. *)
Definition invalid_chars : list ascii :=
  ["<"; ">"; ":"; ascii_of_nat 34; "/"; ascii_of_nat 92; "|"; "?"; "*"]%char.

Definition is_invalid_char (c : ascii) : bool :=
  existsb (Ascii.eqb c) invalid_chars.

(** [re.sub(invalid_chars, replacement, filename)]: the pattern matches one
    character at a time, so every invalid character is replaced on its own.
    [replacement] stands for the text put in the place of a match; [re.sub]
    reads its argument as a template, and a template with no backslash
    (such as the default ['_']) is put in as it is. *)
Fixpoint re_sub_invalid (replacement : string) (filename : string) : string :=
  match filename with
  | EmptyString => EmptyString
  | String c rest =>
      if is_invalid_char c
      then replacement ++ re_sub_invalid replacement rest
      else String c (re_sub_invalid replacement rest)
  end.

Definition clean_filename (filename : string) (replacement : string) : string :=
  let cleaned := re_sub_invalid replacement filename in
  let cleaned := strip_chars ". " cleaned in
  if String.eqb cleaned "" then "unnamed_file" else cleaned.

(** The default of the second argument. *)
Definition default_replacement : string := "_".

(** [chunk_list]: a list comprehension over [range(0, len(lst), chunk_size)]
    of the slices [lst[i:i + chunk_size]]. *)
Definition chunk_list {A : Type} (lst : list A) (chunk_size : Z)
  : result exn (list (list A)) :=
  match range 0 (Z.of_nat (List.length lst)) chunk_size with
  | Raised e => Raised e
  | Returned starts =>
      Returned (map (fun i => slice lst i (i + chunk_size)) starts)
  end.

Section Retry.
(** [retry_operation] for a result type [A], exceptions [E] and delays of
    a numeric type [num] with its multiplication (Python multiplies
    whatever it is given: ints or floats). *)
Variables (A E num : Type).
Variable mul : num -> num -> num.

(** [func] has no argument and is called again and again: [func k] is
    what its call number [k] (from 0) does. *)
Variable func : nat -> result E A.

(** The body of [for attempt in range(max_attempts)], over the attempts
    left.  [calls] counts the calls made so far, [slept] lists the
    arguments of [time.sleep] so far, in order.  Falling off the end of
    the loop returns None. *)
Fixpoint retry_loop (attempts : list Z) (max_attempts : Z) (backoff : num)
         (calls : nat) (delay : num) (slept : list num)
  : result E (option A) * list num :=
  match attempts with
  | [] => (Returned None, slept)
  | attempt :: rest =>
      match func calls with
      | Returned a => (Returned (Some a), slept)
      | Raised e =>
          if attempt <? max_attempts - 1
          then retry_loop rest max_attempts backoff (S calls)
                          (mul delay backoff) (slept ++ [delay])
          else (Raised e, slept)
      end
  end.

(** The result of the call and the sleeps it made. *)
Definition retry_operation (max_attempts : Z) (delay backoff : num)
  : result E (option A) * list num :=
  retry_loop (map Z.of_nat (seq 0 (Z.to_nat max_attempts)))
             max_attempts backoff 0%nat delay [].

(** [delay] after it was multiplied [k] times by [backoff]. *)
Definition backed_off (delay backoff : num) (k : nat) : num :=
  Nat.iter k (fun d => mul d backoff) delay.
End Retry.

Arguments retry_loop {A E num} mul func attempts max_attempts backoff calls delay slept.
Arguments retry_operation {A E num} mul func max_attempts delay backoff.
Arguments backed_off {num} mul delay backoff k.

End Utilities.

(** ** scripts/automated-tasks/run_pendingReports_task.py *)

Module PendingReports.
Import Py.

(** One group of the query: the four columns the loop reads.  The third
    column is [COUNT( * )], a number that is not negative. *)
Record Row : Type := mkRow {
  tool_id : string;
  product_name : string;
  count_reports : N;
  status_text : string
}.

(** What a connection does when the query runs: [cursor.execute] raises, or
    [fetchall] gives rows.  A row is [None] when handling it raises, which
    the loop catches to go on with the next row. *)
Inductive Connection : Type :=
  | QueryRaises
  | QueryRows (rows : list (option Row)).

(** The subject line, one per branch of [send_email_report]. *)
Inductive Subject : Type :=
  | WarningSubject (total_count threshold : Z)
  | RecoverySubject (total_count : Z).

(** A message: its subject and what [create_email_report] renders. *)
Record Email : Type := mkEmail {
  subject : Subject;
  alert_type : string;
  total_count : Z;
  records : list Row
}.

(** What the job asks of the outside world, with how it went. *)
Inductive Action : Type :=
  | SmtpSend (msg : Email) (delivered : bool)
  | WriteState (state : string) (written : bool).

(** The world the job acts on: the state file ([None] when it does not
    exist), the messages the mail server took, and every action so far.
    [log_message] only prints; the standard output is left out. *)
Record World : Type := mkWorld {
  state_file : option string;
  outbox : list Email;
  io_trace : list Action
}.

(** What the outside world does during one run, at the places where the
    script has an except clause: [pyodbc.connect] raises ([None]) or gives a
    connection; opening or reading the state file raises; opening or writing
    it raises (the file is then left as it was); the SMTP exchange raises
    (the message is then not sent). *)
Record Env : Type := mkEnv {
  db_connect : option Connection;
  read_raises : bool;
  write_raises : bool;
  smtp_raises : bool
}.

(** The functions of the script change the world: a state monad. *)
Definition M (A : Type) : Type := World -> A * World.

Definition ret {A : Type} (a : A) : M A := fun w => (a, w).

Definition bind {A B : Type} (m : M A) (k : A -> M B) : M B :=
  fun w => let (a, w') := m w in k a w'.

Notation "x <- m ;; k" := (bind m (fun x => k))
  (at level 61, m at next level, right associativity).
Notation "m ;;; k" := (bind m (fun _ => k))
  (at level 61, right associativity).

Section Job.
(** The settings read from the environment, and one run's outside world. *)
Variable ALERT_THRESHOLD : Z.
Variable env : Env.

Definition connect_to_database : M (option Connection) :=
  fun w => (db_connect env, w).

(** The loop over [cursor.fetchall()]: the count of a row is added and the
    row appended; a row that raises is skipped. *)
Definition add_row (acc : list Row * Z) (row : option Row) : list Row * Z :=
  match row with
  | Some r => ((fst acc ++ [r])%list, snd acc + Z.of_N (count_reports r))
  | None => acc
  end.

Definition get_pending_records_from_database (connection : Connection)
  : list Row * Z :=
  match connection with
  | QueryRaises => ([], 0)
  | QueryRows rows => fold_left add_row rows ([], 0)
  end.

Definition read_last_alert_state : M string :=
  fun w =>
    match state_file w with
    | Some content =>
        if read_raises env then ("NORMAL", w) else (strip content, w)
    | None => ("NORMAL", w)
    end.

Definition write_alert_state (state : string) : M unit :=
  fun w =>
    if write_raises env
    then (tt, mkWorld (state_file w) (outbox w)
                      (io_trace w ++ [WriteState state false]))
    else (tt, mkWorld (Some state) (outbox w)
                      (io_trace w ++ [WriteState state true])).

Definition send_email_report (records : list Row) (total_count : Z)
    (alert_type : string) : M bool :=
  fun w =>
    let subject :=
      if String.eqb alert_type "WARNING"
      then WarningSubject total_count ALERT_THRESHOLD
      else RecoverySubject total_count in
    let msg := mkEmail subject alert_type total_count records in
    if smtp_raises env
    then (false, mkWorld (state_file w) (outbox w)
                         (io_trace w ++ [SmtpSend msg false]))
    else (true, mkWorld (state_file w) (outbox w ++ [msg])
                        (io_trace w ++ [SmtpSend msg true])).

(** Step 4 of [main], once the count and the last state are known. *)
Definition alert_step (records : list Row) (total_count : Z)
    (last_state : string) : M unit :=
  if total_count >? ALERT_THRESHOLD then
    send_email_report records total_count "WARNING" ;;;
    write_alert_state "WARNING"
  else if (total_count <=? ALERT_THRESHOLD) && (total_count >=? 0) then
    if String.eqb last_state "WARNING" then
      send_email_report records total_count "RECOVERY" ;;;
      write_alert_state "NORMAL"
    else ret tt
  else ret tt.

Definition main : M unit :=
  connection <- connect_to_database ;;
  match connection with
  | None => ret tt
  | Some connection =>
      let (records, total_count) :=
        get_pending_records_from_database connection in
      last_state <- read_last_alert_state ;;
      alert_step records total_count last_state
  end.
End Job.

(** The job run once per element of [envs], one run after the other, with
    the world each run leaves handed to the next. *)
Definition run_jobs (ALERT_THRESHOLD : Z) (envs : list Env) (w : World) : World :=
  fold_left (fun w env => snd (main ALERT_THRESHOLD env w)) envs w.

(** The two alert states. *)
Definition is_alert_state (s : string) : Prop := s = "NORMAL" \/ s = "WARNING".

(** A write to the state file writes one of the two states. *)
Definition writes_alert_state (a : Action) : Prop :=
  match a with
  | WriteState state _ => is_alert_state state
  | SmtpSend _ _ => True
  end.

End PendingReports.

(** ** The json module of the standard library, as the helpers use it *)

Module Json.
Import Py.

(** The Python values the model covers: None, bools, ints, strs, lists,
    tuples and dicts (the items in insertion order; the keys are values
    too).  Floats are left out.  The induction principle that goes through
    the items is [value_ind_items], below. *)
Unset Elimination Schemes.
Inductive value : Type :=
  | PNone
  | PBool (b : bool)
  | PInt (z : Z)
  | PStr (s : string)
  | PList (items : list value)
  | PTuple (items : list value)
  | PDict (items : list (value * value)).
Set Elimination Schemes.

Definition dquote : ascii := ascii_of_nat 34.
Definition backslash : ascii := ascii_of_nat 92.
Definition newline : ascii := ascii_of_nat 10.

(** [m] then [k], unless [m] raised. *)
Definition rbind {A B : Type} (m : result exn A) (k : A -> result exn B)
  : result exn B :=
  match m with
  | Returned a => k a
  | Raised e => Raised e
  end.

(** [f] on each element in order, up to the first that raises. *)
Fixpoint map_result {A B : Type} (f : A -> result exn B) (l : list A)
  : result exn (list B) :=
  match l with
  | [] => Returned []
  | x :: rest =>
      rbind (f x) (fun y =>
      rbind (map_result f rest) (fun ys => Returned (y :: ys)))
  end.

(** *** Encoding: [json.dumps(obj, indent=indent, ensure_ascii=False)] *)

(** [int.__repr__] *)
Definition digits (n : N) : string := DecimalString.NilEmpty.string_of_uint (N.to_uint n).

Definition int_repr (z : Z) : string :=
  if z <? 0 then String "-" (digits (Z.abs_N z)) else digits (Z.to_N z).

Definition hex_char (n : N) : ascii :=
  nth (N.to_nat n)
      ["0"; "1"; "2"; "3"; "4"; "5"; "6"; "7"; "8"; "9";
       "a"; "b"; "c"; "d"; "e"; "f"]%char "0"%char.

(** The replacement of one character in a string: the quote, the backslash
    and the code points below 32 are escaped. *)
Definition escape_char (c : ascii) : string :=
  let n := N_of_ascii c in
  if (n =? 34)%N then String backslash (String dquote "")
  else if (n =? 92)%N then String backslash (String backslash "")
  else if (n =? 8)%N then String backslash "b"
  else if (n =? 12)%N then String backslash "f"
  else if (n =? 10)%N then String backslash "n"
  else if (n =? 13)%N then String backslash "r"
  else if (n =? 9)%N then String backslash "t"
  else if (n <? 32)%N
  then String backslash
         ("u00" ++ String (hex_char (n / 16)) (String (hex_char (n mod 16)) ""))
  else String c "".

Fixpoint escape_string (s : string) : string :=
  match s with
  | EmptyString => EmptyString
  | String c rest => escape_char c ++ escape_string rest
  end.

Definition encode_basestring (s : string) : string :=
  String dquote (escape_string s ++ String dquote "").

Fixpoint spaces (n : nat) : string :=
  match n with
  | O => EmptyString
  | S n' => String " " (spaces n')
  end.

(** ['\n' + ' ' * indent * level] *)
Definition newline_indent (indent : Z) (level : nat) : string :=
  String newline (spaces (Z.to_nat indent * level)).

Fixpoint join (sep : string) (texts : list string) : string :=
  match texts with
  | [] => EmptyString
  | [t] => t
  | t :: rest => t ++ sep ++ join sep rest
  end.

(** A list or a dict, once its members are encoded. *)
Definition encode_container (opening closing : string) (indent : Z)
    (level : nat) (members : list string) : string :=
  match members with
  | [] => opening ++ closing
  | _ =>
      opening ++ newline_indent indent (S level)
      ++ join ("," ++ newline_indent indent (S level)) members
      ++ newline_indent indent level ++ closing
  end.

(** The text of a dict key: strs as they are, bools, None and ints by their
    JSON text; any other key raises TypeError. *)
Definition key_text (k : value) : result exn string :=
  match k with
  | PStr s => Returned s
  | PBool true => Returned "true"
  | PBool false => Returned "false"
  | PNone => Returned "null"
  | PInt z => Returned (int_repr z)
  | _ => Raised (TypeError "keys must be str, int, float, bool or None")
  end.

Fixpoint encode (indent : Z) (level : nat) (o : value) : result exn string :=
  match o with
  | PStr s => Returned (encode_basestring s)
  | PNone => Returned "null"
  | PBool true => Returned "true"
  | PBool false => Returned "false"
  | PInt z => Returned (int_repr z)
  | PList items | PTuple items =>
      rbind (map_result (encode indent (S level)) items) (fun members =>
      Returned (encode_container "[" "]" indent level members))
  | PDict items =>
      rbind (map_result
               (fun kv : value * value =>
                  let (k, v) := kv in
                  rbind (key_text k) (fun key =>
                  rbind (encode indent (S level) v) (fun text =>
                  Returned (encode_basestring key ++ ": " ++ text))))
               items) (fun members =>
      Returned (encode_container "{" "}" indent level members))
  end.

Definition dumps (obj : value) (indent : Z) : result exn string :=
  encode indent 0 obj.

(** *** Decoding: [json.loads(s)] *)

Definition is_ws (c : ascii) : bool :=
  let n := N_of_ascii c in
  ((n =? 32) || (n =? 9) || (n =? 10) || (n =? 13))%N.

Fixpoint skip_ws (s : string) : string :=
  match s with
  | EmptyString => EmptyString
  | String c rest => if is_ws c then skip_ws rest else s
  end.

Definition hex_value (c : ascii) : option N :=
  let n := N_of_ascii c in
  if ((48 <=? n) && (n <=? 57))%N then Some (n - 48)%N
  else if ((97 <=? n) && (n <=? 102))%N then Some (n - 87)%N
  else if ((65 <=? n) && (n <=? 70))%N then Some (n - 55)%N
  else None.

(** The character an escape letter stands for. *)
Definition unescape (c : ascii) : option ascii :=
  let n := N_of_ascii c in
  if (n =? 34)%N then Some dquote
  else if (n =? 92)%N then Some backslash
  else if (n =? 47)%N then Some "/"%char
  else if (n =? 98)%N then Some (ascii_of_nat 8)
  else if (n =? 102)%N then Some (ascii_of_nat 12)
  else if (n =? 110)%N then Some (ascii_of_nat 10)
  else if (n =? 114)%N then Some (ascii_of_nat 13)
  else if (n =? 116)%N then Some (ascii_of_nat 9)
  else None.

(** The code point of four hex digits. *)
Definition hex4 (a b c d : ascii) : option N :=
  match hex_value a, hex_value b, hex_value c, hex_value d with
  | Some x, Some y, Some z, Some t => Some (((x * 16 + y) * 16 + z) * 16 + t)%N
  | _, _, _, _ => None
  end.

(** [scanstring], from right after the opening quote: the str and what
    follows the closing quote.  The model has the code points below 256:
    an escape for a higher one raises [ValueError] here. *)
Fixpoint scanstring (s : string) : result exn (string * string) :=
  match s with
  | EmptyString => Raised (JSONDecodeError "Unterminated string starting at")
  | String c rest =>
      if Ascii.eqb c dquote then Returned (EmptyString, rest)
      else if Ascii.eqb c backslash then
        match rest with
        | EmptyString => Raised (JSONDecodeError "Unterminated string starting at")
        | String esc rest' =>
            if Ascii.eqb esc "u" then
              match rest' with
              | String h1 (String h2 (String h3 (String h4 rest''))) =>
                  match hex4 h1 h2 h3 h4 with
                  | Some code =>
                      if (code <? 256)%N then
                        rbind (scanstring rest'') (fun r =>
                        Returned (String (ascii_of_N code) (fst r), snd r))
                      else Raised (ValueError "code point outside the model")
                  | None => Raised (JSONDecodeError "Invalid \uXXXX escape")
                  end
              | _ => Raised (JSONDecodeError "Invalid \uXXXX escape")
              end
            else
              match unescape esc with
              | Some ch =>
                  rbind (scanstring rest') (fun r =>
                  Returned (String ch (fst r), snd r))
              | None => Raised (JSONDecodeError "Invalid \escape")
              end
        end
      else if (N_of_ascii c <? 32)%N
      then Raised (JSONDecodeError "Invalid control character at")
      else rbind (scanstring rest) (fun r => Returned (String c (fst r), snd r))
  end.

Definition is_digit (c : ascii) : bool :=
  let n := N_of_ascii c in ((48 <=? n) && (n <=? 57))%N.

(** The longest run of digits at the start, and what follows it. *)
Fixpoint digits_prefix (s : string) : Decimal.uint * string :=
  match s with
  | EmptyString => (Decimal.Nil, EmptyString)
  | String c rest =>
      if is_digit c then
        let (d, rest') := digits_prefix rest in
        (match DecimalString.uint_of_char c (Some d) with
         | Some u => u
         | None => Decimal.Nil
         end, rest')
      else (Decimal.Nil, s)
  end.

(** Whether a fraction or an exponent follows the integer part. *)
Definition float_follows (s : string) : bool :=
  match s with
  | String c (String d rest) =>
      (Ascii.eqb c "." && is_digit d)
      || ((Ascii.eqb c "e" || Ascii.eqb c "E")
          && (is_digit d
              || ((Ascii.eqb d "+" || Ascii.eqb d "-")
                  && match rest with
                     | String e _ => is_digit e
                     | EmptyString => false
                     end)))
  | _ => false
  end.

(** The integer part of the number pattern, without its sign: a single 0,
    or a digit from 1 to 9 and the digits after it. *)
Definition match_integer (s : string) : option (N * string) :=
  match s with
  | String c rest =>
      if Ascii.eqb c "0" then Some (0%N, rest)
      else if is_digit c then
        let (d, rest') := digits_prefix s in Some (N.of_uint d, rest')
      else None
  | EmptyString => None
  end.

(** [match_number] and the conversion of what it matched.  A number with a
    fraction or an exponent is a float: outside the model. *)
Definition scan_number (s : string) : result exn (value * string) :=
  let (negative, s') :=
    match s with
    | String c rest => if Ascii.eqb c "-" then (true, rest) else (false, s)
    | EmptyString => (false, s)
    end in
  match match_integer s' with
  | Some (n, rest) =>
      if float_follows rest then Raised (ValueError "float outside the model")
      else Returned (PInt (if negative then - Z.of_N n else Z.of_N n), rest)
  | None => Raised (JSONDecodeError "Expecting value")
  end.

(** [dict(pairs)]: a key met again keeps its place and takes the new value. *)
Fixpoint dict_set (items : list (string * value)) (key : string) (v : value)
  : list (string * value) :=
  match items with
  | [] => [(key, v)]
  | (k, old) :: rest =>
      if String.eqb k key then (k, v) :: rest
      else (k, old) :: dict_set rest key v
  end.

Definition dict_of_pairs (pairs : list (string * value)) : value :=
  PDict (map (fun kv : string * value => (PStr (fst kv), snd kv))
             (fold_left (fun items kv => dict_set items (fst kv) (snd kv))
                        pairs [])).

Definition expecting (what : string) : exn := JSONDecodeError ("Expecting " ++ what).

(** Whether [s] starts with [word], and what follows. *)
Fixpoint strip_prefix (word s : string) : option string :=
  match word, s with
  | EmptyString, _ => Some s
  | String a word', String b s' =>
      if Ascii.eqb a b then strip_prefix word' s' else None
  | String _ _, EmptyString => None
  end.

(** [scan_once], [JSONArray] and [JSONObject].  The recursion of the
    scanner is bounded by [fuel]; [loads] gives it twice the length of the
    text and two more, which covers every text [dumps] writes (lemma
    [loads_dumps]).  The limit Python itself puts on the depth of recursion
    is not modelled.  [array_items] starts at the first value of an array,
    [object_items] right after the opening quote of a key. *)
Fixpoint scan_once (fuel : nat) (s : string) : result exn (value * string) :=
  match fuel with
  | O => Raised (ValueError "maximum recursion depth exceeded")
  | S fuel' =>
      match s with
      | EmptyString => Raised (expecting "value")
      | String c rest =>
          if Ascii.eqb c dquote then
            rbind (scanstring rest) (fun r => Returned (PStr (fst r), snd r))
          else if Ascii.eqb c "{" then
            match skip_ws rest with
            | String d rest' =>
                if Ascii.eqb d "}" then Returned (PDict [], rest')
                else if Ascii.eqb d dquote then
                  rbind (object_items fuel' rest') (fun r =>
                  Returned (dict_of_pairs (fst r), snd r))
                else Raised (expecting "property name enclosed in double quotes")
            | EmptyString =>
                Raised (expecting "property name enclosed in double quotes")
            end
          else if Ascii.eqb c "[" then
            match skip_ws rest with
            | String d rest' =>
                if Ascii.eqb d "]" then Returned (PList [], rest')
                else rbind (array_items fuel' (String d rest')) (fun r =>
                     Returned (PList (fst r), snd r))
            | EmptyString => Raised (expecting "value")
            end
          else
            match strip_prefix "null" s, strip_prefix "true" s,
                  strip_prefix "false" s with
            | Some rest', _, _ => Returned (PNone, rest')
            | _, Some rest', _ => Returned (PBool true, rest')
            | _, _, Some rest' => Returned (PBool false, rest')
            | None, None, None => scan_number s
            end
      end
  end

with array_items (fuel : nat) (s : string)
  : result exn (list value * string) :=
  match fuel with
  | O => Raised (ValueError "maximum recursion depth exceeded")
  | S fuel' =>
      rbind (scan_once fuel' s) (fun r =>
      match skip_ws (snd r) with
      | String d rest =>
          if Ascii.eqb d "]" then Returned ([fst r], rest)
          else if Ascii.eqb d "," then
            rbind (array_items fuel' (skip_ws rest)) (fun r' =>
            Returned (fst r :: fst r', snd r'))
          else Raised (expecting "',' delimiter")
      | EmptyString => Raised (expecting "',' delimiter")
      end)
  end

with object_items (fuel : nat) (s : string)
  : result exn (list (string * value) * string) :=
  match fuel with
  | O => Raised (ValueError "maximum recursion depth exceeded")
  | S fuel' =>
      rbind (scanstring s) (fun k =>
      match skip_ws (snd k) with
      | String colon after =>
          if Ascii.eqb colon ":" then
            rbind (scan_once fuel' (skip_ws after)) (fun r =>
            match skip_ws (snd r) with
            | String d rest =>
                if Ascii.eqb d "}" then Returned ([(fst k, fst r)], rest)
                else if Ascii.eqb d "," then
                  match skip_ws rest with
                  | String q rest' =>
                      if Ascii.eqb q dquote then
                        rbind (object_items fuel' rest') (fun r' =>
                        Returned ((fst k, fst r) :: fst r', snd r'))
                      else Raised (expecting "property name enclosed in double quotes")
                  | EmptyString =>
                      Raised (expecting "property name enclosed in double quotes")
                  end
                else Raised (expecting "',' delimiter")
            | EmptyString => Raised (expecting "',' delimiter")
            end)
          else Raised (expecting "':' delimiter")
      | EmptyString => Raised (expecting "':' delimiter")
      end)
  end.

(** [json.loads]: white space, one value, white space, the end. *)
Definition loads (s : string) : result exn value :=
  rbind (scan_once (2 * String.length s + 2) (skip_ws s)) (fun r =>
  match skip_ws (snd r) with
  | EmptyString => Returned (fst r)
  | String _ _ => Raised (JSONDecodeError "Extra data")
  end).

(** *** The values JSON has as they are *)

(** The keys are strs that differ from one another. *)
Fixpoint distinct_str_keys (keys : list value) : bool :=
  match keys with
  | [] => true
  | PStr s :: rest =>
      negb (existsb (fun k => match k with
                              | PStr t => String.eqb s t
                              | _ => false
                              end) rest)
      && distinct_str_keys rest
  | _ :: _ => false
  end.

(** None, bools, ints, strs, lists of such values and dicts of such values
    under str keys: no tuple, and no key that is not a str. *)
Fixpoint json_native (v : value) : bool :=
  match v with
  | PNone | PBool _ | PInt _ | PStr _ => true
  | PList items => forallb json_native items
  | PTuple _ => false
  | PDict items =>
      distinct_str_keys (map fst items)
      && forallb (fun kv : value * value => let (_, x) := kv in json_native x) items
  end.

(** *** Equality of values, as [==] has it *)

(** A bool counts as the int 1 or 0. *)
Definition as_int (v : value) : option Z :=
  match v with
  | PInt z => Some z
  | PBool b => Some (if b then 1 else 0)
  | _ => None
  end.

Fixpoint py_eqb (a b : value) {struct a} : bool :=
  match a, b with
  | PNone, PNone => true
  | PStr s, PStr t => String.eqb s t
  | PInt x, _ => match as_int b with Some y => x =? y | None => false end
  | PBool x, _ =>
      match as_int b with Some y => (if x then 1 else 0) =? y | None => false end
  | PList xs, PList ys | PTuple xs, PTuple ys =>
      (fix all2 (xs ys : list value) {struct xs} : bool :=
         match xs, ys with
         | [], [] => true
         | x :: xs', y :: ys' => py_eqb x y && all2 xs' ys'
         | _, _ => false
         end) xs ys
  | PDict items, PDict items' =>
      Nat.eqb (List.length items) (List.length items')
      && (fix all_in (items : list (value * value)) {struct items} : bool :=
            match items with
            | [] => true
            | (k, v) :: rest =>
                (fix find (others : list (value * value)) : bool :=
                   match others with
                   | [] => false
                   | (k', v') :: others' =>
                       if py_eqb k k' then py_eqb v v' else find others'
                   end) items'
                && all_in rest
            end) items
  | _, _ => false
  end.

(** *** Induction on values, through the items of lists and dicts *)

Section ValueInduction.
Variable P : value -> Prop.
Hypothesis HNone : P PNone.
Hypothesis HBool : forall b, P (PBool b).
Hypothesis HInt : forall z, P (PInt z).
Hypothesis HStr : forall s, P (PStr s).
Hypothesis HList : forall items, Forall P items -> P (PList items).
Hypothesis HTuple : forall items, Forall P items -> P (PTuple items).
Hypothesis HDict :
  forall items, Forall (fun kv => P (fst kv) /\ P (snd kv)) items -> P (PDict items).

Fixpoint value_ind_items (v : value) : P v :=
  match v with
  | PNone => HNone
  | PBool b => HBool b
  | PInt z => HInt z
  | PStr s => HStr s
  | PList items =>
      HList items
        ((fix all (l : list value) : Forall P l :=
            match l with
            | [] => Forall_nil P
            | x :: rest => Forall_cons x (value_ind_items x) (all rest)
            end) items)
  | PTuple items =>
      HTuple items
        ((fix all (l : list value) : Forall P l :=
            match l with
            | [] => Forall_nil P
            | x :: rest => Forall_cons x (value_ind_items x) (all rest)
            end) items)
  | PDict items =>
      HDict items
        ((fix all (l : list (value * value))
            : Forall (fun kv => P (fst kv) /\ P (snd kv)) l :=
            match l with
            | [] => Forall_nil _
            | (k, x) :: rest =>
                Forall_cons (k, x)
                  (conj (value_ind_items k) (value_ind_items x)) (all rest)
            end) items)
  end.
End ValueInduction.

End Json.

(** ** The outside world of the library helpers *)

Module IO.
Import Py.

Definition Path : Type := string.

(** What [Path.stat] gives; the time stamps are kept as numbers that are
    not looked into. *)
Record Stat : Type := mkStat {
  st_size : Z;
  st_mtime : Z;
  st_ctime : Z
}.

(** A response of [requests.get]. *)
Record Response : Type := mkResponse {
  status_code : Z;
  content : string
}.

(** The operating system, the network and the library modules the helpers
    call, over a state [OS] of their own.  An operation gives back the new
    state with a value or with the exception it raised; nothing is assumed
    about what it does.  [sys_import_requests] tells whether the import
    works (it raises ImportError when not); [sys_sleep] never raises.  The
    path functions and the csv module compute without the state. *)
Class System (OS : Type) : Type := {
  sys_exists : Path -> OS -> result exn bool * OS;
  sys_mkdir : Path -> OS -> result exn unit * OS;
  sys_read_text : Path -> OS -> result exn string * OS;
  sys_open_write : Path -> OS -> result exn unit * OS;
  sys_write_text : Path -> string -> OS -> result exn unit * OS;
  sys_copy2 : Path -> Path -> OS -> result exn unit * OS;
  sys_stat : Path -> OS -> result exn Stat * OS;
  sys_is_file : Path -> OS -> result exn bool * OS;
  sys_is_dir : Path -> OS -> result exn bool * OS;
  sys_absolute : Path -> OS -> result exn Path * OS;
  sys_import_requests : OS -> bool * OS;
  sys_http_get : string -> list (string * string) -> Z -> OS
                 -> result exn Response * OS;
  sys_sleep : OS -> OS;
  path_parent : Path -> Path;
  path_name : Path -> string;
  path_suffix : Path -> string;
  csv_read : string -> string -> result exn (list (list (string * string)));
  csv_write : string -> list string -> list (list (string * Json.value))
              -> result exn string
}.

(** Whether a call into the outside world returned or raised. *)
Inductive event : Type :=
  | Completed
  | Failed (e : exn).

(** What a helper runs in: the outside world, the lines printed so far and
    the calls into the outside world so far. *)
Record St (OS : Type) : Type := mkSt {
  os : OS;
  stdout : list string;
  calls : list event
}.
Arguments mkSt {OS} os stdout calls.
Arguments os {OS} s.
Arguments stdout {OS} s.
Arguments calls {OS} s.

(** [str(e)] *)
Definition exn_str (e : exn) : string :=
  match e with
  | ValueError msg | TypeError msg | ImportError msg | OSError msg
  | JSONDecodeError msg | HTTPError msg => msg
  end.

Section Monad.
Context {OS : Type}.

(** A helper: from a state to a value or an exception, and a state. *)
Definition IO (A : Type) : Type := St OS -> result exn A * St OS.

Definition ret {A : Type} (a : A) : IO A := fun st => (Returned a, st).

Definition bind {A B : Type} (m : IO A) (k : A -> IO B) : IO B :=
  fun st =>
    match m st with
    | (Returned a, st') => k a st'
    | (Raised e, st') => (Raised e, st')
    end.

(** A call of an operation of the outside world. *)
Definition call {A : Type} (op : OS -> result exn A * OS) : IO A :=
  fun st =>
    match op (os st) with
    | (Returned a, os') =>
        (Returned a, mkSt os' (stdout st) (calls st ++ [Completed]))
    | (Raised e, os') =>
        (Raised e, mkSt os' (stdout st) (calls st ++ [Failed e]))
    end.

(** A call of a library function that computes without the state. *)
Definition lib {A : Type} (r : result exn A) : IO A :=
  call (fun o => (r, o)).

Definition print (line : string) : IO unit :=
  fun st => (Returned tt, mkSt (os st) (stdout st ++ [line]) (calls st)).

(** [try: body except Exception as e: handler(e)] *)
Definition try_except {A : Type} (body : IO A) (handler : exn -> IO A) : IO A :=
  fun st =>
    match body st with
    | (Returned a, st') => (Returned a, st')
    | (Raised e, st') => handler e st'
    end.

(** [try: body except ImportError: handler]: any other exception goes on. *)
Definition try_except_ImportError {A : Type} (body : IO A) (handler : IO A)
  : IO A :=
  fun st =>
    match body st with
    | (Returned a, st') => (Returned a, st')
    | (Raised (ImportError msg), st') => handler st'
    | (Raised e, st') => (Raised e, st')
    end.
End Monad.

Notation "x <- m ;; k" := (bind m (fun x => k))
  (at level 61, m at next level, right associativity).
Notation "m ;;; k" := (bind m (fun _ => k))
  (at level 61, right associativity).

End IO.

(** ** python_helpers/file_ops/__init__.py *)

Module FileOps.
Import Py IO.

(** The dict [get_file_info] returns. *)
Record FileInfo : Type := mkFileInfo {
  name : string;
  size : Z;
  modified : Z;
  created : Z;
  is_file : bool;
  is_directory : bool;
  extension : string;
  absolute_path : string
}.

Section Helpers.
Context {OS : Type} `{System OS}.

Definition ensure_directory (directory_path : Path) : IO Path :=
  call (sys_mkdir directory_path) ;;;
  ret directory_path.

Definition safe_copy (source destination : Path) (overwrite : bool) : IO bool :=
  try_except
    (source_exists <- call (sys_exists source) ;;
     if negb source_exists then
       print ("Source file " ++ source ++ " does not exist") ;;;
       ret false
     else
       dest_exists <- call (sys_exists destination) ;;
       if dest_exists && negb overwrite then
         print ("Destination " ++ destination
                ++ " exists. Use overwrite=True to replace.") ;;;
         ret false
       else
         ensure_directory (path_parent destination) ;;;
         call (sys_copy2 source destination) ;;;
         ret true)
    (fun e =>
       print ("Error copying file: " ++ exn_str e) ;;;
       ret false).

Definition read_json (file_path : Path) : IO (option Json.value) :=
  try_except
    (text <- call (sys_read_text file_path) ;;
     data <- lib (Json.loads text) ;;
     ret (Some data))
    (fun e =>
       print ("Error reading JSON file " ++ file_path ++ ": " ++ exn_str e) ;;;
       ret None).

(** [open(path, 'w')] empties the file before [json.dump] encodes; when the
    encoding raises, what was written up to there is not modelled. *)
Definition write_json (data : Json.value) (file_path : Path) (indent : Z)
  : IO bool :=
  try_except
    (ensure_directory (path_parent file_path) ;;;
     call (sys_open_write file_path) ;;;
     text <- lib (Json.dumps data indent) ;;
     call (sys_write_text file_path text) ;;;
     ret true)
    (fun e =>
       print ("Error writing JSON file " ++ file_path ++ ": " ++ exn_str e) ;;;
       ret false).

(** The default of [indent]. *)
Definition default_indent : Z := 2.

Definition get_file_info (file_path : Path) : IO (option FileInfo) :=
  try_except
    (path_exists <- call (sys_exists file_path) ;;
     if negb path_exists then ret None
     else
       stat <- call (sys_stat file_path) ;;
       isfile <- call (sys_is_file file_path) ;;
       isdir <- call (sys_is_dir file_path) ;;
       absolute <- call (sys_absolute file_path) ;;
       ret (Some (mkFileInfo (path_name file_path) (st_size stat)
                             (st_mtime stat) (st_ctime stat) isfile isdir
                             (path_suffix file_path) absolute)))
    (fun e =>
       print ("Error getting file info: " ++ exn_str e) ;;;
       ret None).
End Helpers.

End FileOps.

(** ** python_helpers/data_processing/__init__.py *)

Module DataProcessing.
Import Py IO.

Section Helpers.
Context {OS : Type} `{System OS}.

Definition csv_to_dict (file_path : Path) (delimiter : string)
  : IO (list (list (string * string))) :=
  try_except
    (text <- call (sys_read_text file_path) ;;
     rows <- lib (csv_read delimiter text) ;;
     ret rows)
    (fun e =>
       print ("Error reading CSV file: " ++ exn_str e) ;;;
       ret []).

Definition dict_to_csv (data : list (list (string * Json.value)))
    (file_path : Path) (delimiter : string) : IO bool :=
  match data with
  | [] => ret false
  | first :: _ =>
      try_except
        (let fieldnames := map fst first in
         call (sys_open_write file_path) ;;;
         text <- lib (csv_write delimiter fieldnames data) ;;
         call (sys_write_text file_path text) ;;;
         ret true)
        (fun e =>
           print ("Error writing CSV file: " ++ exn_str e) ;;;
           ret false)
  end.
End Helpers.

End DataProcessing.

(** ** python_helpers/web_scraping/__init__.py *)

Module WebScraping.
Import Py IO.

Definition user_agent : string :=
  "Mozilla/5.0 (Windows NT 10.0; Win64; x64) AppleWebKit/537.36".

(** [d.update(other)] on a dict of strs. *)
Fixpoint dict_update (d other : list (string * string)) : list (string * string) :=
  match other with
  | [] => d
  | (k, v) :: rest =>
      dict_update
        ((fix set (items : list (string * string)) : list (string * string) :=
            match items with
            | [] => [(k, v)]
            | (k', v') :: items' =>
                if String.eqb k' k then (k', v) :: items'
                else (k', v') :: set items'
            end) d)
        rest
  end.

(** [response.raise_for_status()] *)
Definition raise_for_status (response : Response) : result exn unit :=
  if (400 <=? status_code response) && (status_code response <? 600)
  then Raised (HTTPError "HTTP error")
  else Returned tt.

(** [bool(response)] *)
Definition response_ok (response : Response) : bool :=
  match raise_for_status response with
  | Returned _ => true
  | Raised _ => false
  end.

Section Helpers.
Context {OS : Type} `{System OS}.

(** [import requests]: raises ImportError when the package is missing. *)
Definition import_requests : IO unit :=
  fun st =>
    let (installed, os') := sys_import_requests (os st) in
    if installed
    then (Returned tt, mkSt os' (stdout st) (calls st ++ [Completed]))
    else (Raised (ImportError "No module named 'requests'"),
          mkSt os' (stdout st)
               (calls st ++ [Failed (ImportError "No module named 'requests'")])).

(** [time.sleep(random.uniform(1, 3))] *)
Definition sleep : IO unit :=
  fun st => (Returned tt, mkSt (sys_sleep (os st)) (stdout st) (calls st)).

(** The body of [for attempt in range(retries)], over the attempts left;
    falling off the end of the loop returns None. *)
Fixpoint request_loop (attempts : list Z) (url : string)
    (headers : list (string * string)) (timeout retries : Z)
  : IO (option Response) :=
  match attempts with
  | [] => ret None
  | attempt :: rest =>
      try_except
        (response <- call (sys_http_get url headers timeout) ;;
         lib (raise_for_status response) ;;;
         ret (Some response))
        (fun e =>
           if attempt <? retries - 1 then
             sleep ;;;
             request_loop rest url headers timeout retries
           else
             print ("Error after " ++ Json.int_repr retries ++ " attempts: "
                    ++ exn_str e) ;;;
             ret None)
  end.

Definition safe_request (url : string) (headers : option (list (string * string)))
    (timeout retries : Z) : IO (option Response) :=
  try_except_ImportError
    (import_requests ;;;
     let default_headers := [("User-Agent", user_agent)] in
     let default_headers :=
       match headers with
       | Some (h :: hs) => dict_update default_headers (h :: hs)
       | _ => default_headers
       end in
     request_loop (map Z.of_nat (seq 0 (Z.to_nat retries)))
                  url default_headers timeout retries)
    (print "requests library not installed. Use: pip install requests" ;;;
     ret None).

(** The defaults of [timeout] and [retries]. *)
Definition default_timeout : Z := 10.
Definition default_retries : Z := 3.

Definition download_file (url : string) (filename : Path)
    (headers : option (list (string * string))) : IO bool :=
  try_except
    (import_requests ;;;
     response <- safe_request url headers default_timeout default_retries ;;
     match response with
     | Some r =>
         if response_ok r then
           call (sys_open_write filename) ;;;
           call (sys_write_text filename (content r)) ;;;
           ret true
         else ret false
     | None => ret false
     end)
    (fun e =>
       match e with
       | ImportError _ =>
           print "requests library not installed. Use: pip install requests" ;;;
           ret false
       | _ =>
           print ("Error downloading file: " ++ exn_str e) ;;;
           ret false
       end).
End Helpers.

End WebScraping.

(** ** An outside world in memory, to run the helpers on *)

Module Mem.
Import Py IO.

(** The files with their text, the paths that cannot be written, what the
    next requests will get, and whether [requests] is installed. *)
Record Machine : Type := mkMachine {
  files : list (Path * string);
  read_only : list Path;
  responses : list (result exn Response);
  requests_installed : bool
}.

Fixpoint lookup (p : Path) (fs : list (Path * string)) : option string :=
  match fs with
  | [] => None
  | (q, text) :: rest => if String.eqb q p then Some text else lookup p rest
  end.

Fixpoint store (p : Path) (text : string) (fs : list (Path * string))
  : list (Path * string) :=
  match fs with
  | [] => [(p, text)]
  | (q, old) :: rest =>
      if String.eqb q p then (q, text) :: rest
      else (q, old) :: store p text rest
  end.

Definition with_files (m : Machine) (fs : list (Path * string)) : Machine :=
  mkMachine fs (read_only m) (responses m) (requests_installed m).

Definition no_such_file : exn := OSError "No such file or directory".

Definition exists_ (p : Path) (m : Machine) : result exn bool * Machine :=
  (Returned (match lookup p (files m) with Some _ => true | None => false end), m).

Definition read_text (p : Path) (m : Machine) : result exn string * Machine :=
  match lookup p (files m) with
  | Some text => (Returned text, m)
  | None => (Raised no_such_file, m)
  end.

Definition open_write (p : Path) (m : Machine) : result exn unit * Machine :=
  if existsb (String.eqb p) (read_only m)
  then (Raised (OSError "Permission denied"), m)
  else (Returned tt, with_files m (store p "" (files m))).

Definition write_text (p : Path) (text : string) (m : Machine)
  : result exn unit * Machine :=
  (Returned tt, with_files m (store p text (files m))).

Definition copy2 (source destination : Path) (m : Machine)
  : result exn unit * Machine :=
  match lookup source (files m) with
  | Some text => (Returned tt, with_files m (store destination text (files m)))
  | None => (Raised no_such_file, m)
  end.

Definition stat (p : Path) (m : Machine) : result exn Stat * Machine :=
  match lookup p (files m) with
  | Some text => (Returned (mkStat (Z.of_nat (String.length text)) 0 0), m)
  | None => (Raised no_such_file, m)
  end.

Definition http_get (url : string) (headers : list (string * string))
    (timeout : Z) (m : Machine) : result exn Response * Machine :=
  match responses m with
  | r :: rest =>
      (r, mkMachine (files m) (read_only m) rest (requests_installed m))
  | [] => (Raised (OSError "Connection refused"), m)
  end.

(** Directories and the csv module are not part of this machine: making a
    directory does nothing and the csv functions give nothing. *)
#[global] Instance system : System Machine := {
  sys_exists := exists_;
  sys_mkdir := fun _ m => (Returned tt, m);
  sys_read_text := read_text;
  sys_open_write := open_write;
  sys_write_text := write_text;
  sys_copy2 := copy2;
  sys_stat := stat;
  sys_is_file := exists_;
  sys_is_dir := fun _ m => (Returned false, m);
  sys_absolute := fun p m => (Returned p, m);
  sys_import_requests := fun m => (requests_installed m, m);
  sys_http_get := http_get;
  sys_sleep := fun m => m;
  path_parent := fun p => p;
  path_name := fun p => p;
  path_suffix := fun _ => "";
  csv_read := fun _ _ => Returned [];
  csv_write := fun _ _ _ => Returned ""
}.

(** A machine with nothing on it, and the state a helper starts in. *)
Definition empty : Machine := mkMachine [] [] [] true.

Definition start (m : Machine) : St Machine := mkSt m [] [].

End Mem.

(** ** python_helpers/utilities/__init__.py: the other functions *)

Module UtilitiesRest.
Import Py Json.

(** *** remove_duplicates *)

Section RemoveDuplicates.
(** The elements are hashable; [eqb x y] is [x == y]. *)
Variable A : Type.
Variable eqb : A -> A -> bool.

(** The order in which [list(set(lst))] gives the elements; the language
    leaves it open. *)
Variable set_order : list A -> list A.

(** [x in seen] for the set [seen]: an element of the set equals [x]. *)
Definition in_set (x : A) (seen : list A) : bool :=
  existsb (fun y => eqb y x) seen.

(** [[x for x in lst if not (x in seen or seen.add(x))]]: [seen.add]
    returns None, so an element that is not in [seen] is added to it and
    kept. *)
Fixpoint keep_unseen (lst seen : list A) : list A :=
  match lst with
  | [] => []
  | x :: rest =>
      if in_set x seen then keep_unseen rest seen
      else x :: keep_unseen rest (seen ++ [x])%list
  end.

Definition remove_duplicates (lst : list A) (preserve_order : bool) : list A :=
  if preserve_order then keep_unseen lst [] else set_order lst.
End RemoveDuplicates.

Arguments in_set {A} eqb x seen.
Arguments keep_unseen {A} eqb lst seen.
Arguments remove_duplicates {A} eqb set_order lst preserve_order.

(** *** generate_password *)

(** [string.ascii_letters], [string.digits] and the symbols. *)
Definition ascii_letters : string :=
  "abcdefghijklmnopqrstuvwxyzABCDEFGHIJKLMNOPQRSTUVWXYZ".
Definition string_digits : string := "0123456789".
Definition symbols : string := "!@#$%^&*".

Section GeneratePassword.
(** The random source: [draw k] is the number behind its call number [k]. *)
Variable draw : nat -> nat.

(** [secrets.choice(seq)] at call number [k]: the character at an index
    below [len(seq)]. *)
Definition secrets_choice (k : nat) (seq : string) : ascii :=
  match String.get (draw k mod String.length seq) seq with
  | Some c => c
  | None => " "%char
  end.

Definition password_characters (include_symbols : bool) : string :=
  let characters := ascii_letters ++ string_digits in
  if include_symbols then characters ++ symbols else characters.

(** [''.join(secrets.choice(characters) for _ in range(length))] *)
Definition generate_password (length : Z) (include_symbols : bool) : string :=
  let characters := password_characters include_symbols in
  string_of_list_ascii
    (map (fun k => secrets_choice k characters) (seq 0 (Z.to_nat length))).
End GeneratePassword.

(** *** validate_email *)

(** A character between two others, as in the class [a-z]. *)
Definition in_range (lo hi c : ascii) : bool :=
  ((N_of_ascii lo <=? N_of_ascii c) && (N_of_ascii c <=? N_of_ascii hi))%N.

Definition is_alpha (c : ascii) : bool :=
  in_range "a" "z" c || in_range "A" "Z" c.

Definition is_alnum (c : ascii) : bool :=
  is_alpha c || in_range "0" "9" c.

(** The classes [[a-zA-Z0-9._%+-]] and [[a-zA-Z0-9.-]]. *)
Definition local_char (c : ascii) : bool := is_alnum c || char_in c "._%+-".
Definition domain_char (c : ascii) : bool := is_alnum c || char_in c ".-".

(** The matcher of [re], piece by piece: each piece of a pattern takes the
    matcher [k] of what follows it and the text left.  A repetition is
    greedy: it first takes one more character, and gives it back when what
    follows does not match. *)
Definition re_one (cls : ascii -> bool) (k : string -> bool) (s : string) : bool :=
  match s with
  | String c rest => cls c && k rest
  | EmptyString => false
  end.

Fixpoint re_star (cls : ascii -> bool) (k : string -> bool) (s : string) : bool :=
  match s with
  | String c rest => (cls c && re_star cls k rest) || k s
  | EmptyString => k s
  end.

Definition re_plus (cls : ascii -> bool) (k : string -> bool) : string -> bool :=
  re_one cls (re_star cls k).

(** [$]: the end of the text, or the line feed that ends the text. *)
Definition re_end (s : string) : bool :=
  match s with
  | EmptyString => true
  | String c EmptyString => Ascii.eqb c newline
  | _ => false
  end.

(** [bool(re.match(pattern, email))] for the pattern
    [^[a-zA-Z0-9._%+-]+@[a-zA-Z0-9.-]+\.[a-zA-Z]{2,}$]. *)
Definition validate_email (email : string) : bool :=
  re_plus local_char
    (re_one (Ascii.eqb "@")
       (re_plus domain_char
          (re_one (Ascii.eqb ".")
             (re_one is_alpha (re_one is_alpha (re_star is_alpha re_end))))))
    email.

(** *** time_ago *)

(** A naive [datetime] is the number of microseconds since some origin.  A
    [timedelta] is kept as Python normalises it: any number of days, with
    [0 <= seconds < 86400] and [0 <= microseconds < 1000000]. *)
Record timedelta : Type := mkTimedelta {
  days : Z;
  seconds : Z;
  microseconds : Z
}.

Definition datetime_sub (a b : Z) : timedelta :=
  let us := a - b in
  mkTimedelta (us / 86400000000) ((us mod 86400000000) / 1000000) (us mod 1000000).

(** [f"{n} {unit}{'s' if n > 1 else ''} ago"] *)
Definition ago (n : Z) (unit : string) : string :=
  int_repr n ++ " " ++ unit ++ (if n >? 1 then "s" else "") ++ " ago".

(** [time_ago], with what [datetime.now()] gives as [now]. *)
Definition time_ago (now timestamp : Z) : string :=
  let diff := datetime_sub now timestamp in
  if days diff >? 0 then ago (days diff) "day"
  else
    let hours := seconds diff / 3600 in
    if hours >? 0 then ago hours "hour"
    else
      let minutes := seconds diff / 60 in
      if minutes >? 0 then ago minutes "minute"
      else "Just now".

(** *** flatten_dict *)

(** [dict(items)] for pairs under str keys. *)
Definition dict_items (pairs : list (string * value)) : list (string * value) :=
  fold_left (fun items kv => dict_set items (fst kv) (snd kv)) pairs [].

(** The key of a member: [f"{parent_key}{separator}{key}" if parent_key
    else key]. *)
Definition new_key (parent_key separator key : string) : string :=
  if String.eqb parent_key "" then key else parent_key ++ separator ++ key.

(** The items every member gives, one after the other ([items.extend]), up
    to a member outside the model. *)
Fixpoint extend_all {M : Type} (f : M -> option (list (string * value)))
    (members : list M) : option (list (string * value)) :=
  match members with
  | [] => Some []
  | m :: rest =>
      match f m with
      | Some items =>
          match extend_all f rest with
          | Some more => Some (items ++ more)%list
          | None => None
          end
      | None => None
      end
  end.

(** The same over [enumerate(obj)]: [f] takes the index too. *)
Fixpoint extend_enumerated {M : Type} (f : nat -> M -> option (list (string * value)))
    (i : nat) (members : list M) : option (list (string * value)) :=
  match members with
  | [] => Some []
  | m :: rest =>
      match f i m with
      | Some items =>
          match extend_enumerated f (S i) rest with
          | Some more => Some (items ++ more)%list
          | None => None
          end
      | None => None
      end
  end.

(** The inner function [_flatten].  The keys of the dicts are strs, as the
    annotation of [flatten_dict] has them: a dict with another key is
    outside the model ([None]).  A tuple is no list: it is a leaf. *)
Fixpoint _flatten (separator : string) (obj : value) (parent_key : string)
  : option (list (string * value)) :=
  match obj with
  | PDict items =>
      match
        extend_all
          (fun kv : value * value =>
             let (k, v) := kv in
             match k with
             | PStr key => _flatten separator v (new_key parent_key separator key)
             | _ => None
             end)
          items
      with
      | Some items => Some (dict_items items)
      | None => None
      end
  | PList elements =>
      match
        extend_enumerated
          (fun (i : nat) (v : value) =>
             _flatten separator v
               (new_key parent_key separator (int_repr (Z.of_nat i))))
          0%nat elements
      with
      | Some items => Some (dict_items items)
      | None => None
      end
  | _ => Some [(parent_key, obj)]
  end.

Definition flatten_dict (nested_dict : value) (separator : string)
  : option (list (string * value)) :=
  _flatten separator nested_dict "".

(** The default of [separator]. *)
Definition default_separator : string := ".".

End UtilitiesRest.

(** ** python_helpers/data_processing/__init__.py: the functions on rows *)

Module DataProcessingRest.
Import Py Json.

(** A row: a dict under str keys, with its items in order. *)
Definition Item : Type := list (string * value).

(** [item[key]], when [key in item]. *)
Fixpoint dict_get (item : Item) (key : string) : option value :=
  match item with
  | [] => None
  | (k, v) :: rest => if String.eqb k key then Some v else dict_get rest key
  end.

(** [value is None] *)
Definition is_none (v : value) : bool :=
  match v with
  | PNone => true
  | _ => false
  end.

(** Whether [hash(v)] works: lists and dicts have no hash, a tuple has one
    when its elements have. *)
Fixpoint hashable (v : value) : bool :=
  match v with
  | PList _ | PDict _ => false
  | PTuple items => forallb hashable items
  | _ => true
  end.

Definition unhashable : exn := TypeError "unhashable type".

(** *** clean_data *)

(** The loop over [item.items()]: an empty value is skipped before any
    stripping; a str is stripped; the value is stored under its key. *)
Definition clean_value (remove_empty strip_strings : bool)
    (clean_item : Item) (kv : string * value) : Item :=
  let (key, value) := kv in
  if remove_empty && (is_none value || py_eqb value (PStr "")) then clean_item
  else
    let value :=
      match value with
      | PStr s => if strip_strings then PStr (strip s) else value
      | _ => value
      end in
    dict_set clean_item key value.

Definition clean_item (remove_empty strip_strings : bool) (item : Item) : Item :=
  fold_left (clean_value remove_empty strip_strings) item [].

(** The loop over [data]: a row that comes out empty is left out. *)
Fixpoint clean_data (data : list Item) (remove_empty strip_strings : bool)
  : list Item :=
  match data with
  | [] => []
  | item :: rest =>
      match clean_item remove_empty strip_strings item with
      | [] => clean_data rest remove_empty strip_strings
      | cleaned => cleaned :: clean_data rest remove_empty strip_strings
      end
  end.

(** *** group_by *)

(** [groups[group_key].append(item)], after [groups[group_key] = []] for a
    key that is not in [groups]: the group of the first key equal to
    [group_key] takes the row, or a new group is added at the end. *)
Fixpoint groups_append (groups : list (value * list Item)) (group_key : value)
    (item : Item) : list (value * list Item) :=
  match groups with
  | [] => [(group_key, [item])]
  | (g, items) :: rest =>
      if py_eqb g group_key then (g, (items ++ [item])%list) :: rest
      else (g, items) :: groups_append rest group_key item
  end.

(** The loop over [data], from the groups so far; looking up a key that has
    no hash raises TypeError. *)
Fixpoint group_loop (data : list Item) (key : string)
    (groups : list (value * list Item)) : result exn (list (value * list Item)) :=
  match data with
  | [] => Returned groups
  | item :: rest =>
      match dict_get item key with
      | Some group_key =>
          if hashable group_key
          then group_loop rest key (groups_append groups group_key item)
          else Raised unhashable
      | None => group_loop rest key groups
      end
  end.

Definition group_by (data : list Item) (key : string)
  : result exn (list (value * list Item)) :=
  group_loop data key [].

(** *** filter_data *)

(** The loop over [filters.items()], left at the first filter that fails:
    the key is missing, or [item[filter_key] != filter_value]. *)
Definition matches (item filters : Item) : bool :=
  forallb (fun f : string * value =>
             let (filter_key, filter_value) := f in
             match dict_get item filter_key with
             | Some v => py_eqb v filter_value
             | None => false
             end)
          filters.

Definition filter_data (data : list Item) (filters : Item) : list Item :=
  filter (fun item => matches item filters) data.

(** *** count_occurrences *)

(** The value a row adds to [values]: the one under [key], unless it is
    None. *)
Definition counted_value (key : string) (item : Item) : option value :=
  match dict_get item key with
  | Some v => if is_none v then None else Some v
  | None => None
  end.

(** [counter[v] += 1] *)
Fixpoint counter_add (counts : list (value * Z)) (v : value) : list (value * Z) :=
  match counts with
  | [] => [(v, 1)]
  | (g, n) :: rest =>
      if py_eqb g v then (g, n + 1) :: rest
      else (g, n) :: counter_add rest v
  end.

(** [Counter(values)], from the counts so far. *)
Fixpoint counter (values : list value) (counts : list (value * Z))
  : result exn (list (value * Z)) :=
  match values with
  | [] => Returned counts
  | v :: rest =>
      if hashable v then counter rest (counter_add counts v)
      else Raised unhashable
  end.

Definition count_occurrences (data : list Item) (key : string)
  : result exn (list (value * Z)) :=
  let values :=
    flat_map (fun item => match counted_value key item with
                          | Some v => [v]
                          | None => []
                          end) data in
  counter values [].

End DataProcessingRest.

(** ** python_helpers/web_scraping/__init__.py: the links of a page *)

Module WebScrapingRest.
Import Py.

(** An [a] tag with an href, as [find_all('a', href=True)] gives it: the
    href, the text as [get_text(strip=True)] gives it, and the title when
    the tag has one. *)
Record Anchor : Type := mkAnchor {
  href : string;
  anchor_text : string;
  anchor_title : option string
}.

(** The dict made for a link. *)
Record Link : Type := mkLink {
  url : string;
  text : string;
  title : string
}.

(** [s.startswith(prefix)] *)
Definition startswith (prefix s : string) : bool :=
  match Json.strip_prefix prefix s with
  | Some _ => true
  | None => false
  end.

(** The two branches that handle a relative href. *)
Definition resolve_href (base_url href : string) : string :=
  if negb (String.eqb base_url "") && startswith "/" href
  then rstrip_by (fun c => char_in c "/") base_url ++ href
  else if negb (String.eqb base_url "")
          && negb (startswith "http://" href || startswith "https://" href)
  then rstrip_by (fun c => char_in c "/") base_url ++ "/"
       ++ lstrip_by (fun c => char_in c "/") href
  else href.

(** [extract_links]: the page is None when [parse_html] could not import
    its parser; a page that was parsed counts as true. *)
Definition extract_links (soup_object : option (list Anchor)) (base_url : string)
  : list Link :=
  match soup_object with
  | None => []
  | Some anchors =>
      map (fun link =>
             mkLink (resolve_href base_url (href link))
                    (anchor_text link)
                    (match anchor_title link with
                     | Some t => t
                     | None => ""
                     end))
          anchors
  end.

End WebScrapingRest.

(** ** The vocabulary of the properties *)

Local Open Scope list_scope.

(** *** Lists and strings *)

(** The chunk number [k] of a list, for a chunk size [s], on naturals. *)
Definition chunk_at {A : Type} (lst : list A) (s k : nat) : list A :=
  skipn (k * s) (firstn (k * s + s) lst).

(** What [lstrip] leaves does not start with a character to drop. *)
Definition head_kept (drop : ascii -> bool) (s : string) : Prop :=
  match s with
  | EmptyString => True
  | String c _ => drop c = false
  end.

(** Every character of a string passes a test. *)
Fixpoint string_forallb (p : ascii -> bool) (s : string) : bool :=
  match s with
  | EmptyString => true
  | String c rest => p c && string_forallb p rest
  end.

(** A character [clean_filename] keeps. *)
Definition is_valid_char (c : ascii) : bool := negb (Utilities.is_invalid_char c).

(** *** The sample runs the theorems are tried on *)

(** An operation that raises every time it is called. *)
Definition always_fail (k : nat) : Py.result string Z := Py.Raised "Always fails"%string.

(** Two runs of the job to try the theorems on: one group of 60 reports and
    one of 3, a threshold of 50, a world that works. *)
Definition busy_connection : PendingReports.Connection :=
  PendingReports.QueryRows
    [Some (PendingReports.mkRow "T1" "Alpha" 60 "Pending")].

Definition calm_connection : PendingReports.Connection :=
  PendingReports.QueryRows
    [Some (PendingReports.mkRow "T1" "Alpha" 3 "Failed")].

Definition busy_env : PendingReports.Env :=
  PendingReports.mkEnv (Some busy_connection) false false false.

Definition calm_env : PendingReports.Env :=
  PendingReports.mkEnv (Some calm_connection) false false false.

Definition world_with (content : option string) : PendingReports.World :=
  PendingReports.mkWorld content [] [].

(** A machine whose first request fails and whose second one succeeds. *)
Definition flaky_network : Mem.Machine :=
  Mem.mkMachine [] []
    [Py.Raised (Py.OSError "Connection refused");
     Py.Returned (IO.mkResponse 200 "hello")]
    true.

(** The fixture [sample_json_data] of tests/conftest.py. *)
Definition sample_json_data : Json.value :=
  Json.PDict
    [(Json.PStr "name", Json.PStr "Test Data");
     (Json.PStr "version", Json.PStr "1.0");
     (Json.PStr "items",
      Json.PList [Json.PStr "item1"; Json.PStr "item2"; Json.PStr "item3"]);
     (Json.PStr "config",
      Json.PDict [(Json.PStr "enabled", Json.PBool true);
                  (Json.PStr "max_count", Json.PInt 100)])].

(** A dict [json.dump] accepts, with an int as its key. *)
Definition int_keyed : Json.value := Json.PDict [(Json.PInt 1, Json.PStr "a")].

(** *** Runs of the helpers *)

Section Runs.
Import Py IO.
Context {OS : Type} {A : Type}.

(** A run of [m] from [st] ends with [r], after the calls [evs] into the
    outside world and the lines [lines] printed. *)
Definition ran (m : IO A) (st : St OS) (r : result exn A)
    (evs : list event) (lines : list string) : Prop :=
  exists st', m st = (r, st') /\
              calls st' = calls st ++ evs /\
              stdout st' = stdout st ++ lines.

(** The last call of a run raised. *)
Definition fails_last (evs : list event) : Prop :=
  exists e, last evs Completed = Failed e.

(** [m] never raises, and when any of its calls raised it returns its
    sentinel after printing one line. *)
Definition catches_every_failure (m : IO A) (sentinel : A) : Prop :=
  forall st, exists v evs lines,
    ran m st (Returned v) evs lines /\
    (forall e, In (Failed e) evs ->
       v = sentinel /\ exists line, lines = [line]).

(** [m] never raises, and when its last call raised it returns its sentinel
    after printing one line. *)
Definition catches_last_failure (m : IO A) (sentinel : A) : Prop :=
  forall st, exists v evs lines,
    ran m st (Returned v) evs lines /\
    (fails_last evs -> v = sentinel /\ exists line, lines = [line]).
End Runs.

Section Requests.
Import Py IO.
Context {OS : Type}.

(** What the request loop and [safe_request] do, for the callers: at least
    one call is made; a last call that raised gives None after one line
    printed; a response comes with nothing printed. *)
Definition request_outcome (m : @IO OS (option Response)) : Prop :=
  forall st, exists v evs lines,
    ran m st (Returned v) evs lines /\
    evs <> [] /\
    (fails_last evs -> v = None /\ exists line, lines = [line]) /\
    (v <> None -> lines = []).
End Requests.

Section FileSystems.
Import Py IO.
Context {OS : Type} `{System OS}.

(** The one thing asked of the file system: a file that was opened for
    writing and written can be read, and holds what was written. *)
Definition reads_what_was_written : Prop :=
  forall (p : Path) (text : string) (o o1 o2 : OS),
    sys_open_write p o = (Returned tt, o1) ->
    sys_write_text p text o1 = (Returned tt, o2) ->
    sys_read_text p o2 = (Returned text, o2).
End FileSystems.

(** *** JSON texts *)

Section Texts.
Import Py Json.

(** A text that starts a JSON value: it is not empty and its first
    character is no white space and closes no array. *)
Definition starts_value (text : string) : Prop :=
  match text with
  | EmptyString => False
  | String c _ => is_ws c = false /\ Ascii.eqb c "]" = false
  end.

(** What may follow the text of an integer for the scanner to stop there:
    the end, or a character that is no digit and starts neither a fraction
    nor an exponent. *)
Definition ends_number (rest : string) : Prop :=
  match rest with
  | EmptyString => True
  | String c _ =>
      is_digit c = false /\ Ascii.eqb c "." = false /\
      Ascii.eqb c "e" = false /\ Ascii.eqb c "E" = false
  end.

(** The text [text] is read back as [v], whatever follows it that ends a
    number, once the fuel covers the characters left. *)
Definition reads_back (v : value) (text : string) : Prop :=
  starts_value text /\
  forall fuel rest,
    ends_number rest ->
    (2 * String.length (text ++ rest) + 1 <= fuel)%nat ->
    scan_once fuel (text ++ rest) = Returned (v, rest).

(** A member of a dict with its text: a str key, a colon and a space, and
    the text of the value. *)
Definition member_reads_back (kv : value * value) (member : string) : Prop :=
  exists k t,
    fst kv = PStr k /\
    member = (encode_basestring k ++ ": " ++ t)%string /\
    reads_back (snd kv) t.

(** The pairs the decoder collects for the items of a dict. *)
Definition str_pairs (items : list (value * value)) : list (string * value) :=
  map (fun kv : value * value =>
         (match fst kv with PStr k => k | _ => EmptyString end, snd kv))
      items.
End Texts.

(** *** More sample inputs *)

(** The operation of the test test_operation_succeeds_after_retries: its
    first two calls raise, the third returns. *)
Definition succeeds_third (k : nat) : Py.result string string :=
  if (k <? 2)%nat then Py.Raised "Temporary failure"%string
  else Py.Returned "success"%string.

(** A random source that counts up: call number [k] draws [7 * k + 3]. *)
Definition counting_draw (k : nat) : nat := (7 * k + 3)%nat.

(** *** Nested values *)

(** A value [flatten_dict] keeps as it is: anything but a dict or a list. *)
Definition is_leaf (v : Json.value) : bool :=
  match v with
  | Json.PDict _ | Json.PList _ => false
  | _ => true
  end.

(** The dicts met on the way down through dicts and lists have str keys. *)
Fixpoint str_keyed (v : Json.value) : bool :=
  match v with
  | Json.PDict items =>
      forallb (fun kv : Json.value * Json.value =>
                 let (k, x) := kv in
                 match k with Json.PStr _ => str_keyed x | _ => false end)
              items
  | Json.PList items => forallb str_keyed items
  | _ => true
  end.

(** A dict under str keys, as a value. *)
Definition dict_value (items : list (string * Json.value)) : Json.value :=
  Json.PDict (map (fun kv : string * Json.value => (Json.PStr (fst kv), snd kv)) items).

(** The dict of the test test_list_flattening. *)
Definition nested_items : Json.value :=
  Json.PDict
    [(Json.PStr "items",
      Json.PList [Json.PInt 1; Json.PInt 2;
                  Json.PDict [(Json.PStr "nested", Json.PStr "value")]])].

(** *** Rows *)

(** Whether a row has the key. *)
Definition has_key (key : string) (item : DataProcessingRest.Item) : bool :=
  match DataProcessingRest.dict_get item key with
  | Some _ => true
  | None => false
  end.

(** Whether [count_occurrences] counts a row: it has the key, with a value
    other than None. *)
Definition is_counted (key : string) (item : DataProcessingRest.Item) : bool :=
  match DataProcessingRest.counted_value key item with
  | Some _ => true
  | None => false
  end.

(** The groups with the number of rows in place of the rows. *)
Definition group_sizes (groups : list (Json.value * list DataProcessingRest.Item))
  : list (Json.value * Z) :=
  map (fun g : Json.value * list DataProcessingRest.Item =>
         (fst g, Z.of_nat (length (snd g)))) groups.

(** The sum of the counts. *)
Definition total_of (counts : list (Json.value * Z)) : Z :=
  fold_right Z.add 0 (map snd counts).

(** What a value is like once it went through [clean_data] with both
    options: it is not None, and a str is stripped. *)
Definition cleaned_once (v : Json.value) : Prop :=
  v <> Json.PNone /\ forall s, v = Json.PStr s -> Py.strip s = s.

(** Rows as the csv reader gives them; the second has a name of spaces
    only and no age. *)
Definition sample_rows : list DataProcessingRest.Item :=
  [[("name", Json.PStr " Alice Brown "); ("age", Json.PStr "28");
    ("department", Json.PStr "HR")];
   [("name", Json.PStr "  "); ("age", Json.PStr "");
    ("department", Json.PNone)];
   [("name", Json.PStr "Bob Johnson"); ("age", Json.PStr "");
    ("department", Json.PStr "Engineering")];
   [("name", Json.PStr "Eve Martinez"); ("age", Json.PStr "32");
    ("department", Json.PStr "HR")]]%string.

(** A row whose department is a list, which has no hash. *)
Definition unhashable_row : DataProcessingRest.Item :=
  [("department", Json.PList [Json.PStr "HR"])]%string.

(** What a group is: it has rows, and each of its rows has the key under a
    value equal to the key of the group. *)
Definition group_of (key : string)
    (g : Json.value * list DataProcessingRest.Item) : Prop :=
  snd g <> [] /\
  Forall (fun item => exists v, DataProcessingRest.dict_get item key = Some v /\
                                Json.py_eqb (fst g) v = true) (snd g).

(** *** The pending-reports job over several runs *)

(** The rows of the query that the loop could read, in order. *)
Definition rows_read (rows : list (option PendingReports.Row))
  : list PendingReports.Row :=
  flat_map (fun row : option PendingReports.Row =>
              match row with
              | Some r => [r]
              | None => []
              end) rows.

(** The sum of the counts of the records. *)
Definition sum_counts (records : list PendingReports.Row) : Z :=
  fold_right (fun r acc => Z.of_N (PendingReports.count_reports r) + acc) 0 records.

(** The alert types of the messages the job asked to send, in order. *)
Definition send_kinds (acts : list PendingReports.Action) : list string :=
  flat_map (fun a : PendingReports.Action =>
              match a with
              | PendingReports.SmtpSend msg _ => [PendingReports.alert_type msg]
              | PendingReports.WriteState _ _ => []
              end) acts.

(** No RECOVERY comes right after a RECOVERY. *)
Fixpoint no_recovery_twice (kinds : list string) : bool :=
  match kinds with
  | [] => true
  | a :: rest =>
      match rest with
      | b :: _ => negb (String.eqb a "RECOVERY" && String.eqb b "RECOVERY")
      | [] => true
      end && no_recovery_twice rest
  end.

(** A run at or under the threshold, whenever the database answers. *)
Definition calm_run (ALERT_THRESHOLD : Z) (env : PendingReports.Env) : Prop :=
  forall connection,
    PendingReports.db_connect env = Some connection ->
    snd (PendingReports.get_pending_records_from_database connection)
    <= ALERT_THRESHOLD.

(** A calm run during which the mail server cannot be reached. *)
Definition smtp_down_env : PendingReports.Env :=
  PendingReports.mkEnv (Some calm_connection) false false true.

(** *** Links and files *)

(** An href that names its scheme. *)
Definition is_absolute (href : string) : bool :=
  WebScrapingRest.startswith "http://" href
  || WebScrapingRest.startswith "https://" href.

(** The anchors of a page: a path from the root, a relative path, a full
    address and a fragment. *)
Definition sample_anchors : list WebScrapingRest.Anchor :=
  [WebScrapingRest.mkAnchor "/about" "About" None;
   WebScrapingRest.mkAnchor "docs/index.html" "Docs" (Some "The docs");
   WebScrapingRest.mkAnchor "https://example.org/x" "Other" None;
   WebScrapingRest.mkAnchor "#top" "Top" None]%string.

(** The text of a file on the in-memory machine after a helper ran. *)
Definition text_after {A : Type} (run : Py.result Py.exn A * IO.St Mem.Machine)
    (p : IO.Path) : option string :=
  Mem.lookup p (Mem.files (IO.os (snd run))).

(** A machine with a report and its older backup. *)
Definition two_files : Mem.Machine :=
  Mem.mkMachine [("report.txt", "new"); ("backup.txt", "old")]%string [] [] true.

(** A request that does not give a response to return: it raises, or the
    status of its response is an error. *)
Definition failing (r : Py.result Py.exn IO.Response) : bool :=
  match r with
  | Py.Raised _ => true
  | Py.Returned response => negb (WebScraping.response_ok response)
  end.

(** What is left of the responses of the machine after a helper ran. *)
Definition responses_after {A : Type} (run : Py.result Py.exn A * IO.St Mem.Machine)
  : list (Py.result Py.exn IO.Response) :=
  Mem.responses (IO.os (snd run)).

(** A machine whose network fails three times and then answers. *)
Definition slow_network : Mem.Machine :=
  Mem.mkMachine [] []
    [Py.Raised (Py.OSError "Connection refused");
     Py.Returned (IO.mkResponse 503 "busy");
     Py.Raised (Py.OSError "timed out");
     Py.Returned (IO.mkResponse 200 "hello")]
    true.

(** The machine after requests were made: what is left of the responses is
    [rest], and nothing else has changed. *)
Definition after_requests (m : Mem.Machine)
    (rest : list (Py.result Py.exn IO.Response)) : Mem.Machine :=
  Mem.mkMachine (Mem.files m) (Mem.read_only m) rest (Mem.requests_installed m).

(* ================================================================== *)
(** * Part II.  Properties                                              *)
(* ================================================================== *)

Local Open Scope list_scope.

(** ** Lists: [chunk_list] *)

Section ChunkList.
Import Py Utilities.
Context {A : Type}.
Implicit Types (lst : list A) (s k n : nat).

Lemma slice_nonneg lst (i j : Z) :
  0 <= i <= j ->
  slice lst i j = skipn (Z.to_nat i) (firstn (Z.to_nat j) lst).
Proof.
  intros Hij. unfold slice, slice_bound.
  destruct (Z.ltb_spec i 0) as [?|_]; [lia|].
  destruct (Z.ltb_spec j 0) as [?|_]; [lia|].
  set (len := Z.of_nat (length lst)).
  rewrite firstn_skipn_comm.
  replace (Z.to_nat (Z.min i len) + Z.to_nat (Z.min j len - Z.min i len))%nat
    with (Z.to_nat (Z.min j len)) by lia.
  assert (Hfj : firstn (Z.to_nat (Z.min j len)) lst = firstn (Z.to_nat j) lst).
  { destruct (Z.le_ge_cases j len) as [Hle|Hge].
    - now rewrite Z.min_l.
    - rewrite Z.min_r by lia. unfold len. rewrite Nat2Z.id.
      rewrite firstn_all. symmetry. apply firstn_all2. lia. }
  rewrite Hfj.
  destruct (Z.le_ge_cases i len) as [Hle|Hge].
  - now rewrite Z.min_l.
  - rewrite Z.min_r by lia. unfold len. rewrite Nat2Z.id.
    rewrite (firstn_all2 lst) by lia.
    rewrite !skipn_all2; trivial; lia.
Qed.

Lemma chunk_at_length lst s k :
  length (chunk_at lst s k) = (Nat.min (k * s + s) (length lst) - k * s)%nat.
Proof. unfold chunk_at. now rewrite length_skipn, length_firstn. Qed.

Lemma firstn_chunk_at lst s k :
  firstn (k * s) lst ++ chunk_at lst s k = firstn (k * s + s) lst.
Proof.
  unfold chunk_at.
  rewrite <- (firstn_skipn (k * s) (firstn (k * s + s) lst)) at 2.
  f_equal. rewrite firstn_firstn. f_equal. lia.
Qed.

Lemma concat_chunk_at lst s n :
  concat (map (chunk_at lst s) (seq 0 n)) = firstn (n * s) lst.
Proof.
  induction n as [|n IH].
  - reflexivity.
  - rewrite seq_S, map_app, concat_app, IH. cbn [map concat Nat.add].
    rewrite app_nil_r, firstn_chunk_at. f_equal. lia.
Qed.

Lemma chunk_list_unfold lst (chunk_size : Z) :
  1 <= chunk_size ->
  chunk_list lst chunk_size =
  Returned (map (chunk_at lst (Z.to_nat chunk_size))
                (seq 0 (Z.to_nat (range_len 0 (Z.of_nat (length lst)) chunk_size)))).
Proof.
  intros Hs. unfold chunk_list, range.
  destruct (Z.eqb_spec chunk_size 0) as [?|_]; [lia|].
  rewrite map_map. f_equal. apply map_ext. intros k.
  rewrite slice_nonneg by nia. unfold chunk_at. f_equal; [|f_equal]; nia.
Qed.

(** The number of chunks is the quotient rounded up. *)
Lemma range_len_chunks (len size : Z) :
  0 <= len -> 1 <= size ->
  let n := range_len 0 len size in
  0 <= n /\ len <= n * size /\ (0 < n -> (n - 1) * size < len) /\ (0 < len -> 1 <= n).
Proof.
  intros Hlen Hs. unfold range_len.
  destruct (Z.ltb_spec 0 size) as [_|?]; [|lia].
  destruct (Z.ltb_spec 0 len) as [Hpos|Hz]; cbn zeta.
  - rewrite Z.sub_0_r.
    pose proof (Z.div_mod (len - 1) size ltac:(lia)) as Hdm.
    pose proof (Z.mod_pos_bound (len - 1) size ltac:(lia)) as Hm.
    pose proof (Z.div_pos (len - 1) size ltac:(lia) ltac:(lia)) as Hq.
    nia.
  - lia.
Qed.
End ChunkList.



Example chunk_list_uneven :
  Utilities.chunk_list [1; 2; 3; 4; 5] 2 = Py.Returned [[1; 2]; [3; 4]; [5]].
Proof. reflexivity. Qed.

Example chunk_list_zero_raises :
  Utilities.chunk_list [1; 2; 3] 0
  = Py.Raised (Py.ValueError "range() arg 3 must not be zero").
Proof. reflexivity. Qed.

(** ** Strings: [strip] and [clean_filename] *)

Section Strip.
Import Py.
Variable drop : ascii -> bool.

Lemma lstrip_by_head_kept s : head_kept drop (lstrip_by drop s).
Proof.
  induction s as [|c s IH]; cbn; [exact I|].
  destruct (drop c) eqn:Hc; [exact IH | exact Hc].
Qed.

Lemma lstrip_by_fixed s : head_kept drop s -> lstrip_by drop s = s.
Proof. destruct s as [|c s]; cbn; [reflexivity|]. now intros ->. Qed.

Lemma rstrip_by_head_kept s : head_kept drop s -> head_kept drop (rstrip_by drop s).
Proof.
  destruct s as [|c s]; cbn; [trivial|]. intros Hc.
  destruct (rstrip_by drop s); [rewrite Hc|]; exact Hc.
Qed.

Lemma rstrip_by_idem s : rstrip_by drop (rstrip_by drop s) = rstrip_by drop s.
Proof.
  induction s as [|c s IH]; cbn; [reflexivity|].
  destruct (rstrip_by drop s) as [|d r] eqn:Hr.
  - destruct (drop c) eqn:Hc; cbn; [reflexivity | now rewrite Hc].
  - cbn [rstrip_by]. cbn [rstrip_by] in IH. now rewrite IH.
Qed.

Lemma strip_by_idem s : strip_by drop (strip_by drop s) = strip_by drop s.
Proof.
  unfold strip_by.
  rewrite (lstrip_by_fixed (rstrip_by drop _)).
  - apply rstrip_by_idem.
  - apply rstrip_by_head_kept, lstrip_by_head_kept.
Qed.

Lemma string_forallb_app p s t :
  string_forallb p (s ++ t)%string = string_forallb p s && string_forallb p t.
Proof. induction s as [|c s IH]; cbn; [reflexivity|]. now rewrite IH, andb_assoc. Qed.

Lemma lstrip_by_forallb p s :
  string_forallb p s = true -> string_forallb p (lstrip_by drop s) = true.
Proof.
  induction s as [|c s IH]; cbn; [trivial|]. intros H.
  destruct (drop c); [apply IH; now apply andb_prop in H | exact H].
Qed.

Lemma rstrip_by_forallb p s :
  string_forallb p s = true -> string_forallb p (rstrip_by drop s) = true.
Proof.
  induction s as [|c s IH]; cbn; [trivial|]. intros H.
  apply andb_prop in H as [Hc Hs]. specialize (IH Hs).
  destruct (rstrip_by drop s).
  - destruct (drop c); cbn; [reflexivity | now rewrite Hc].
  - cbn [string_forallb] in *. now rewrite Hc, IH.
Qed.

Lemma strip_by_forallb p s :
  string_forallb p s = true -> string_forallb p (strip_by drop s) = true.
Proof. intros H. now apply rstrip_by_forallb, lstrip_by_forallb. Qed.

(** [strip] splits the string in three: what went on the left, what is
    kept, what went on the right. *)
Lemma lstrip_by_split s :
  exists l, s = (l ++ lstrip_by drop s)%string /\ string_forallb drop l = true.
Proof.
  induction s as [|c s (l & Hl & Hd)]; cbn.
  - now exists EmptyString.
  - destruct (drop c) eqn:Hc.
    + exists (String c l). cbn. now rewrite Hc, Hd, <- Hl.
    + now exists EmptyString.
Qed.

Lemma rstrip_by_split s :
  exists r, s = (rstrip_by drop s ++ r)%string /\ string_forallb drop r = true.
Proof.
  induction s as [|c s (r & Hr & Hd)]; cbn.
  - now exists EmptyString.
  - destruct (rstrip_by drop s) as [|d k] eqn:Hk.
    + destruct (drop c) eqn:Hc.
      * exists (String c r). cbn in *. rewrite Hc, Hd. now subst s.
      * exists r. cbn in *. split; [now f_equal | exact Hd].
    + exists r. cbn in *. split; [now f_equal | exact Hd].
Qed.

(** What [rstrip] leaves does not end with a character to drop. *)
Lemma rstrip_by_last_kept s k c :
  rstrip_by drop s = (k ++ String c EmptyString)%string -> drop c = false.
Proof.
  revert k. induction s as [|a s IH]; cbn; intros k H.
  - destruct k; discriminate.
  - destruct (rstrip_by drop s) as [|d r] eqn:Hr.
    + destruct (drop a) eqn:Ha; [destruct k; discriminate|].
      destruct k as [|b k]; cbn in H.
      * now injection H as <-.
      * injection H as _ H. destruct k; discriminate.
    + destruct k as [|b k]; cbn in H.
      * discriminate.
      * injection H as _ H. eapply IH. exact H.
Qed.
End Strip.

Section CleanFilename.
Import Py Utilities.

Lemma re_sub_invalid_valid s :
  string_forallb is_valid_char (re_sub_invalid default_replacement s) = true.
Proof.
  induction s as [|c s IH]; cbn [re_sub_invalid]; [reflexivity|].
  destruct (is_invalid_char c) eqn:Hc.
  - unfold default_replacement at 1. cbn [append string_forallb].
    now rewrite IH.
  - cbn [string_forallb]. unfold is_valid_char at 1. now rewrite Hc.
Qed.

Lemma re_sub_invalid_fixed replacement s :
  string_forallb is_valid_char s = true -> re_sub_invalid replacement s = s.
Proof.
  induction s as [|c s IH]; cbn [re_sub_invalid string_forallb];
    [reflexivity|]. intros H.
  apply andb_prop in H as [Hc Hs]. unfold is_valid_char in Hc.
  apply negb_true_iff in Hc. rewrite Hc. now rewrite IH.
Qed.
End CleanFilename.


Example clean_filename_invalid_characters :
  Utilities.clean_filename
    ("file<>:" ++ String (ascii_of_nat 34) "/" ++ String (ascii_of_nat 92) "|?*name.txt")%string
    Utilities.default_replacement
  = "file_________name.txt"%string.
Proof. reflexivity. Qed.

Example clean_filename_dots_and_spaces :
  Utilities.clean_filename "  ...filename...  " Utilities.default_replacement
  = "filename"%string.
Proof. reflexivity. Qed.

Example clean_filename_empty :
  Utilities.clean_filename "" Utilities.default_replacement = "unnamed_file"%string.
Proof. reflexivity. Qed.

(** ** Retrying: [retry_operation] *)

Section RetryFacts.
Import Py Utilities.
Context {A E num : Type}.
Variable mul : num -> num -> num.
Variable func : nat -> result E A.
Variable backoff : num.

Lemma backed_off_shift delay k :
  backed_off mul (mul delay backoff) backoff k
  = backed_off mul delay backoff (S k).
Proof.
  unfold backed_off. induction k as [|k IH]; [reflexivity|].
  rewrite Nat.iter_succ, IH. reflexivity.
Qed.

Lemma backed_off_cons delay m :
  delay :: map (backed_off mul (mul delay backoff) backoff) (seq 0 m)
  = map (backed_off mul delay backoff) (seq 0 (S m)).
Proof.
  cbn [seq map]. f_equal. rewrite <- seq_shift, map_map.
  apply map_ext. intros k. apply backed_off_shift.
Qed.

(** Each pass through the loop that sleeps adds the current delay and
    multiplies it: the sleeps added are the successive products. *)
Lemma retry_loop_sleeps attempts max_attempts calls delay slept :
  exists m : nat,
    snd (retry_loop mul func attempts max_attempts backoff calls delay slept)
    = slept ++ map (backed_off mul delay backoff) (seq 0 m).
Proof.
  revert calls delay slept.
  induction attempts as [|attempt rest IH]; intros calls delay slept;
    cbn [retry_loop].
  - exists 0%nat. cbn. now rewrite app_nil_r.
  - destruct (func calls) as [a|e].
    + exists 0%nat. cbn. now rewrite app_nil_r.
    + destruct (attempt <? max_attempts - 1).
      * destruct (IH (S calls) (mul delay backoff) (slept ++ [delay]))
          as [m Hm].
        exists (S m). rewrite Hm, <- app_assoc. cbn [app].
        now rewrite backed_off_cons.
      * exists 0%nat. cbn. now rewrite app_nil_r.
Qed.

Lemma retry_loop_cons attempt rest max_attempts calls delay slept :
  retry_loop mul func (attempt :: rest) max_attempts backoff calls delay slept
  = match func calls with
    | Returned a => (Returned (Some a), slept)
    | Raised e =>
        if attempt <? max_attempts - 1
        then retry_loop mul func rest max_attempts backoff (S calls)
                        (mul delay backoff) (slept ++ [delay])
        else (Raised e, slept)
    end.
Proof. reflexivity. Qed.

(** When every call raises, the loop sleeps after each attempt but the
    last and raises the last exception. *)
Lemma retry_loop_all_raise (e : nat -> E) (n m : nat) :
  forall (j : nat) delay slept,
    n = (j + m)%nat ->
    (forall k, (k <= n)%nat -> func k = Raised (e k)) ->
    retry_loop mul func (map Z.of_nat (seq j (S m))) (Z.of_nat (S n))
               backoff j delay slept
    = (Raised (e n), slept ++ map (backed_off mul delay backoff) (seq 0 m)).
Proof.
  induction m as [|m IH]; intros j delay slept Hn Hf.
  - assert (j = n) as -> by lia.
    cbn [seq map retry_loop]. rewrite Hf by lia. cbn beta iota.
    destruct (Z.ltb_spec (Z.of_nat n) (Z.of_nat (S n) - 1)) as [?|_]; [lia|].
    now rewrite app_nil_r.
  - change (seq j (S (S m))) with (j :: seq (S j) (S m)).
    rewrite map_cons, retry_loop_cons, Hf by lia.
    destruct (Z.ltb_spec (Z.of_nat j) (Z.of_nat (S n) - 1)) as [_|?]; [|lia].
    rewrite IH by (trivial; lia).
    rewrite <- app_assoc. cbn [app]. now rewrite backed_off_cons.
Qed.
End RetryFacts.




(** ** The pending-reports job: the alert state machine *)

Section PendingReportsFacts.
Import Py PendingReports.
Variable ALERT_THRESHOLD : Z.

Lemma add_row_count_nonneg rows acc :
  0 <= snd acc -> 0 <= snd (fold_left add_row rows acc).
Proof.
  revert acc. induction rows as [|row rows IH]; intros acc Hacc; cbn.
  - exact Hacc.
  - apply IH. destruct row as [r|]; cbn; lia.
Qed.

(** The total the query gives is a count: it is never negative. *)
Lemma total_count_nonneg connection :
  0 <= snd (get_pending_records_from_database connection).
Proof.
  destruct connection as [|rows]; cbn; [lia|].
  apply add_row_count_nonneg. cbn. lia.
Qed.

Lemma main_connected env w connection :
  db_connect env = Some connection ->
  main ALERT_THRESHOLD env w
  = alert_step ALERT_THRESHOLD env
      (fst (get_pending_records_from_database connection))
      (snd (get_pending_records_from_database connection))
      (fst (read_last_alert_state env w)) w.
Proof.
  intros Hc. unfold main, bind, connect_to_database. rewrite Hc.
  destruct (get_pending_records_from_database connection) as [recs total].
  assert (Hw : snd (read_last_alert_state env w) = w).
  { unfold read_last_alert_state.
    destruct (state_file w); [destruct (read_raises env)|]; reflexivity. }
  destruct (read_last_alert_state env w) as [last w'].
  cbn in Hw. now subst w'.
Qed.

Lemma main_not_connected env w :
  db_connect env = None -> main ALERT_THRESHOLD env w = (tt, w).
Proof.
  intros Hc. unfold main, bind, connect_to_database. now rewrite Hc.
Qed.

(** What the two branches that act do to the world. *)
Lemma send_then_write env recs total alert state w :
  let msg :=
    mkEmail (if String.eqb alert "WARNING"
             then WarningSubject total ALERT_THRESHOLD
             else RecoverySubject total) alert total recs in
  let w' := snd ((send_email_report ALERT_THRESHOLD env recs total alert ;;;
                  write_alert_state env state) w) in
  io_trace w' = io_trace w ++ [SmtpSend msg (negb (smtp_raises env));
                               WriteState state (negb (write_raises env))] /\
  outbox w' = outbox w ++ (if smtp_raises env then [] else [msg]) /\
  state_file w' = (if write_raises env then state_file w else Some state).
Proof.
  cbn zeta. unfold bind, send_email_report, write_alert_state.
  destruct (smtp_raises env), (write_raises env); cbn;
    rewrite <- ?app_assoc, ?app_nil_r; auto.
Qed.

(** One run moves the state file to a state of the machine or leaves it,
    and only adds actions whose writes are states of the machine. *)
Lemma main_step env w :
  exists acts,
    io_trace (snd (main ALERT_THRESHOLD env w)) = io_trace w ++ acts /\
    Forall writes_alert_state acts /\
    (state_file (snd (main ALERT_THRESHOLD env w)) = state_file w \/
     exists s, state_file (snd (main ALERT_THRESHOLD env w)) = Some s
               /\ is_alert_state s).
Proof.
  destruct (db_connect env) as [connection|] eqn:Hc.
  - rewrite (main_connected env w connection Hc).
    set (recs := fst (get_pending_records_from_database connection)).
    set (total := snd (get_pending_records_from_database connection)).
    set (last := fst (read_last_alert_state env w)).
    unfold alert_step.
    destruct (total >? ALERT_THRESHOLD).
    + destruct (send_then_write env recs total "WARNING" "WARNING" w)
        as (Ht & _ & Hs).
      eexists. split; [exact Ht|]. split.
      * apply Forall_cons; [exact I|].
        apply Forall_cons; [now right | apply Forall_nil].
      * rewrite Hs. destruct (write_raises env); [now left|].
        right. eexists. split; [reflexivity | now right].
    + destruct ((total <=? ALERT_THRESHOLD) && (total >=? 0));
        [destruct (String.eqb last "WARNING")|].
      * destruct (send_then_write env recs total "RECOVERY" "NORMAL" w)
          as (Ht & _ & Hs).
        eexists. split; [exact Ht|]. split.
        -- apply Forall_cons; [exact I|].
           apply Forall_cons; [now left | apply Forall_nil].
        -- rewrite Hs. destruct (write_raises env); [now left|].
           right. eexists. split; [reflexivity | now left].
      * exists []. cbn. rewrite app_nil_r. auto.
      * exists []. cbn. rewrite app_nil_r. auto.
  - rewrite (main_not_connected env w Hc). exists []. cbn.
    rewrite app_nil_r. auto.
Qed.
End PendingReportsFacts.



(** C3.  In every run in which the query gives a total at or below
    ALERT_THRESHOLD and the last state read is not WARNING, the job leaves
    the world as it was: no message is sent, nothing is written to the state
    file, no request is made at all. *)
Theorem quiet_when_normal (ALERT_THRESHOLD : Z)
    (env : PendingReports.Env) (w : PendingReports.World)
    (connection : PendingReports.Connection) :
  PendingReports.db_connect env = Some connection ->
  snd (PendingReports.get_pending_records_from_database connection) <= ALERT_THRESHOLD ->
  fst (PendingReports.read_last_alert_state env w) <> "WARNING"%string ->
  PendingReports.main ALERT_THRESHOLD env w = (tt, w).
Proof.
  intros Hc Hle Hlast.
  rewrite (main_connected ALERT_THRESHOLD env w connection Hc).
  unfold PendingReports.alert_step.
  destruct (Z.gtb_spec
              (snd (PendingReports.get_pending_records_from_database connection))
              ALERT_THRESHOLD) as [?|_]; [lia|].
  apply String.eqb_neq in Hlast. rewrite Hlast.
  now destruct (_ && _).
Qed.



Lemma quiet_when_normal_witness :
  PendingReports.main 50 calm_env (world_with None) = (tt, world_with None).
Proof.
  apply (quiet_when_normal 50 calm_env (world_with None) calm_connection);
    [reflexivity | vm_compute; discriminate | vm_compute; discriminate].
Defined.



Example alert_state_machine_run :
  map PendingReports.state_file
      [PendingReports.run_jobs 50 [calm_env] (world_with None);
       PendingReports.run_jobs 50 [calm_env; busy_env] (world_with None);
       PendingReports.run_jobs 50 [calm_env; busy_env; busy_env] (world_with None);
       PendingReports.run_jobs 50 [calm_env; busy_env; busy_env; calm_env] (world_with None);
       PendingReports.run_jobs 50 [calm_env; busy_env; busy_env; calm_env; calm_env]
                               (world_with None)]
  = [None; Some "WARNING"; Some "WARNING"; Some "NORMAL"; Some "NORMAL"]%string /\
  length (PendingReports.outbox
            (PendingReports.run_jobs 50 [calm_env; busy_env; busy_env; calm_env; calm_env]
                                     (world_with None))) = 3%nat.
Proof. split; reflexivity. Qed.

(** C5.  [read_last_alert_state] returns NORMAL when the state file does
    not exist and when reading it raises; otherwise it returns what the file
    holds without the white space around it: the content is the result
    between two runs of white space, and the result neither starts nor ends
    with white space.  It leaves the world as it was. *)
Theorem read_last_alert_state_spec (env : PendingReports.Env)
    (w : PendingReports.World) :
  (PendingReports.state_file w = None ->
   fst (PendingReports.read_last_alert_state env w) = "NORMAL"%string) /\
  (forall content,
     PendingReports.state_file w = Some content ->
     PendingReports.read_raises env = true ->
     fst (PendingReports.read_last_alert_state env w) = "NORMAL"%string) /\
  (forall content,
     PendingReports.state_file w = Some content ->
     PendingReports.read_raises env = false ->
     let state := fst (PendingReports.read_last_alert_state env w) in
     state = Py.strip content /\
     (exists before after,
        content = (before ++ state ++ after)%string /\
        string_forallb Py.isspace before = true /\
        string_forallb Py.isspace after = true) /\
     (forall c rest, state = String c rest -> Py.isspace c = false) /\
     (forall c rest, state = (rest ++ String c EmptyString)%string ->
                     Py.isspace c = false)) /\
  snd (PendingReports.read_last_alert_state env w) = w.
Proof.
  unfold PendingReports.read_last_alert_state.
  split; [now intros ->|]. split; [now intros content -> ->|].
  split; [|destruct (PendingReports.state_file w);
            [destruct (PendingReports.read_raises env)|]; reflexivity].
  intros content -> ->. cbn zeta. cbn [fst].
  split; [reflexivity|]. unfold Py.strip, Py.strip_by. split; [|split].
  - destruct (lstrip_by_split Py.isspace content) as (before & Hb & Hbs).
    destruct (rstrip_by_split Py.isspace (Py.lstrip_by Py.isspace content))
      as (after & Ha & Has).
    exists before, after. split; [|now split].
    now rewrite <- Ha.
  - intros c rest Hstate.
    pose proof (rstrip_by_head_kept Py.isspace _
                  (lstrip_by_head_kept Py.isspace content)) as Hk.
    rewrite Hstate in Hk. exact Hk.
  - intros c rest Hstate. eapply rstrip_by_last_kept. exact Hstate.
Qed.

Lemma read_last_alert_state_spec_witness :
  fst (PendingReports.read_last_alert_state calm_env
         (world_with (Some (String (ascii_of_nat 32)
                              ("WARNING" ++ String (ascii_of_nat 10) EmptyString))%string)))
  = "WARNING"%string.
Proof.
  apply (proj1 (proj1 (proj2 (proj2
           (read_last_alert_state_spec calm_env
              (world_with (Some (String (ascii_of_nat 32)
                              ("WARNING" ++ String (ascii_of_nat 10) EmptyString))%string)))))
           _ eq_refl eq_refl)).
Defined.

Example read_last_alert_state_absent :
  fst (PendingReports.read_last_alert_state calm_env (world_with None))
  = "NORMAL"%string.
Proof. reflexivity. Qed.

(** ** The helpers at the I/O boundary *)

Section Boundary.
Import Py IO.
Context {OS : Type} {A : Type}.

Lemma fails_last_In evs e : last evs Completed = Failed e -> In (Failed e) evs.
Proof.
  destruct evs as [|ev evs]; [discriminate|].
  intros <-. destruct (exists_last (l := ev :: evs)) as (pre & x & Hx); [discriminate|].
  rewrite Hx, last_last. apply in_or_app. right. now left.
Qed.

Lemma catches_every_last (m : @IO OS A) (sentinel : A) :
  catches_every_failure m sentinel -> catches_last_failure m sentinel.
Proof.
  intros Hm st. destruct (Hm st) as (v & evs & lines & Hran & Hin).
  exists v, evs, lines. split; [exact Hran|].
  intros [e He]. apply (Hin e), fails_last_In, He.
Qed.
End Boundary.

Ltac step_io :=
  match goal with
  | |- context [match ?x with _ => _ end] =>
      lazymatch x with
      | context [match _ with _ => _ end] => fail
      | _ => destruct x eqn:?
      end
  end; cbn beta iota; cbn [IO.os IO.stdout IO.calls].

Ltac unfold_io :=
  unfold ran, IO.try_except, IO.bind, IO.lib, IO.call, IO.print, IO.ret;
  cbn beta iota; cbn [IO.os IO.stdout IO.calls].

Ltac close_app := first [reflexivity | symmetry; apply app_nil_r].

Ltac leaf_run :=
  eexists; split; [reflexivity|];
  cbn [IO.os IO.stdout IO.calls]; rewrite <- ?app_assoc; split; close_app.

Ltac leaf_every :=
  do 3 eexists; split;
  [ leaf_run
  | let e := fresh "e" in let Hin := fresh "Hin" in
    intros e Hin; cbn in Hin;
    first [ split; [reflexivity | eexists; reflexivity]
          | exfalso; intuition discriminate ] ].

Section DirectHelpers.
Import Py IO FileOps DataProcessing.
Context {OS : Type} `{System OS}.

Lemma read_json_catches p : catches_every_failure (read_json p) None.
Proof.
  intros st. unfold read_json. unfold_io. repeat step_io; leaf_every.
Qed.

Lemma write_json_catches data p indent :
  catches_every_failure (write_json data p indent) false.
Proof.
  intros st. unfold write_json, ensure_directory. unfold_io.
  repeat step_io; leaf_every.
Qed.

Lemma safe_copy_catches source destination overwrite :
  catches_every_failure (safe_copy source destination overwrite) false.
Proof.
  intros st. unfold safe_copy, ensure_directory. unfold_io.
  repeat step_io; leaf_every.
Qed.

Lemma get_file_info_catches p : catches_every_failure (get_file_info p) None.
Proof.
  intros st. unfold get_file_info. unfold_io. repeat step_io; leaf_every.
Qed.

Lemma csv_to_dict_catches p delimiter :
  catches_every_failure (csv_to_dict p delimiter) [].
Proof.
  intros st. unfold csv_to_dict. unfold_io. repeat step_io; leaf_every.
Qed.

Lemma dict_to_csv_catches data p delimiter :
  catches_every_failure (dict_to_csv data p delimiter) false.
Proof.
  intros st. unfold dict_to_csv. destruct data as [|first rest].
  - unfold_io. leaf_every.
  - unfold_io. repeat step_io; leaf_every.
Qed.
End DirectHelpers.

Section RetryingHelpers.
Import Py IO WebScraping.
Context {OS : Type} `{System OS}.

Lemma fails_last_app (evs evs' : list event) :
  evs' <> [] -> (fails_last (evs ++ evs') <-> fails_last evs').
Proof.
  intros Hne. unfold fails_last.
  destruct (exists_last Hne) as (pre & x & ->).
  now rewrite app_assoc, !last_last.
Qed.

Lemma request_loop_outcome url headers timeout retries (m : nat) :
  forall k : nat,
    retries = Z.of_nat (k + S m) ->
    request_outcome
      (request_loop (map Z.of_nat (seq k (S m))) url headers timeout retries).
Proof.
  induction m as [|m IH]; intros k Hretries st.
  - cbn [seq map request_loop]. unfold_io.
    destruct (Z.ltb_spec (Z.of_nat k) (retries - 1)) as [?|_]; [lia|].
    repeat step_io;
      (do 3 eexists; split; [leaf_run|];
       split; [discriminate|]; split;
       [ let e := fresh "e" in let He := fresh "He" in
         intros [e He]; cbn in He;
         first [discriminate | split; [reflexivity | eexists; reflexivity]]
       | let Hv := fresh "Hv" in
         intros Hv; first [reflexivity | now contradiction Hv] ]).
  - change (seq k (S (S m))) with (k :: seq (S k) (S m)).
    cbn [map request_loop].
    specialize (IH (S k) ltac:(lia)).
    destruct (Z.ltb_spec (Z.of_nat k) (retries - 1)) as [_|?]; [|lia].
    set (retry := sleep ;;; request_loop (map Z.of_nat (seq (S k) (S m)))
                              url headers timeout retries).
    assert (Hretry : request_outcome retry).
    { intros st1. subst retry. unfold bind, sleep.
      destruct (IH (mkSt (sys_sleep (os st1)) (stdout st1) (calls st1)))
        as (v & evs & lines & (st' & Hrun & Hc & Hs) & Hrest).
      exists v, evs, lines. split; [|exact Hrest].
      exists st'. now rewrite Hrun. }
    clearbody retry. unfold_io.
    destruct (sys_http_get url headers timeout (os st)) as [[response|e] o];
      [destruct (raise_for_status response) as [[]|e]|]; cbn beta iota;
      cbn [os stdout calls].
    + do 3 eexists. split; [leaf_run|].
      split; [discriminate|]. split; [|reflexivity].
      intros [e He]; cbn in He; discriminate.
    + match goal with
      | |- context [retry ?s] =>
          destruct (Hretry s)
            as (v & evs & lines & (st' & Hrun & Hc & Hs) & Hne & Hlast & Hsome)
      end.
      cbn [os stdout calls] in Hc, Hs.
      exists v, ([Completed; Failed e] ++ evs), lines. split.
      { exists st'. split; [exact Hrun|]. split; [|exact Hs].
        rewrite Hc, <- !app_assoc. reflexivity. }
      split; [discriminate|]. split; [|exact Hsome].
      intros Hf. apply Hlast. eapply fails_last_app; [exact Hne | exact Hf].
    + match goal with
      | |- context [retry ?s] =>
          destruct (Hretry s)
            as (v & evs & lines & (st' & Hrun & Hc & Hs) & Hne & Hlast & Hsome)
      end.
      cbn [os stdout calls] in Hc, Hs.
      exists v, ([Failed e] ++ evs), lines. split.
      { exists st'. split; [exact Hrun|]. split; [|exact Hs].
        rewrite Hc, <- !app_assoc. reflexivity. }
      split; [discriminate|]. split; [|exact Hsome].
      intros Hf. apply Hlast. eapply fails_last_app; [exact Hne | exact Hf].
Qed.

Lemma fails_last_completed_cons (evs : list event) :
  fails_last ([Completed] ++ evs) -> fails_last evs.
Proof.
  destruct evs as [|ev evs].
  - intros [e He]. discriminate.
  - intros Hf. eapply fails_last_app; [|exact Hf]. discriminate.
Qed.

(** The loop over [range(retries)], for any [retries]. *)
Lemma request_loop_range url headers timeout retries (st : St OS) :
  exists v evs lines,
    ran (request_loop (map Z.of_nat (seq 0 (Z.to_nat retries)))
                      url headers timeout retries)
        st (Returned v) evs lines /\
    (fails_last evs -> v = None /\ exists line, lines = [line]) /\
    (v <> None -> lines = []).
Proof.
  destruct (Z.to_nat retries) as [|m] eqn:Hm.
  - cbn [seq map request_loop]. unfold ret.
    exists None, [], []. split; [unfold ran; leaf_run|].
    split; [|reflexivity]. intros [e He]. discriminate.
  - destruct (request_loop_outcome url headers timeout retries m 0%nat
                ltac:(lia) st)
      as (v & evs & lines & Hran & _ & Hrest).
    now exists v, evs, lines.
Qed.

Lemma safe_request_outcome url headers timeout retries :
  request_outcome (safe_request url headers timeout retries).
Proof.
  intros st. unfold safe_request.
  set (default_headers := match headers with
                          | Some (h :: hs) => _
                          | _ => _
                          end).
  clearbody default_headers.
  pose proof (request_loop_range url default_headers timeout retries) as Hloop.
  set (loop := request_loop _ url default_headers timeout retries) in *.
  clearbody loop.
  unfold ran, try_except_ImportError, bind, import_requests, print, ret.
  cbn beta iota.
  destruct (sys_import_requests (os st)) as [[|] o]; cbn beta iota;
    cbn [os stdout calls].
  - match goal with
    | |- context [loop ?s] =>
        destruct (Hloop s)
          as (v & evs & lines & (st' & Hrun & Hc & Hs) & Hlast & Hsome)
    end.
    rewrite Hrun. cbn [os stdout calls] in Hc, Hs.
    exists v, ([Completed] ++ evs), lines. split.
    { exists st'. split; [reflexivity|]. split; [|exact Hs].
      rewrite Hc, <- !app_assoc. reflexivity. }
    split; [discriminate|]. split; [|exact Hsome].
    intros Hf. apply Hlast, fails_last_completed_cons, Hf.
  - do 3 eexists. split; [leaf_run|].
    split; [discriminate|]. split; [|intros Hv; now contradiction Hv].
    intros _. split; [reflexivity | eexists; reflexivity].
Qed.

Lemma safe_request_catches_last url headers timeout retries :
  catches_last_failure (safe_request url headers timeout retries) None.
Proof.
  intros st.
  destruct (safe_request_outcome url headers timeout retries st)
    as (v & evs & lines & Hran & _ & Hlast & _).
  now exists v, evs, lines.
Qed.

Lemma download_file_catches_last url filename headers :
  catches_last_failure (download_file url filename headers) false.
Proof.
  intros st. unfold download_file.
  pose proof (safe_request_outcome url headers default_timeout default_retries)
    as Hreq.
  set (req := safe_request url headers default_timeout default_retries) in *.
  clearbody req.
  unfold ran, try_except, bind, import_requests, print, ret.
  cbn beta iota.
  destruct (sys_import_requests (os st)) as [[|] o]; cbn beta iota;
    cbn [os stdout calls].
  - match goal with
    | |- context [req ?s] =>
        destruct (Hreq s)
          as (v & evs & lines & (st' & Hrun & Hc & Hs) & Hne & Hlast & Hsome)
    end.
    rewrite Hrun. cbn [os stdout calls] in Hc, Hs. cbn beta iota.
    destruct v as [r|]; [destruct (response_ok r)|].
    + assert (Hl : lines = []) by (apply Hsome; discriminate). subst lines.
      rewrite app_nil_r in Hs.
      unfold call. cbn beta iota. cbn [os stdout calls].
      repeat step_io;
        (do 3 eexists; split;
         [ eexists; split; [reflexivity|]; cbn [os stdout calls];
           rewrite ?Hc, ?Hs, <- ?app_assoc; split; close_app
         | let e' := fresh "e" in let He' := fresh "He" in
           intros [e' He']; rewrite ?app_assoc in He';
           first [ rewrite last_last in He'; discriminate
                 | split; [reflexivity | eexists; reflexivity] ] ]).
    + assert (Hl : lines = []) by (apply Hsome; discriminate). subst lines.
      exists false, ([Completed] ++ evs), [].
      split.
      { exists st'. split; [reflexivity|]. split; [|exact Hs].
        rewrite Hc, <- !app_assoc. reflexivity. }
      intros Hf. apply fails_last_completed_cons in Hf.
      destruct (Hlast Hf) as [Hv _]. discriminate.
    + exists false, ([Completed] ++ evs), lines.
      split.
      { exists st'. split; [reflexivity|]. split; [|exact Hs].
        rewrite Hc, <- !app_assoc. reflexivity. }
      intros Hf. apply fails_last_completed_cons in Hf.
      split; [reflexivity|]. apply (Hlast Hf).
  - do 3 eexists. split; [leaf_run|].
    intros _. split; [reflexivity | eexists; reflexivity].
Qed.
End RetryingHelpers.

Section RanFacts.
Import Py IO.
Context {OS : Type} {A : Type}.

(** A run has one result, one list of calls and one list of lines. *)
Lemma ran_unique (m : @IO OS A) st r evs lines r' evs' lines' :
  ran m st r evs lines -> ran m st r' evs' lines' ->
  r = r' /\ evs = evs' /\ lines = lines'.
Proof.
  intros (st1 & Hrun & Hc & Hs) (st2 & Hrun' & Hc' & Hs').
  rewrite Hrun in Hrun'. injection Hrun' as -> <-.
  rewrite Hc in Hc'. rewrite Hs in Hs'.
  apply app_inv_head in Hc', Hs'. auto.
Qed.
End RanFacts.



Example safe_request_gives_up :
  WebScraping.safe_request "http://example.org" None 10 2
    (Mem.start (Mem.mkMachine [] []
                  [Py.Raised (Py.OSError "Connection refused");
                   Py.Returned (IO.mkResponse 503 "busy")] true))
  = (Py.Returned None,
     IO.mkSt (Mem.mkMachine [] [] [] true)
             ["Error after 2 attempts: HTTP error"%string]
             [IO.Completed; IO.Failed (Py.OSError "Connection refused");
              IO.Completed; IO.Failed (Py.HTTPError "HTTP error")]).
Proof. reflexivity. Qed.

(** ** JSON: what is written is read back *)

Section StringFacts.
Lemma string_app_assoc (a b c : string) : ((a ++ b) ++ c = a ++ (b ++ c))%string.
Proof. induction a as [|x a IH]; cbn; [reflexivity | now rewrite IH]. Qed.

Lemma string_app_nil_r (a : string) : (a ++ "" = a)%string.
Proof. induction a as [|x a IH]; cbn; [reflexivity | now rewrite IH]. Qed.

Lemma string_length_app (a b : string) :
  String.length (a ++ b) = (String.length a + String.length b)%nat.
Proof. induction a as [|x a IH]; cbn; [reflexivity | now rewrite IH]. Qed.
End StringFacts.

Section JsonText.
Import Py Json.

(** *** White space *)

Lemma skip_ws_spaces n s : skip_ws (spaces n ++ s) = skip_ws s.
Proof. induction n as [|n IH]; cbn; [reflexivity | exact IH]. Qed.

Lemma skip_ws_newline_indent indent level s :
  skip_ws (newline_indent indent level ++ s) = skip_ws s.
Proof. unfold newline_indent. cbn. apply skip_ws_spaces. Qed.

Lemma skip_ws_keep c s : is_ws c = false -> skip_ws (String c s) = String c s.
Proof. cbn. now intros ->. Qed.

Lemma skip_ws_drop c s : is_ws c = true -> skip_ws (String c s) = skip_ws s.
Proof. cbn. now intros ->. Qed.

Lemma skip_ws_starts_value text s :
  starts_value text -> skip_ws (text ++ s) = (text ++ s)%string.
Proof. destruct text as [|c text]; cbn; [easy|]. now intros [-> _]. Qed.

Lemma starts_value_length text : starts_value text -> (1 <= String.length text)%nat.
Proof. destruct text; cbn; [easy | lia]. Qed.

(** *** Strings *)

Lemma scanstring_escape_char c tail :
  scanstring (escape_char c ++ tail)
  = rbind (scanstring tail) (fun r => Returned (String c (fst r), snd r)).
Proof.
  destruct c as [[] [] [] [] [] [] [] []]; reflexivity.
Qed.

Lemma scanstring_escape_string s rest :
  scanstring (escape_string s ++ String dquote rest) = Returned (s, rest).
Proof.
  induction s as [|c s IH]; [reflexivity|].
  cbn [escape_string]. rewrite string_app_assoc, scanstring_escape_char, IH.
  reflexivity.
Qed.

Lemma scan_once_string fuel s rest :
  scan_once (S fuel) (encode_basestring s ++ rest) = Returned (PStr s, rest).
Proof.
  unfold encode_basestring. cbn [append scan_once].
  replace (Ascii.eqb dquote dquote) with true by reflexivity.
  rewrite string_app_assoc. cbn [append].
  now rewrite scanstring_escape_string.
Qed.

(** *** Integers *)

Lemma ends_number_float_follows rest : ends_number rest -> float_follows rest = false.
Proof.
  destruct rest as [|c [|d rest]]; cbn; trivial.
  - now intros (_ & -> & -> & ->).
Qed.

Lemma digits_prefix_string_of_uint u rest :
  ends_number rest ->
  digits_prefix (DecimalString.NilEmpty.string_of_uint u ++ rest) = (u, rest).
Proof.
  intros Hrest. induction u as [|u IH|u IH|u IH|u IH|u IH|u IH|u IH|u IH|u IH|u IH];
    cbn [DecimalString.NilEmpty.string_of_uint append digits_prefix].
  1: { destruct rest as [|c rest]; [reflexivity|].
       cbn in *. now destruct Hrest as [-> _]. }
  all: match goal with
       | |- context [is_digit ?c] => change (is_digit c) with true
       end; cbn iota; now rewrite IH.
Qed.

(** The decimal digits of a number start with 0 for 0 alone. *)
Lemma to_uint_leading_zero n u :
  N.to_uint n = Decimal.D0 u -> n = 0%N /\ u = Decimal.Nil.
Proof.
  destruct n as [|p]; cbn.
  - intros H. injection H as <-. now split.
  - intros Hp. exfalso.
    assert (Hnorm : Decimal.unorm (Pos.to_uint p) = Pos.to_uint p).
    { rewrite <- DecimalPos.Unsigned.to_of, DecimalPos.Unsigned.of_to.
      reflexivity. }
    rewrite Hp, DecimalFacts.unorm_D0 in Hnorm.
    destruct (Decimal.nzhead u) eqn:Hz.
    1: { assert (Hzero : Decimal.unorm u = Decimal.zero)
           by now apply DecimalFacts.unorm_0.
         rewrite Hzero in Hnorm. injection Hnorm as <-.
         now apply (DecimalPos.Unsigned.to_uint_nonzero p). }
    all: rewrite DecimalFacts.unorm_nzhead in Hnorm by (rewrite Hz; discriminate);
      now apply (DecimalFacts.nzhead_nonzero u u).
Qed.

Lemma to_uint_nonnil n : N.to_uint n <> Decimal.Nil.
Proof.
  destruct n as [|p]; cbn; [discriminate|].
  apply DecimalPos.Unsigned.to_uint_nonnil.
Qed.

Lemma match_integer_digits n rest :
  ends_number rest ->
  match_integer (digits n ++ rest) = Some (n, rest).
Proof.
  intros Hrest. unfold digits.
  pose proof (digits_prefix_string_of_uint (N.to_uint n) rest Hrest) as Hp.
  pose proof (DecimalN.Unsigned.of_to n) as Hof.
  pose proof (to_uint_nonnil n) as Hnil.
  pose proof (to_uint_leading_zero n) as Hzero.
  destruct (N.to_uint n) as [|u|u|u|u|u|u|u|u|u|u];
    [ now contradiction Hnil
    | destruct (Hzero u eq_refl) as [-> ->]; reflexivity
    | .. ];
    cbn [DecimalString.NilEmpty.string_of_uint append] in *;
    unfold match_integer;
    match goal with
    | |- context [Ascii.eqb ?c "0"] => change (Ascii.eqb c "0") with false
    end;
    match goal with
    | |- context [is_digit ?c] => change (is_digit c) with true
    end;
    cbn iota; rewrite Hp; now rewrite Hof.
Qed.

(** The digits of a number start with a digit. *)
Lemma digits_first n :
  exists c s, digits n = String c s /\ is_digit c = true.
Proof.
  unfold digits. pose proof (to_uint_nonnil n) as Hnil.
  destruct (N.to_uint n); [now contradiction Hnil | ..];
    cbn [DecimalString.NilEmpty.string_of_uint]; do 2 eexists;
    (split; [reflexivity | reflexivity]).
Qed.

Lemma scan_number_int_repr z rest :
  ends_number rest ->
  scan_number (int_repr z ++ rest) = Returned (PInt z, rest).
Proof.
  intros Hrest. unfold int_repr.
  destruct (Z.ltb_spec z 0) as [Hneg|Hpos].
  - cbn [append]. unfold scan_number.
    change (Ascii.eqb "-" "-") with true. cbn iota.
    rewrite match_integer_digits by exact Hrest.
    rewrite ends_number_float_follows by exact Hrest.
    do 2 f_equal. f_equal. lia.
  - pose proof (match_integer_digits (Z.to_N z) rest Hrest) as Hm.
    destruct (digits_first (Z.to_N z)) as (c & s & Hd & Hc).
    rewrite Hd in *. cbn [append] in *. unfold scan_number.
    assert (Hminus : Ascii.eqb c "-" = false).
    { destruct (Ascii.eqb_spec c "-") as [->|]; [discriminate Hc | reflexivity]. }
    rewrite Hminus, Hm.
    rewrite ends_number_float_follows by exact Hrest.
    do 2 f_equal. f_equal. lia.
Qed.

(** A text that starts as a number is scanned as a number. *)
Lemma scan_once_number fuel c s :
  is_digit c || Ascii.eqb c "-" = true ->
  scan_once (S fuel) (String c s) = scan_number (String c s).
Proof.
  intros H.
  destruct c as [[] [] [] [] [] [] [] []];
    first [reflexivity | discriminate H].
Qed.

Lemma scan_once_int fuel z rest :
  ends_number rest ->
  scan_once (S fuel) (int_repr z ++ rest) = Returned (PInt z, rest).
Proof.
  intros Hrest. rewrite <- (scan_number_int_repr z rest Hrest).
  unfold int_repr. destruct (z <? 0).
  - cbn [append]. now apply scan_once_number.
  - destruct (digits_first (Z.to_N z)) as (c & s & -> & Hc).
    cbn [append]. apply scan_once_number. now rewrite Hc.
Qed.

Lemma int_repr_first z :
  exists c s, int_repr z = String c s /\ (is_digit c || Ascii.eqb c "-") = true.
Proof.
  unfold int_repr. destruct (z <? 0).
  - now exists "-"%char, (digits (Z.abs_N z)).
  - destruct (digits_first (Z.to_N z)) as (c & s & -> & Hc).
    exists c, s. now rewrite Hc.
Qed.

(** *** Lists and dicts *)

Lemma scan_once_array fuel tail :
  scan_once (S fuel) (String "[" tail)
  = match skip_ws tail with
    | String d rest' =>
        if Ascii.eqb d "]" then Returned (PList [], rest')
        else rbind (array_items fuel (String d rest')) (fun r =>
             Returned (PList (fst r), snd r))
    | EmptyString => Raised (expecting "value")
    end.
Proof. reflexivity. Qed.

Lemma scan_once_object fuel tail :
  scan_once (S fuel) (String "{" tail)
  = match skip_ws tail with
    | String d rest' =>
        if Ascii.eqb d "}" then Returned (PDict [], rest')
        else if Ascii.eqb d dquote then
          rbind (object_items fuel rest') (fun r =>
          Returned (dict_of_pairs (fst r), snd r))
        else Raised (expecting "property name enclosed in double quotes")
    | EmptyString =>
        Raised (expecting "property name enclosed in double quotes")
    end.
Proof. reflexivity. Qed.

Lemma array_items_S fuel s :
  array_items (S fuel) s
  = rbind (scan_once fuel s) (fun r =>
    match skip_ws (snd r) with
    | String d rest =>
        if Ascii.eqb d "]" then Returned ([fst r], rest)
        else if Ascii.eqb d "," then
          rbind (array_items fuel (skip_ws rest)) (fun r' =>
          Returned (fst r :: fst r', snd r'))
        else Raised (expecting "',' delimiter")
    | EmptyString => Raised (expecting "',' delimiter")
    end).
Proof. reflexivity. Qed.

Lemma object_items_S fuel s :
  object_items (S fuel) s
  = rbind (scanstring s) (fun k =>
    match skip_ws (snd k) with
    | String colon after =>
        if Ascii.eqb colon ":" then
          rbind (scan_once fuel (skip_ws after)) (fun r =>
          match skip_ws (snd r) with
          | String d rest =>
              if Ascii.eqb d "}" then Returned ([(fst k, fst r)], rest)
              else if Ascii.eqb d "," then
                match skip_ws rest with
                | String q rest' =>
                    if Ascii.eqb q dquote then
                      rbind (object_items fuel rest') (fun r' =>
                      Returned ((fst k, fst r) :: fst r', snd r'))
                    else Raised (expecting "property name enclosed in double quotes")
                | EmptyString =>
                    Raised (expecting "property name enclosed in double quotes")
                end
              else Raised (expecting "',' delimiter")
          | EmptyString => Raised (expecting "',' delimiter")
          end)
        else Raised (expecting "':' delimiter")
    | EmptyString => Raised (expecting "':' delimiter")
    end).
Proof. reflexivity. Qed.

Lemma map_result_Forall2 {A B : Type} (f : A -> result exn B) l ys :
  map_result f l = Returned ys -> Forall2 (fun x y => f x = Returned y) l ys.
Proof.
  revert ys. induction l as [|x l IH]; cbn; intros ys H.
  - injection H as <-. constructor.
  - destruct (f x) as [y|e] eqn:Hx; cbn in H; [|discriminate].
    destruct (map_result f l) as [ys'|e]; cbn in H; [|discriminate].
    injection H as <-. constructor; [exact Hx | now apply IH].
Qed.

Lemma join_cons2 sep t t' ts :
  join sep (t :: t' :: ts) = (t ++ sep ++ join sep (t' :: ts))%string.
Proof. reflexivity. Qed.

Lemma join_starts_value sep t ts :
  starts_value t -> starts_value (join sep (t :: ts)).
Proof.
  destruct ts as [|t' ts]; [trivial|]. rewrite join_cons2.
  destruct t; [easy | trivial].
Qed.

Lemma ends_number_newline_indent indent level s :
  ends_number (newline_indent indent level ++ s).
Proof. cbn. repeat split. Qed.

Lemma ends_number_comma s : ends_number (String "," s).
Proof. cbn. repeat split. Qed.

Lemma array_items_join indent level items texts :
  Forall2 reads_back items texts ->
  items <> [] ->
  forall fuel rest,
    (2 * String.length
           (join ("," ++ newline_indent indent (S level)) texts
            ++ newline_indent indent level ++ String "]" rest) + 2 <= fuel)%nat ->
    array_items fuel
      (join ("," ++ newline_indent indent (S level)) texts
       ++ newline_indent indent level ++ String "]" rest)
    = Returned (items, rest).
Proof.
  induction 1 as [|x t items texts Hx Hrest IH]; [easy|].
  intros _ fuel rest Hfuel.
  destruct fuel as [|fuel]; [lia|]. rewrite array_items_S.
  destruct Hx as [Hstart Hread].
  destruct Hrest as [|y t' items' texts' Hy Hrest'].
  - cbn [join].
    rewrite Hread; [|apply ends_number_newline_indent|cbn [join] in Hfuel; lia].
    cbn [rbind fst snd]. rewrite skip_ws_newline_indent. reflexivity.
  - rewrite join_cons2 in *. rewrite !string_app_assoc in *.
    cbn [append] in *.
    rewrite Hread; [|apply ends_number_comma|lia].
    cbn [rbind fst snd skip_ws]. change (is_ws ",") with false. cbn iota.
    change (Ascii.eqb "," "]") with false.
    change (Ascii.eqb "," ",") with true. cbn iota.
    rewrite skip_ws_newline_indent.
    rewrite skip_ws_starts_value
      by (apply join_starts_value; apply Hy).
    rewrite IH; [reflexivity | discriminate |].
    rewrite !string_length_app in *. cbn [String.length] in Hfuel.
    rewrite !string_length_app in Hfuel. lia.
Qed.

Lemma ends_number_closing c s :
  is_digit c = false -> Ascii.eqb c "." = false ->
  Ascii.eqb c "e" = false -> Ascii.eqb c "E" = false ->
  ends_number (String c s).
Proof. cbn. auto. Qed.

Lemma object_items_join indent level items members :
  Forall2 member_reads_back items members ->
  items <> [] ->
  forall fuel rest X,
    (join ("," ++ newline_indent indent (S level)) members
     ++ newline_indent indent level ++ String "}" rest)%string
    = String dquote X ->
    (2 * String.length X + 2 <= fuel)%nat ->
    object_items fuel X = Returned (str_pairs items, rest).
Proof.
  pose proof (skip_ws_newline_indent indent level) as Hnl.
  pose proof (skip_ws_newline_indent indent (S level)) as Hnl'.
  pose proof (ends_number_newline_indent indent level) as Hend.
  set (nl := newline_indent indent level) in *.
  set (nl' := newline_indent indent (S level)) in *.
  clearbody nl nl'.
  induction 1 as [|[kx vx] m items members Hx Hrest IH]; [easy|].
  intros _ fuel rest X HX Hfuel.
  destruct fuel as [|fuel]; [lia|]. rewrite object_items_S.
  destruct Hx as (k & t & Hk & -> & Hstart & Hread).
  cbn [fst snd] in Hk, Hread. subst kx.
  destruct Hrest as [|y m' items' members' Hy Hrest'].
  - cbn [join] in HX. unfold encode_basestring in HX.
    rewrite !string_app_assoc in HX. cbn [append] in HX.
    rewrite !string_app_assoc in HX. cbn [append] in HX.
    injection HX as <-.
    rewrite scanstring_escape_string. cbn [rbind fst snd].
    rewrite (skip_ws_keep ":") by reflexivity.
    change (Ascii.eqb ":" ":") with true. cbn iota.
    rewrite (skip_ws_drop " ") by reflexivity.
    rewrite skip_ws_starts_value by exact Hstart.
    rewrite Hread; [|apply Hend|].
    + cbn [rbind fst snd]. rewrite Hnl. reflexivity.
    + rewrite !string_length_app in *. cbn [String.length] in Hfuel.
      rewrite !string_length_app in Hfuel. lia.
  - rewrite join_cons2 in HX.
    destruct Hy as (k' & t' & Hk' & Hm' & Hy').
    assert (Hjoin : exists X',
               (join ("," ++ nl') (m' :: members')
                ++ nl ++ String "}" rest)%string
               = String dquote X').
    { subst m'. destruct members' as [|m'' members'']; cbn [join];
        unfold encode_basestring; cbn [append]; eexists; reflexivity. }
    destruct Hjoin as [X' HX'].
    specialize (IH ltac:(discriminate) fuel rest X' HX').
    assert (Hlen : (String.length X' <
                    String.length (join ("," ++ nl') (m' :: members')
                                   ++ nl ++ String "}" rest))%nat)
      by (rewrite HX'; cbn [String.length]; lia).
    clear Hm' Hy' Hrest'.
    remember (join ("," ++ nl') (m' :: members')) as J eqn:HJ. clear HJ.
    unfold encode_basestring in HX.
    rewrite !string_app_assoc in HX. cbn [append] in HX.
    rewrite !string_app_assoc in HX. cbn [append] in HX.
    injection HX as <-.
    rewrite scanstring_escape_string. cbn [rbind fst snd].
    rewrite (skip_ws_keep ":") by reflexivity.
    change (Ascii.eqb ":" ":") with true. cbn iota.
    rewrite (skip_ws_drop " ") by reflexivity.
    rewrite skip_ws_starts_value by exact Hstart.
    rewrite !string_length_app in Hfuel. cbn [String.length] in Hfuel.
    rewrite !string_length_app in Hfuel. cbn [String.length] in Hfuel.
    rewrite !string_length_app in Hfuel. cbn [String.length] in Hfuel.
    rewrite !string_length_app in Hlen. cbn [String.length] in Hlen.
    rewrite Hread; [|apply ends_number_comma|].
    + cbn [rbind fst snd]. rewrite (skip_ws_keep ",") by reflexivity.
      change (Ascii.eqb "," "}") with false.
      change (Ascii.eqb "," ",") with true. cbn iota.
      rewrite Hnl'. rewrite HX'.
      rewrite (skip_ws_keep dquote) by reflexivity.
      change (Ascii.eqb dquote dquote) with true. cbn iota.
      rewrite IH; [reflexivity | lia].
    + rewrite !string_length_app. cbn [String.length].
      rewrite !string_length_app. cbn [String.length]. lia.
Qed.

(** *** Dicts: the pairs read are the items written *)

Lemma dict_set_fresh items key v :
  ~ In key (map fst items) -> dict_set items key v = items ++ [(key, v)].
Proof.
  induction items as [|[k old] items IH]; cbn; intros Hfresh; [reflexivity|].
  destruct (String.eqb_spec k key) as [->|_]; [tauto|].
  rewrite IH by tauto. reflexivity.
Qed.

Lemma fold_dict_set_distinct pairs :
  forall acc,
    NoDup (map fst (acc ++ pairs)) ->
    fold_left (fun items (kv : string * value) => dict_set items (fst kv) (snd kv))
              pairs acc
    = acc ++ pairs.
Proof.
  induction pairs as [|[k v] pairs IH]; intros acc Hnd; cbn [fold_left fst snd].
  - now rewrite app_nil_r.
  - rewrite dict_set_fresh.
    + rewrite IH; rewrite <- app_assoc; [reflexivity | exact Hnd].
    + rewrite map_app in Hnd. cbn in Hnd.
      apply NoDup_remove_2 in Hnd. intros Hin. apply Hnd.
      apply in_or_app. now left.
Qed.

Lemma distinct_str_keys_pairs items :
  distinct_str_keys (map fst items) = true ->
  map (fun p : string * value => (PStr (fst p), snd p)) (str_pairs items) = items /\
  NoDup (map fst (str_pairs items)).
Proof.
  induction items as [|[k v] items IH]; cbn [map fst snd distinct_str_keys str_pairs].
  - intros _. split; [reflexivity | constructor].
  - destruct k as [| | |s| | |]; try discriminate.
    intros H. apply andb_prop in H as [Hfresh Hrest].
    destruct (IH Hrest) as [Hitems Hnd].
    fold (str_pairs items). split; [now rewrite Hitems|].
    constructor; [|exact Hnd].
    intros Hin. apply negb_true_iff in Hfresh.
    apply not_true_iff_false in Hfresh. apply Hfresh.
    apply existsb_exists. exists (PStr s). split; [|apply String.eqb_refl].
    rewrite <- Hitems, map_map. cbn [fst].
    apply in_map_iff in Hin as ([k' v'] & Hk & Hin). cbn in Hk. subst k'.
    apply in_map_iff. exists (s, v'). now split.
Qed.

Lemma dict_of_pairs_str_pairs items :
  distinct_str_keys (map fst items) = true ->
  dict_of_pairs (str_pairs items) = PDict items.
Proof.
  intros H. destruct (distinct_str_keys_pairs items H) as [Hitems Hnd].
  unfold dict_of_pairs. rewrite fold_dict_set_distinct by exact Hnd.
  cbn [app]. now rewrite Hitems.
Qed.

(** *** Every native value is read back from its text *)

Lemma starts_value_encode_basestring s t : starts_value (encode_basestring s ++ t).
Proof. cbn. now split. Qed.

Ltac lengths_in H :=
  repeat (progress (rewrite ?string_length_app in H;
                    cbn [String.length append] in H)).

Lemma encode_reads_back :
  forall v, json_native v = true ->
  forall indent level text,
    encode indent level v = Returned text -> reads_back v text.
Proof.
  induction v as [|b|z|s|items IH|items IH|items IH] using value_ind_items;
    intros Hnative indent level text Henc.
  - injection Henc as <-. split; [now cbn|].
    intros [|fuel] rest _ Hfuel; [lia | reflexivity].
  - destruct b; injection Henc as <-; (split; [now cbn|]);
      intros [|fuel] rest _ Hfuel; first [lia | reflexivity].
  - cbn in Henc. injection Henc as <-.
    destruct (int_repr_first z) as (c & s & Hz & Hc). split.
    + rewrite Hz. cbn.
      destruct c as [[] [] [] [] [] [] [] []];
        first [discriminate Hc | now split].
    + intros [|fuel] rest Hrest Hfuel; [lia|].
      now apply scan_once_int.
  - cbn in Henc. injection Henc as <-. split.
    + apply (starts_value_encode_basestring s "").
    + intros [|fuel] rest _ Hfuel; [lia|]. apply scan_once_string.
  - cbn [encode] in Henc. cbn [json_native] in Hnative.
    destruct (map_result (encode indent (S level)) items) as [members|e] eqn:Hm;
      cbn [rbind] in Henc; [|discriminate].
    injection Henc as <-.
    apply map_result_Forall2 in Hm.
    assert (Hall : Forall2 reads_back items members).
    { clear - IH Hnative Hm. induction Hm as [|x t items members Hx Hm IHm].
      - constructor.
      - cbn [forallb] in Hnative. apply andb_prop in Hnative as [Hx' Hrest].
        inversion IH as [|? ? HPx HPrest]; subst.
        constructor; [eapply HPx; eassumption | now apply IHm]. }
    destruct Hall as [|x t items members Hx Hrest].
    + split; [now cbn|].
      intros [|fuel] rest _ Hfuel; [lia | reflexivity].
    + unfold encode_container. split; [now cbn|].
      intros [|fuel] rest _ Hfuel; [lia|].
      rewrite ?string_app_assoc. cbn [append].
      rewrite scan_once_array, skip_ws_newline_indent.
      rewrite ?string_app_assoc.
      assert (Hsv : starts_value
                      (join ("," ++ newline_indent indent (S level)) (t :: members)))
        by (apply join_starts_value, Hx).
      rewrite skip_ws_starts_value by exact Hsv.
      pose proof (array_items_join indent level (x :: items) (t :: members)
                    (Forall2_cons _ _ Hx Hrest) ltac:(discriminate) fuel rest)
        as Harr.
      cbn [append] in Harr.
      lengths_in Hfuel.
      lengths_in Harr.
      specialize (Harr ltac:(lia)).
      cbn [append] in Hsv, Harr |- *.
      destruct (join (String "," (newline_indent indent (S level))) (t :: members))
        as [|d J]; [easy|].
      cbn [append] in *. destruct Hsv as [_ ->].
      now rewrite Harr.
  - discriminate Hnative.
  - cbn [encode] in Henc. cbn [json_native] in Hnative.
    apply andb_prop in Hnative as [Hkeys Hvals].
    destruct (map_result _ items) as [members|e] eqn:Hm;
      cbn [rbind] in Henc; [|discriminate].
    injection Henc as <-.
    apply map_result_Forall2 in Hm.
    assert (Hall : Forall2 member_reads_back items members).
    { clear - IH Hkeys Hvals Hm.
      induction Hm as [|[k x] m items members Hx Hm IHm].
      - constructor.
      - cbn [forallb] in Hvals. apply andb_prop in Hvals as [Hx' Hrest].
        cbn [map fst distinct_str_keys] in Hkeys.
        destruct k as [| | |key| | |]; try discriminate.
        apply andb_prop in Hkeys as [_ Hkeys].
        inversion IH as [|? ? [_ HPx] HPrest]; subst. cbn [snd] in HPx.
        cbn [key_text rbind] in Hx.
        destruct (encode indent (S level) x) as [t|e] eqn:Ht;
          cbn [rbind] in Hx; [|discriminate].
        injection Hx as <-.
        constructor; [|now apply IHm].
        exists key, t. cbn [fst snd]. split; [reflexivity|].
        split; [reflexivity|]. eapply HPx; eassumption. }
    rewrite <- (dict_of_pairs_str_pairs items Hkeys).
    destruct Hall as [|kv m items members Hkv Hrest].
    + split; [now cbn|].
      intros [|fuel] rest _ Hfuel; [lia | reflexivity].
    + unfold encode_container. split; [now cbn|].
      intros [|fuel] rest _ Hfuel; [lia|].
      rewrite ?string_app_assoc. cbn [append].
      rewrite scan_once_object, skip_ws_newline_indent.
      rewrite ?string_app_assoc.
      assert (Hjoin : exists X,
                 (join ("," ++ newline_indent indent (S level)) (m :: members)
                  ++ newline_indent indent level ++ String "}" rest)%string
                 = String dquote X).
      { destruct Hkv as (k & t & _ & -> & _).
        destruct members as [|m' members']; cbn [join];
          unfold encode_basestring; cbn [append]; eexists; reflexivity. }
      destruct Hjoin as [X HX].
      pose proof (object_items_join indent level (kv :: items) (m :: members)
                    (Forall2_cons _ _ Hkv Hrest) ltac:(discriminate)
                    fuel rest X HX) as Hobj.
      lengths_in Hfuel.
      assert (Hlen : String.length
                       (join ("," ++ newline_indent indent (S level)) (m :: members)
                        ++ newline_indent indent level ++ String "}" rest)
                     = S (String.length X)) by now rewrite HX.
      lengths_in Hlen.
      specialize (Hobj ltac:(lia)).
      cbn [append] in HX. rewrite HX.
      rewrite (skip_ws_keep dquote) by reflexivity.
      change (Ascii.eqb dquote "}") with false.
      change (Ascii.eqb dquote dquote) with true. cbn iota.
      now rewrite Hobj.
Qed.

(** What [json.dumps] writes for a native value, [json.loads] reads back. *)
Lemma loads_dumps v indent text :
  json_native v = true ->
  dumps v indent = Returned text ->
  loads text = Returned v.
Proof.
  intros Hnative Hdumps.
  destruct (encode_reads_back v Hnative indent 0%nat text Hdumps) as [Hstart Hread].
  unfold loads.
  rewrite <- (string_app_nil_r text) at 2.
  rewrite skip_ws_starts_value by exact Hstart.
  rewrite Hread; [reflexivity | exact I |].
  rewrite string_app_nil_r. lia.
Qed.
End JsonText.

(** ** [write_json] and [read_json] *)

Section JsonFiles.
Import Py IO FileOps.
Context {OS : Type} `{System OS}.

Lemma write_json_true data p indent (st st' : St OS) :
  write_json data p indent st = (Returned true, st') ->
  exists text o o1,
    Json.dumps data indent = Returned text /\
    sys_open_write p o = (Returned tt, o1) /\
    sys_write_text p text o1 = (Returned tt, os st').
Proof.
  unfold write_json, ensure_directory.
  unfold try_except, bind, lib, call, print, ret. cbn beta iota.
  cbn [os stdout calls].
  repeat step_io; intros Hrun; try discriminate Hrun.
  injection Hrun as <-. cbn [os].
  repeat match goal with u : unit |- _ => destruct u end.
  eauto 10.
Qed.

Lemma read_json_reads text v p (st : St OS) :
  sys_read_text p (os st) = (Returned text, os st) ->
  Json.loads text = Returned v ->
  exists st', read_json p st = (Returned (Some v), st').
Proof.
  intros Hread Hloads. unfold read_json.
  unfold try_except, bind, lib, call, print, ret. cbn beta iota.
  rewrite Hread. cbn beta iota. cbn [os stdout calls].
  rewrite Hloads. eauto.
Qed.
End JsonFiles.


Lemma mem_lookup_store p text fs : Mem.lookup p (Mem.store p text fs) = Some text.
Proof.
  induction fs as [|[q old] fs IH]; cbn.
  - now rewrite String.eqb_refl.
  - destruct (String.eqb_spec q p) as [->|Hne]; cbn.
    + now rewrite String.eqb_refl.
    + apply String.eqb_neq in Hne. now rewrite Hne.
Qed.

Lemma mem_reads_what_was_written : @reads_what_was_written Mem.Machine Mem.system.
Proof.
  intros p text o o1 o2 _ Hw. cbn in *. unfold Mem.write_text in Hw.
  injection Hw as <-. unfold Mem.read_text. cbn.
  now rewrite mem_lookup_store.
Qed.



Example json_round_trip_tuple :
  fst (FileOps.read_json "data.json"
         (snd (FileOps.write_json
                 (Json.PDict [(Json.PStr "t", Json.PTuple [Json.PInt 1; Json.PInt 2])])
                 "data.json" 2 (Mem.start Mem.empty))))
  = Py.Returned
      (Some (Json.PDict [(Json.PStr "t", Json.PList [Json.PInt 1; Json.PInt 2])])).
Proof. vm_compute. reflexivity. Qed.

Example read_json_nonexistent :
  fst (FileOps.read_json "nonexistent.json" (Mem.start Mem.empty))
  = Py.Returned None.
Proof. reflexivity. Qed.

Example read_json_invalid :
  FileOps.read_json "invalid.json"
    (Mem.start (Mem.mkMachine [("invalid.json", "{ invalid json content")]
                              [] [] true))
  = (Py.Returned None,
     IO.mkSt (Mem.mkMachine [("invalid.json", "{ invalid json content")]
                            [] [] true)
       ["Error reading JSON file invalid.json: Expecting property name enclosed in double quotes"%string]
       [IO.Completed;
        IO.Failed (Py.JSONDecodeError
                     "Expecting property name enclosed in double quotes")]).
Proof. vm_compute. reflexivity. Qed.

Section RemoveDuplicatesFacts.
Import UtilitiesRest.
Context {A : Type}.
Variable eqb : A -> A -> bool.

Lemma in_set_app x (s s' : list A) :
  in_set eqb x (s ++ s') = in_set eqb x s || in_set eqb x s'.
Proof. apply existsb_app. Qed.

(** Only the members of [seen] matter. *)
Lemma keep_unseen_ext lst :
  forall s s',
    (forall x, in_set eqb x s = in_set eqb x s') ->
    keep_unseen eqb lst s = keep_unseen eqb lst s'.
Proof.
  induction lst as [|x rest IH]; intros s s' Hs; cbn; [reflexivity|].
  rewrite <- Hs. destruct (in_set eqb x s); [now apply IH|].
  f_equal. apply IH. intros y. rewrite !in_set_app, Hs. reflexivity.
Qed.

Lemma keep_unseen_app l1 :
  forall l2 seen,
    keep_unseen eqb (l1 ++ l2) seen
    = keep_unseen eqb l1 seen ++ keep_unseen eqb l2 (seen ++ keep_unseen eqb l1 seen).
Proof.
  induction l1 as [|x rest IH]; intros l2 seen; cbn.
  - now rewrite app_nil_r.
  - destruct (in_set eqb x seen) eqn:Hx.
    + apply IH.
    + cbn. f_equal. rewrite IH. f_equal.
      now rewrite <- app_assoc.
Qed.

Hypothesis eqb_eq : forall x y, eqb x y = true <-> x = y.

Lemma in_set_In x seen : in_set eqb x seen = true <-> In x seen.
Proof.
  unfold in_set. rewrite existsb_exists. split.
  - intros [y [Hy Heq]]. apply eqb_eq in Heq. now subst.
  - intros Hin. exists x. split; [exact Hin | now apply eqb_eq].
Qed.

Lemma in_set_false x seen : in_set eqb x seen = false <-> ~ In x seen.
Proof.
  rewrite <- in_set_In. destruct (in_set eqb x seen); split; intros; easy.
Qed.

Lemma keep_unseen_In lst :
  forall seen x,
    In x (keep_unseen eqb lst seen) <-> In x lst /\ ~ In x seen.
Proof.
  induction lst as [|y rest IH]; intros seen x; cbn; [tauto|].
  destruct (in_set eqb y seen) eqn:Hy.
  - apply in_set_In in Hy. rewrite IH. split.
    + tauto.
    + intros [[->|Hin] Hn]; tauto.
  - apply in_set_false in Hy. cbn. rewrite IH, in_app_iff. cbn. split.
    + intros [->|[Hin Hn]]; tauto.
    + intros [[->|Hin] Hn]; [tauto|].
      destruct (eqb y x) eqn:Hyx; [apply eqb_eq in Hyx; tauto|].
      right. split; [exact Hin|]. intros [H|[H|[]]]; [tauto|].
      apply eqb_eq in H. congruence.
Qed.

Lemma keep_unseen_NoDup lst : forall seen, NoDup (keep_unseen eqb lst seen).
Proof.
  induction lst as [|y rest IH]; intros seen; cbn; [constructor|].
  destruct (in_set eqb y seen); [apply IH|].
  constructor; [|apply IH].
  rewrite keep_unseen_In, in_app_iff. cbn. tauto.
Qed.

Lemma keep_unseen_filter lst :
  forall s1 s2,
    keep_unseen eqb lst (s1 ++ s2)
    = filter (fun x => negb (in_set eqb x s1)) (keep_unseen eqb lst s2).
Proof.
  induction lst as [|x rest IH]; intros s1 s2; cbn; [reflexivity|].
  rewrite in_set_app.
  destruct (in_set eqb x s2) eqn:H2.
  - rewrite orb_true_r. apply IH.
  - rewrite orb_false_r. cbn. destruct (in_set eqb x s1) eqn:H1; cbn.
    + rewrite <- IH. apply keep_unseen_ext. intros y.
      rewrite !in_set_app. cbn. rewrite orb_false_r.
      destruct (eqb x y) eqn:Hxy; [|now rewrite orb_false_r].
      apply eqb_eq in Hxy. subst. rewrite H1. reflexivity.
    + f_equal. rewrite <- IH. now rewrite app_assoc.
Qed.

Lemma keep_unseen_fixed lst :
  forall seen,
    NoDup lst -> (forall x, In x lst -> ~ In x seen) ->
    keep_unseen eqb lst seen = lst.
Proof.
  induction lst as [|x rest IH]; intros seen Hnd Hseen; cbn; [reflexivity|].
  inversion Hnd as [|? ? Hx Hrest]; subst.
  destruct (in_set eqb x seen) eqn:Hin.
  - apply in_set_In in Hin. exfalso. apply (Hseen x); [now left | exact Hin].
  - f_equal. apply IH; [exact Hrest|].
    intros y Hy. rewrite in_app_iff. cbn. intros [H|[->|[]]].
    + apply (Hseen y); [now right | exact H].
    + contradiction.
Qed.
End RemoveDuplicatesFacts.

(** X1 (remove_duplicates, order kept): the result has no element twice and
    has the elements of the list, no more and no less. *)
Theorem remove_duplicates_nodup_members (A : Type) (eqb : A -> A -> bool)
    (set_order : list A -> list A) (lst : list A) :
  (forall x y, eqb x y = true <-> x = y) ->
  NoDup (UtilitiesRest.remove_duplicates eqb set_order lst true) /\
  forall x, In x (UtilitiesRest.remove_duplicates eqb set_order lst true) <-> In x lst.
Proof.
  intros Heq. unfold UtilitiesRest.remove_duplicates. split.
  - apply keep_unseen_NoDup, Heq.
  - intros x. rewrite (keep_unseen_In eqb Heq). cbn. tauto.
Qed.

Lemma remove_duplicates_nodup_members_witness :
  (forall x y, Z.eqb x y = true <-> x = y) /\
  NoDup (UtilitiesRest.remove_duplicates Z.eqb (fun l => l) [1; 2; 2; 3; 1; 4] true) /\
  forall x, In x (UtilitiesRest.remove_duplicates Z.eqb (fun l => l) [1; 2; 2; 3; 1; 4] true)
            <-> In x [1; 2; 2; 3; 1; 4].
Proof.
  split; [exact Z.eqb_eq|].
  apply (remove_duplicates_nodup_members Z Z.eqb (fun l => l) [1; 2; 2; 3; 1; 4] Z.eqb_eq).
Defined.

(** X2 (remove_duplicates, order kept): the elements stay in the order of
    their first occurrence.  The result for a list followed by another is
    the result for the first, followed by the result for the second
    without the elements of the first. *)
Theorem remove_duplicates_app (A : Type) (eqb : A -> A -> bool)
    (set_order : list A -> list A) (l1 l2 : list A) :
  (forall x y, eqb x y = true <-> x = y) ->
  UtilitiesRest.remove_duplicates eqb set_order (l1 ++ l2) true
  = UtilitiesRest.remove_duplicates eqb set_order l1 true
    ++ filter (fun x => negb (UtilitiesRest.in_set eqb x l1))
              (UtilitiesRest.remove_duplicates eqb set_order l2 true).
Proof.
  intros Heq. unfold UtilitiesRest.remove_duplicates.
  rewrite keep_unseen_app. f_equal. cbn [app].
  rewrite <- (keep_unseen_filter eqb Heq l2 l1 []).
  apply keep_unseen_ext. intros x.
  rewrite in_set_app. cbn. rewrite orb_false_r.
  destruct (UtilitiesRest.in_set eqb x l1) eqn:H1.
  - apply (in_set_In eqb Heq). apply (keep_unseen_In eqb Heq).
    apply (in_set_In eqb Heq) in H1. cbn. tauto.
  - apply (in_set_false eqb Heq). apply (in_set_false eqb Heq) in H1.
    rewrite (keep_unseen_In eqb Heq). tauto.
Qed.

Lemma remove_duplicates_app_witness :
  (forall x y, Z.eqb x y = true <-> x = y) /\
  UtilitiesRest.remove_duplicates Z.eqb (fun l => l) ([1; 2; 2] ++ [3; 1; 4]) true
  = UtilitiesRest.remove_duplicates Z.eqb (fun l => l) [1; 2; 2] true
    ++ filter (fun x => negb (UtilitiesRest.in_set Z.eqb x [1; 2; 2]))
              (UtilitiesRest.remove_duplicates Z.eqb (fun l => l) [3; 1; 4] true).
Proof.
  split; [exact Z.eqb_eq|].
  apply (remove_duplicates_app Z Z.eqb (fun l => l) [1; 2; 2] [3; 1; 4] Z.eqb_eq).
Defined.

(** X3 (remove_duplicates, order kept): a list without duplicates comes back
    as it is, and removing the duplicates a second time changes nothing. *)
Theorem remove_duplicates_idempotent (A : Type) (eqb : A -> A -> bool)
    (set_order : list A -> list A) (lst : list A) :
  (forall x y, eqb x y = true <-> x = y) ->
  (NoDup lst -> UtilitiesRest.remove_duplicates eqb set_order lst true = lst) /\
  UtilitiesRest.remove_duplicates eqb set_order
    (UtilitiesRest.remove_duplicates eqb set_order lst true) true
  = UtilitiesRest.remove_duplicates eqb set_order lst true.
Proof.
  intros Heq. unfold UtilitiesRest.remove_duplicates. split.
  - intros Hnd. apply (keep_unseen_fixed eqb Heq); [exact Hnd | now intros x _ []].
  - apply (keep_unseen_fixed eqb Heq); [apply keep_unseen_NoDup, Heq | now intros x _ []].
Qed.

Lemma remove_duplicates_idempotent_witness :
  (forall x y, Z.eqb x y = true <-> x = y) /\
  (NoDup [1; 2; 2; 3; 1; 4] ->
   UtilitiesRest.remove_duplicates Z.eqb (fun l => l) [1; 2; 2; 3; 1; 4] true
   = [1; 2; 2; 3; 1; 4]) /\
  UtilitiesRest.remove_duplicates Z.eqb (fun l => l)
    (UtilitiesRest.remove_duplicates Z.eqb (fun l => l) [1; 2; 2; 3; 1; 4] true) true
  = UtilitiesRest.remove_duplicates Z.eqb (fun l => l) [1; 2; 2; 3; 1; 4] true.
Proof.
  split; [exact Z.eqb_eq|].
  apply (remove_duplicates_idempotent Z Z.eqb (fun l => l) [1; 2; 2; 3; 1; 4] Z.eqb_eq).
Defined.

(** The test test_remove_duplicates_preserve_order of tests/test_utilities.py. *)
Example remove_duplicates_preserve_order :
  UtilitiesRest.remove_duplicates Z.eqb (fun l => l) [1; 2; 2; 3; 1; 4] true
  = [1; 2; 3; 4].
Proof. reflexivity. Qed.

(** ** More on [chunk_list], [retry_operation] and [clean_filename] *)

Section ChunkIndex.
Context {A : Type}.

Lemma nth_skipn_firstn (l : list A) (a b j : nat) (d : A) :
  (a + j < b)%nat ->
  nth j (skipn a (firstn b l)) d = nth (a + j) l d.
Proof.
  revert a b j. induction l as [|x l IH]; intros a b j Hj.
  - rewrite firstn_nil, skipn_nil. generalize (a + j)%nat. intros n. now destruct j, n.
  - destruct b as [|b]; [lia|]. cbn [firstn].
    destruct a as [|a]; cbn [skipn Nat.add].
    + destruct j as [|j]; [reflexivity|]. cbn [nth].
      specialize (IH 0%nat b j ltac:(lia)). cbn [skipn Nat.add] in IH.
      apply IH.
    + cbn [nth]. apply IH. lia.
Qed.
End ChunkIndex.

(** X4 (chunk_list, a chunk size that is not positive): a chunk size of 0
    raises ValueError, and a negative chunk size returns the empty list,
    whatever the list holds. *)
Theorem chunk_list_nonpositive (A : Type) (lst : list A) (chunk_size : Z) :
  (chunk_size = 0 ->
   Utilities.chunk_list lst chunk_size
   = Py.Raised (Py.ValueError "range() arg 3 must not be zero")) /\
  (chunk_size < 0 -> Utilities.chunk_list lst chunk_size = Py.Returned []).
Proof.
  unfold Utilities.chunk_list, Py.range, Py.range_len. split.
  - intros ->. reflexivity.
  - intros Hneg.
    destruct (Z.eqb_spec chunk_size 0) as [?|_]; [lia|].
    destruct (Z.ltb_spec 0 chunk_size) as [?|_]; [lia|].
    destruct (Z.ltb_spec (Z.of_nat (length lst)) 0) as [?|_]; [lia|].
    reflexivity.
Qed.

(** X5 (chunk_list, a chunk size of at least 1): the number of chunks is the
    length of the list divided by the chunk size, rounded up, and element
    [j] of chunk [k] is element [k * chunk_size + j] of the list. *)
Theorem chunk_list_index (A : Type) (lst : list A) (chunk_size : Z) :
  1 <= chunk_size ->
  exists chunks : list (list A),
    Utilities.chunk_list lst chunk_size = Py.Returned chunks /\
    Z.of_nat (length chunks)
    = (Z.of_nat (length lst) + chunk_size - 1) / chunk_size /\
    forall (k j : nat) (d : A),
      (j < Z.to_nat chunk_size)%nat ->
      (k * Z.to_nat chunk_size + j < length lst)%nat ->
      nth j (nth k chunks []) d = nth (k * Z.to_nat chunk_size + j) lst d.
Proof.
  intros Hs.
  pose proof (range_len_chunks (Z.of_nat (length lst)) chunk_size
                ltac:(lia) Hs) as Hn. cbn zeta in Hn.
  destruct Hn as (Hn0 & Hcover & Hlast & Hsome).
  rewrite chunk_list_unfold by exact Hs.
  eexists. split; [reflexivity|]. split.
  - rewrite length_map, length_seq, Z2Nat.id by exact Hn0.
    set (n := Py.range_len 0 (Z.of_nat (length lst)) chunk_size) in *.
    assert (Hr : 0 <= Z.of_nat (length lst) + chunk_size - 1 - chunk_size * n < chunk_size).
    { destruct (Z.eq_dec n 0) as [Hz|Hnz].
      - rewrite Hz in *. lia.
      - specialize (Hlast ltac:(lia)). nia. }
    apply (Z.div_unique_pos _ _ _ _ Hr). lia.
  - intros k j d Hj Hkj.
    remember (Z.to_nat (Py.range_len 0 (Z.of_nat (length lst)) chunk_size)) as n eqn:En.
    remember (Z.to_nat chunk_size) as s eqn:Es.
    assert (Hk : (k < n)%nat).
    { assert (Z.of_nat (length lst) <= Z.of_nat n * Z.of_nat s) by lia.
      apply Nat2Z.inj_lt. nia. }
    rewrite (nth_indep _ [] (chunk_at lst s 0%nat))
      by (rewrite length_map, length_seq; exact Hk).
    rewrite (map_nth (chunk_at lst s)), seq_nth by exact Hk.
    cbn [Nat.add]. unfold chunk_at. apply nth_skipn_firstn. lia.
Qed.

Lemma chunk_list_index_witness :
  1 <= 2 /\
  exists chunks : list (list Z),
    Utilities.chunk_list [1; 2; 3; 4; 5] 2 = Py.Returned chunks /\
    Z.of_nat (length chunks) = (Z.of_nat (length [1; 2; 3; 4; 5]) + 2 - 1) / 2 /\
    forall (k j : nat) (d : Z),
      (j < Z.to_nat 2)%nat ->
      (k * Z.to_nat 2 + j < length [1; 2; 3; 4; 5])%nat ->
      nth j (nth k chunks []) d = nth (k * Z.to_nat 2 + j) [1; 2; 3; 4; 5] d.
Proof.
  split; [lia|]. apply (chunk_list_index Z [1; 2; 3; 4; 5] 2). lia.
Defined.

Section RetryMore.
Import Py Utilities.
Context {A E num : Type}.
Variable mul : num -> num -> num.
Variable func : nat -> result E A.
Variable backoff : num.

(** With attempts left, the loop does not fall off its end. *)
Lemma retry_loop_not_none (m : nat) :
  forall (j calls : nat) delay slept,
    fst (retry_loop mul func (map Z.of_nat (seq j (S m))) (Z.of_nat (j + S m))
                    backoff calls delay slept)
    <> Returned None.
Proof.
  induction m as [|m IH]; intros j calls delay slept.
  - cbn [seq map retry_loop]. destruct (func calls); [discriminate|].
    destruct (Z.ltb_spec (Z.of_nat j) (Z.of_nat (j + 1) - 1)) as [?|_]; [lia|].
    discriminate.
  - change (seq j (S (S m))) with (j :: seq (S j) (S m)).
    rewrite map_cons, retry_loop_cons. destruct (func calls); [discriminate|].
    destruct (Z.ltb_spec (Z.of_nat j) (Z.of_nat (j + S (S m)) - 1)) as [_|?]; [|lia].
    replace (j + S (S m))%nat with (S j + S m)%nat by lia. apply IH.
Qed.

(** The first call that returns ends the loop, after one sleep for each
    call that raised before it. *)
Lemma retry_loop_first_success (e : nat -> E) (a : A) (n : nat) (k : nat) :
  forall (j : nat) delay slept,
    (j + k < n)%nat ->
    (forall i, (j <= i < j + k)%nat -> func i = Raised (e i)) ->
    func (j + k)%nat = Returned a ->
    retry_loop mul func (map Z.of_nat (seq j (n - j))) (Z.of_nat n)
               backoff j delay slept
    = (Returned (Some a), slept ++ map (backed_off mul delay backoff) (seq 0 k)).
Proof.
  induction k as [|k IH]; intros j delay slept Hlt Hraise Hret.
  - replace (n - j)%nat with (S (n - S j)) by lia.
    cbn [seq map]. rewrite retry_loop_cons.
    rewrite Nat.add_0_r in Hret. rewrite Hret. now rewrite app_nil_r.
  - replace (n - j)%nat with (S (n - S j)) by lia.
    cbn [seq map]. rewrite retry_loop_cons.
    rewrite Hraise by lia.
    destruct (Z.ltb_spec (Z.of_nat j) (Z.of_nat n - 1)) as [_|?]; [|lia].
    rewrite (IH (S j)).
    + rewrite <- app_assoc. cbn [app]. now rewrite backed_off_cons.
    + lia.
    + intros i Hi. apply Hraise. lia.
    + rewrite <- Hret. f_equal. lia.
Qed.
End RetryMore.




Section CleanFilenameMore.
Import Py Utilities.

Lemma re_sub_invalid_valid_replacement replacement s :
  string_forallb is_valid_char replacement = true ->
  string_forallb is_valid_char (re_sub_invalid replacement s) = true.
Proof.
  intros Hr. induction s as [|c s IH]; cbn [re_sub_invalid]; [reflexivity|].
  destruct (is_invalid_char c) eqn:Hc.
  - now rewrite string_forallb_app, Hr, IH.
  - cbn [string_forallb]. unfold is_valid_char at 1. now rewrite Hc.
Qed.
End CleanFilenameMore.

(** X8 (clean_filename): with a replacement that holds no invalid character
    (such as the default), the result holds no invalid character, and it
    neither starts nor ends with a dot or a space. *)
Theorem clean_filename_valid (filename replacement : string) :
  string_forallb is_valid_char replacement = true ->
  string_forallb is_valid_char (Utilities.clean_filename filename replacement) = true /\
  (forall c rest,
     Utilities.clean_filename filename replacement = String c rest ->
     Py.char_in c ". " = false) /\
  (forall k c,
     Utilities.clean_filename filename replacement = (k ++ String c EmptyString)%string ->
     Py.char_in c ". " = false).
Proof.
  intros Hr. unfold Utilities.clean_filename.
  set (cleaned := Py.strip_chars ". " (Utilities.re_sub_invalid replacement filename)).
  assert (Hvalid : string_forallb is_valid_char cleaned = true)
    by (unfold cleaned, Py.strip_chars;
        apply strip_by_forallb, re_sub_invalid_valid_replacement; exact Hr).
  assert (Hhead : head_kept (fun c => Py.char_in c ". ") cleaned)
    by (unfold cleaned, Py.strip_chars, Py.strip_by;
        apply rstrip_by_head_kept, lstrip_by_head_kept).
  destruct (String.eqb_spec cleaned ""%string) as [_|Hne].
  - split; [reflexivity|]. split.
    + intros c rest H. injection H as <- _. reflexivity.
    + intros k c H.
      assert (Hc : c = "e"%char).
      { repeat (destruct k as [|? k]; [discriminate H|injection H as _ H]).
        destruct k; [now injection H as <-|].
        injection H as _ H. destruct k; discriminate. }
      rewrite Hc. reflexivity.
  - split; [exact Hvalid|]. split.
    + intros c rest H. rewrite H in Hhead. exact Hhead.
    + intros k c H.
      apply (rstrip_by_last_kept (fun c => Py.char_in c ". ") _ k c H).
Qed.

Lemma clean_filename_valid_witness :
  string_forallb is_valid_char Utilities.default_replacement = true /\
  string_forallb is_valid_char
    (Utilities.clean_filename " a<b>.txt. " Utilities.default_replacement) = true.
Proof.
  split; [reflexivity|].
  apply (clean_filename_valid " a<b>.txt. " Utilities.default_replacement).
  reflexivity.
Defined.

(** ** [validate_email]: what the pattern accepts *)

Section Patterns.
Import Py Json UtilitiesRest.

Lemma re_one_spec cls k s :
  re_one cls k s = true <->
  exists c r, s = String c r /\ cls c = true /\ k r = true.
Proof.
  destruct s as [|c r]; cbn.
  - split; [discriminate | now intros (c & r & H & _)].
  - rewrite andb_true_iff. split.
    + intros [Hc Hk]. now exists c, r.
    + intros (c' & r' & H & Hc & Hk). injection H as -> ->. now split.
Qed.

Lemma re_star_spec cls k s :
  re_star cls k s = true <->
  exists p r, s = (p ++ r)%string /\ string_forallb cls p = true /\ k r = true.
Proof.
  induction s as [|c s IH]; cbn [re_star].
  - split.
    + intros Hk. now exists EmptyString, EmptyString.
    + intros (p & r & H & _ & Hk). destruct p; [|discriminate].
      cbn in H. now subst r.
  - rewrite orb_true_iff, andb_true_iff, IH. split.
    + intros [[Hc (p & r & -> & Hp & Hk)]|Hk].
      * exists (String c p), r. cbn. now rewrite Hc, Hp.
      * now exists EmptyString, (String c s).
    + intros (p & r & H & Hp & Hk). destruct p as [|d p].
      * right. cbn in H. now subst r.
      * left. cbn in H, Hp. injection H as -> ->.
        apply andb_prop in Hp as [Hc Hp]. split; [exact Hc|]. now exists p, r.
Qed.

Lemma re_plus_spec cls k s :
  re_plus cls k s = true <->
  exists p r, s = (p ++ r)%string /\ p <> EmptyString /\
              string_forallb cls p = true /\ k r = true.
Proof.
  unfold re_plus. rewrite re_one_spec. split.
  - intros (c & r & -> & Hc & Hs). apply re_star_spec in Hs as (p & r' & -> & Hp & Hk).
    exists (String c p), r'. cbn. rewrite Hc, Hp. now repeat split.
  - intros (p & r & -> & Hne & Hp & Hk). destruct p as [|c p]; [congruence|].
    cbn in Hp. apply andb_prop in Hp as [Hc Hp].
    exists c, (p ++ r)%string. repeat split; [exact Hc|].
    apply re_star_spec. now exists p, r.
Qed.

Lemma re_end_spec s :
  re_end s = true <-> s = EmptyString \/ s = String newline EmptyString.
Proof.
  destruct s as [|c [|d s]]; cbn.
  - tauto.
  - split.
    + intros H. apply Ascii.eqb_eq in H. subst. now right.
    + intros [H|H]; [discriminate|]. injection H as ->. apply Ascii.eqb_refl.
  - split; [discriminate | intros [H|H]; discriminate].
Qed.
End Patterns.

(** X9 (validate_email): an address is accepted exactly when it is a local
    part, an at sign, a domain, a dot and a top-level part, in this order,
    where the local part is not empty and made of letters, digits and
    [._%+-], the domain is not empty and made of letters, digits, dots and
    hyphens, and the top-level part is two letters or more; one line feed
    may follow.  Nothing more is asked: dots may follow one another. *)
Theorem validate_email_spec (email : string) :
  UtilitiesRest.validate_email email = true <->
  exists local domain tld nl : string,
    email = (local ++ "@" ++ domain ++ "." ++ tld ++ nl)%string /\
    local <> EmptyString /\
    string_forallb UtilitiesRest.local_char local = true /\
    domain <> EmptyString /\
    string_forallb UtilitiesRest.domain_char domain = true /\
    (2 <= String.length tld)%nat /\
    string_forallb UtilitiesRest.is_alpha tld = true /\
    (nl = EmptyString \/ nl = String Json.newline EmptyString).
Proof.
  unfold UtilitiesRest.validate_email. split.
  - intros H.
    apply re_plus_spec in H as (local & r1 & -> & Hl & Hlc & H).
    apply re_one_spec in H as (c & r2 & -> & Hc & H).
    apply Ascii.eqb_eq in Hc. subst c.
    apply re_plus_spec in H as (domain & r3 & -> & Hd & Hdc & H).
    apply re_one_spec in H as (c & r4 & -> & Hc & H).
    apply Ascii.eqb_eq in Hc. subst c.
    apply re_one_spec in H as (a1 & r5 & -> & Ha1 & H).
    apply re_one_spec in H as (a2 & r6 & -> & Ha2 & H).
    apply re_star_spec in H as (p & nl & -> & Hp & H).
    apply re_end_spec in H.
    exists local, domain, (String a1 (String a2 p)), nl.
    cbn [append string_forallb String.length]. rewrite Ha1, Ha2, Hp.
    repeat split; trivial; lia.
  - intros (local & domain & tld & nl & -> & Hl & Hlc & Hd & Hdc & Hlen & Htld & Hnl).
    destruct tld as [|a1 [|a2 p]]; cbn [String.length] in Hlen; try lia.
    cbn [string_forallb] in Htld.
    apply andb_prop in Htld as [Ha1 Htld]. apply andb_prop in Htld as [Ha2 Hp].
    apply re_plus_spec. exists local. eexists. split; [reflexivity|].
    repeat split; trivial.
    apply re_one_spec. exists "@"%char. eexists. split; [reflexivity|].
    split; [reflexivity|].
    apply re_plus_spec. exists domain. eexists. split; [reflexivity|].
    repeat split; trivial.
    apply re_one_spec. exists "."%char. eexists. split; [reflexivity|].
    split; [reflexivity|].
    apply re_one_spec. exists a1. eexists. split; [reflexivity|].
    split; [exact Ha1|].
    apply re_one_spec. exists a2. eexists. split; [reflexivity|].
    split; [exact Ha2|].
    apply re_star_spec. exists p, nl. split; [reflexivity|].
    split; [exact Hp|]. now apply re_end_spec.
Qed.

(** The address with two dots in a row, which the test test_invalid_emails
    of tests/test_utilities.py expects to be refused, is accepted; so is an
    address followed by a line feed. *)
Example validate_email_two_dots :
  UtilitiesRest.validate_email "user..user@example.com" = true.
Proof. reflexivity. Qed.

Example validate_email_line_feed :
  UtilitiesRest.validate_email
    ("user@example.com" ++ String Json.newline EmptyString) = true.
Proof. reflexivity. Qed.

Example validate_email_refused :
  map UtilitiesRest.validate_email
      ["invalid_email"; "@example.com"; "user@"; "user@.com"; ""]%string
  = [false; false; false; false; false].
Proof. reflexivity. Qed.

(** ** [generate_password]: length and alphabet *)

Section Passwords.
Import Py UtilitiesRest.

Lemma string_of_list_ascii_length l :
  String.length (string_of_list_ascii l) = length l.
Proof. induction l as [|c l IH]; cbn; [reflexivity | now rewrite IH]. Qed.

Lemma get_char_in s :
  forall i c, String.get i s = Some c -> char_in c s = true.
Proof.
  induction s as [|d s IH]; intros i c H; [discriminate|].
  destruct i as [|i]; cbn in *.
  - injection H as ->. now rewrite Ascii.eqb_refl.
  - rewrite (IH i c H). apply orb_true_r.
Qed.

Lemma get_below s :
  forall i, (i < String.length s)%nat -> exists c, String.get i s = Some c.
Proof.
  induction s as [|d s IH]; intros i Hi; cbn in *; [lia|].
  destruct i as [|i]; [now exists d|]. apply IH. lia.
Qed.

Lemma secrets_choice_in draw k characters :
  characters <> EmptyString ->
  char_in (secrets_choice draw k characters) characters = true.
Proof.
  intros Hne. unfold secrets_choice.
  destruct (get_below characters (draw k mod String.length characters)) as [c Hc].
  - apply Nat.mod_upper_bound. destruct characters; [congruence | discriminate].
  - rewrite Hc. exact (get_char_in _ _ _ Hc).
Qed.

Lemma letters_digits_alnum c :
  char_in c (ascii_letters ++ string_digits) = true -> is_alnum c = true.
Proof.
  destruct c as [[] [] [] [] [] [] [] []]; intros H;
    first [reflexivity | discriminate H].
Qed.

Lemma string_forallb_impl (p q : ascii -> bool) s :
  (forall c, p c = true -> q c = true) ->
  string_forallb p s = true -> string_forallb q s = true.
Proof.
  intros Hpq. induction s as [|c s IH]; cbn; [trivial|]. intros H.
  apply andb_prop in H as [Hc Hs]. now rewrite (Hpq c Hc), IH.
Qed.
End Passwords.

(** X10 (generate_password): whatever the random source gives, the password
    has [length] characters (none when [length] is negative), every one of
    them from the alphabet; without symbols it holds letters and digits
    only. *)
Theorem generate_password_alphabet (draw : nat -> nat) (length : Z)
    (include_symbols : bool) :
  let password := UtilitiesRest.generate_password draw length include_symbols in
  String.length password = Z.to_nat length /\
  string_forallb
    (fun c => Py.char_in c (UtilitiesRest.password_characters include_symbols))
    password = true /\
  (include_symbols = false ->
   string_forallb UtilitiesRest.is_alnum password = true).
Proof.
  cbn zeta. unfold UtilitiesRest.generate_password.
  assert (Hall : forall ks,
    string_forallb
      (fun c => Py.char_in c (UtilitiesRest.password_characters include_symbols))
      (string_of_list_ascii
         (map (fun k => UtilitiesRest.secrets_choice draw k
                          (UtilitiesRest.password_characters include_symbols)) ks))
    = true).
  { induction ks as [|k ks IH]; cbn [map string_of_list_ascii string_forallb];
      [reflexivity|].
    rewrite IH, secrets_choice_in; [reflexivity|].
    destruct include_symbols; discriminate. }
  split; [|split].
  - now rewrite string_of_list_ascii_length, length_map, length_seq.
  - apply Hall.
  - intros ->. eapply string_forallb_impl; [|apply Hall].
    intros c. apply letters_digits_alnum.
Qed.

Example generate_password_default_length :
  String.length (UtilitiesRest.generate_password counting_draw 12 true) = 12%nat /\
  UtilitiesRest.generate_password counting_draw (-3) true = ""%string.
Proof. split; reflexivity. Qed.

(** ** [time_ago]: the elapsed time, rounded down *)

Section TimeAgo.
Import UtilitiesRest.

(** The fields of a difference, from its whole seconds. *)
Lemma datetime_sub_fields (a b : Z) :
  days (datetime_sub a b) = (a - b) / 1000000 / 86400 /\
  seconds (datetime_sub a b) = ((a - b) / 1000000) mod 86400.
Proof.
  unfold datetime_sub. cbn [days seconds]. split.
  - rewrite Z.div_div by lia. reflexivity.
  - change 86400000000 with (1000000 * 86400).
    rewrite Z.rem_mul_r by lia.
    rewrite Z.mul_comm, Z.div_add by lia.
    rewrite (Z.div_small ((a - b) mod 1000000)); [reflexivity|].
    apply Z.mod_pos_bound. lia.
Qed.
End TimeAgo.

(** X11 (time_ago, a time stamp that is not in the future): with [e] the
    whole seconds since the time stamp, the answer is Just now under a
    minute, the minutes under an hour, the hours under a day and the days
    from there on, each rounded down and with the plural from 2 on. *)
Theorem time_ago_past (now timestamp : Z) :
  timestamp <= now ->
  let e := (now - timestamp) / 1000000 in
  UtilitiesRest.time_ago now timestamp
  = if e <? 60 then "Just now"%string
    else if e <? 3600 then UtilitiesRest.ago (e / 60) "minute"
    else if e <? 86400 then UtilitiesRest.ago (e / 3600) "hour"
    else UtilitiesRest.ago (e / 86400) "day".
Proof.
  intros Hpast. cbn zeta. unfold UtilitiesRest.time_ago.
  destruct (datetime_sub_fields now timestamp) as [-> ->].
  set (e := (now - timestamp) / 1000000).
  assert (He : 0 <= e) by (apply Z.div_pos; lia).
  pose proof (Z.div_mod e 86400 ltac:(lia)) as Hdm.
  pose proof (Z.mod_pos_bound e 86400 ltac:(lia)) as Hm.
  destruct (Z.ltb_spec e 86400) as [Hday|Hday].
  - rewrite (Z.div_small e 86400) by lia.
    rewrite (Z.mod_small e 86400) by lia. cbn [Z.gtb Z.compare].
    pose proof (Z.div_mod e 3600 ltac:(lia)) as Hh.
    pose proof (Z.mod_pos_bound e 3600 ltac:(lia)) as Hhm.
    pose proof (Z.div_mod e 60 ltac:(lia)) as Hmin.
    pose proof (Z.mod_pos_bound e 60 ltac:(lia)) as Hminm.
    destruct (Z.ltb_spec e 60) as [H60|H60].
    + rewrite (Z.div_small e 3600), (Z.div_small e 60) by lia. reflexivity.
    + destruct (Z.ltb_spec e 3600) as [H3600|H3600].
      * rewrite (Z.div_small e 3600) by lia. cbn [Z.gtb Z.compare].
        destruct (Z.gtb_spec (e / 60) 0) as [_|?]; [reflexivity | lia].
      * destruct (Z.gtb_spec (e / 3600) 0) as [_|?]; [reflexivity | lia].
  - destruct (Z.gtb_spec (e / 86400) 0) as [_|?]; [|lia].
    destruct (Z.ltb_spec e 60) as [?|_]; [lia|].
    destruct (Z.ltb_spec e 3600) as [?|_]; [lia|]. reflexivity.
Qed.

Lemma time_ago_past_witness :
  0 <= 10800000000 /\
  UtilitiesRest.time_ago 10800000000 0 = "3 hours ago"%string.
Proof.
  split; [lia|]. apply (time_ago_past 10800000000 0). lia.
Defined.

(** X12 (time_ago, a time stamp in the future): a time stamp up to 23 hours
    ahead of now is reported as hours ago, between 1 and 23 of them: the
    difference has -1 day and the seconds left to a full day. *)
Theorem time_ago_future (now ahead : Z) :
  0 < ahead <= 82800000000 ->
  let hours := (86400000000 - ahead) / 3600000000 in
  1 <= hours <= 23 /\
  UtilitiesRest.time_ago now (now + ahead) = UtilitiesRest.ago hours "hour".
Proof.
  intros Hahead. cbn zeta.
  pose proof (Z.div_mod (86400000000 - ahead) 3600000000 ltac:(lia)) as Hh.
  pose proof (Z.mod_pos_bound (86400000000 - ahead) 3600000000 ltac:(lia)) as Hhm.
  split; [lia|].
  unfold UtilitiesRest.time_ago.
  destruct (datetime_sub_fields now (now + ahead)) as [-> ->].
  replace (now - (now + ahead)) with (- ahead) by lia.
  set (e := - ahead / 1000000).
  pose proof (Z.div_mod (- ahead) 1000000 ltac:(lia)) as He. fold e in He.
  pose proof (Z.mod_pos_bound (- ahead) 1000000 ltac:(lia)) as Hem.
  assert (Hd : e / 86400 = -1).
  { symmetry. apply (Z.div_unique e 86400 (-1) (e + 86400)); lia. }
  assert (Hs : e mod 86400 = e + 86400).
  { symmetry. apply (Z.mod_unique e 86400 (-1) (e + 86400)); lia. }
  rewrite Hd, Hs. cbn [Z.gtb Z.compare].
  assert (Hq : (e + 86400) / 3600 = (86400000000 - ahead) / 3600000000).
  { symmetry.
    apply (Z.div_unique _ 3600 _ (e + 86400 - 3600 * ((86400000000 - ahead) / 3600000000))); lia. }
  rewrite Hq.
  destruct (Z.gtb_spec ((86400000000 - ahead) / 3600000000) 0) as [_|?]; [reflexivity | lia].
Qed.

Lemma time_ago_future_witness :
  0 < 1000000 <= 82800000000 /\
  UtilitiesRest.time_ago 0 (0 + 1000000) = "23 hours ago"%string.
Proof.
  split; [lia|]. apply (time_ago_future 0 1000000). lia.
Defined.

(** ** [flatten_dict]: what the flat dict holds *)

Section Dicts.
Import Py Json UtilitiesRest.

Lemma dict_set_known items key v :
  In key (map fst items) -> map fst (dict_set items key v) = map fst items.
Proof.
  induction items as [|[k old] items IH]; cbn; [easy|]. intros Hin.
  destruct (String.eqb_spec k key) as [->|Hne]; cbn; [reflexivity|].
  f_equal. apply IH. destruct Hin; [contradiction | assumption].
Qed.

Lemma dict_set_keys items key v :
  NoDup (map fst items) -> NoDup (map fst (dict_set items key v)).
Proof.
  intros Hnd. destruct (in_dec string_dec key (map fst items)) as [Hin|Hout].
  - now rewrite dict_set_known.
  - rewrite dict_set_fresh by exact Hout. rewrite map_app. cbn.
    apply NoDup_app; [exact Hnd | repeat constructor; now intros [] |].
    intros x Hx [<-|[]]. contradiction.
Qed.

Lemma dict_set_In items key v kv :
  In kv (dict_set items key v) -> In kv items \/ kv = (key, v).
Proof.
  induction items as [|[k old] items IH]; cbn.
  - intros [<-|[]]. now right.
  - destruct (String.eqb_spec k key) as [->|Hne]; cbn.
    + intros [<-|Hin]; [now right | left; now right].
    + intros [<-|Hin]; [left; now left|].
      destruct (IH Hin) as [H|H]; [left; now right | now right].
Qed.

Lemma fold_dict_set_keeps (P : string * value -> Prop) pairs :
  forall acc,
    NoDup (map fst acc) -> Forall P acc -> Forall P pairs ->
    NoDup (map fst (fold_left (fun items kv => dict_set items (fst kv) (snd kv))
                              pairs acc)) /\
    Forall P (fold_left (fun items kv => dict_set items (fst kv) (snd kv))
                        pairs acc).
Proof.
  induction pairs as [|[k v] pairs IH]; intros acc Hnd Hacc Hpairs;
    cbn [fold_left fst snd]; [now split|].
  inversion Hpairs as [|? ? Hkv Hrest]; subst.
  apply IH; [now apply dict_set_keys | | exact Hrest].
  apply Forall_forall. intros kv Hin.
  destruct (dict_set_In _ _ _ _ Hin) as [H| ->]; [|exact Hkv].
  exact (proj1 (Forall_forall P acc) Hacc kv H).
Qed.

Lemma dict_items_keeps (P : string * value -> Prop) pairs :
  Forall P pairs ->
  NoDup (map fst (dict_items pairs)) /\ Forall P (dict_items pairs).
Proof.
  intros H. apply fold_dict_set_keeps; [constructor | constructor | exact H].
Qed.

Lemma _flatten_dict_eq separator items parent_key :
  _flatten separator (PDict items) parent_key
  = match
      extend_all
        (fun kv : value * value =>
           let (k, v) := kv in
           match k with
           | PStr key => _flatten separator v (new_key parent_key separator key)
           | _ => None
           end)
        items
    with
    | Some items => Some (dict_items items)
    | None => None
    end.
Proof. reflexivity. Qed.

Lemma _flatten_list_eq separator elements parent_key :
  _flatten separator (PList elements) parent_key
  = match
      extend_enumerated
        (fun (i : nat) (v : value) =>
           _flatten separator v
             (new_key parent_key separator (int_repr (Z.of_nat i))))
        0%nat elements
    with
    | Some items => Some (dict_items items)
    | None => None
    end.
Proof. reflexivity. Qed.

Lemma _flatten_leaf separator v parent_key :
  is_leaf v = true -> _flatten separator v parent_key = Some [(parent_key, v)].
Proof. destruct v; cbn; intros H; first [reflexivity | discriminate H]. Qed.

(** What [_flatten] returns is a dict (no key twice) of leaves. *)
Lemma _flatten_flat separator (v : value) :
  forall parent_key items,
    _flatten separator v parent_key = Some items ->
    NoDup (map fst items) /\
    Forall (fun kv : string * value => is_leaf (snd kv) = true) items.
Proof.
  induction v as [| b | z | s | elements IH | elements IH | members IH]
    using value_ind_items; intros parent_key items H.
  1-4, 6: rewrite _flatten_leaf in H by reflexivity; injection H as <-;
    (split; [repeat constructor; now intros [] | repeat constructor]).
  - rewrite _flatten_list_eq in H.
    destruct (extend_enumerated _ 0%nat elements) as [pairs|] eqn:Hp; [|discriminate].
    injection H as <-. apply dict_items_keeps.
    revert pairs Hp. generalize 0%nat.
    induction IH as [|x rest Hx Hrest IHrest]; intros i pairs Hp;
      cbn [extend_enumerated] in Hp.
    + injection Hp as <-. constructor.
    + destruct (_flatten separator x _) as [first|] eqn:Hfirst; [|discriminate].
      destruct (extend_enumerated _ (S i) rest) as [more|] eqn:Hmore; [|discriminate].
      injection Hp as <-. apply Forall_app. split.
      * exact (proj2 (Hx _ _ Hfirst)).
      * exact (IHrest _ _ Hmore).
  - rewrite _flatten_dict_eq in H.
    destruct (extend_all _ members) as [pairs|] eqn:Hp; [|discriminate].
    injection H as <-. apply dict_items_keeps.
    revert pairs Hp.
    induction IH as [|[k x] rest [_ Hx] Hrest IHrest]; intros pairs Hp;
      cbn [extend_all] in Hp.
    + injection Hp as <-. constructor.
    + destruct k; try discriminate.
      cbn [snd] in Hx.
      destruct (_flatten separator x _) as [first|] eqn:Hfirst; [|discriminate].
      destruct (extend_all _ rest) as [more|] eqn:Hmore; [|discriminate].
      injection Hp as <-. apply Forall_app. split.
      * exact (proj2 (Hx _ _ Hfirst)).
      * exact (IHrest _ eq_refl).
Qed.

(** Under str keys [_flatten] has a result. *)
Lemma _flatten_some separator (v : value) :
  str_keyed v = true ->
  forall parent_key, exists items, _flatten separator v parent_key = Some items.
Proof.
  induction v as [| b | z | s | elements IH | elements IH | members IH]
    using value_ind_items; intros Hkeys parent_key.
  1-4, 6: eexists; apply _flatten_leaf; reflexivity.
  - rewrite _flatten_list_eq.
    assert (Hall : forall i, exists pairs,
      extend_enumerated
        (fun (i : nat) (v : value) =>
           _flatten separator v
             (new_key parent_key separator (int_repr (Z.of_nat i))))
        i elements = Some pairs).
    { cbn [str_keyed] in Hkeys. clear - IH Hkeys.
      induction IH as [|x rest Hx Hrest IHrest]; intros i; cbn [extend_enumerated].
      - now eexists.
      - cbn [forallb] in Hkeys. apply andb_prop in Hkeys as [Hkx Hkrest].
        destruct (Hx Hkx (new_key parent_key separator (int_repr (Z.of_nat i))))
          as [first ->].
        destruct (IHrest Hkrest (S i)) as [more ->]. now eexists. }
    destruct (Hall 0%nat) as [pairs ->]. now eexists.
  - rewrite _flatten_dict_eq.
    assert (Hall : exists pairs,
      extend_all
        (fun kv : value * value =>
           let (k, v) := kv in
           match k with
           | PStr key => _flatten separator v (new_key parent_key separator key)
           | _ => None
           end)
        members = Some pairs).
    { cbn [str_keyed] in Hkeys. clear - IH Hkeys.
      induction IH as [|[k x] rest [_ Hx] Hrest IHrest]; cbn [extend_all].
      - now eexists.
      - cbn [forallb] in Hkeys. apply andb_prop in Hkeys as [Hkx Hkrest].
        destruct k; try discriminate. cbn [snd] in Hx.
        destruct (Hx Hkx (new_key parent_key separator s)) as [first ->].
        destruct (IHrest Hkrest) as [more ->]. now eexists. }
    destruct Hall as [pairs ->]. now eexists.
Qed.

(** A dict of leaves is flat already. *)
Lemma extend_all_leaves separator (items : list (string * value)) :
  Forall (fun kv : string * value => is_leaf (snd kv) = true) items ->
  extend_all
    (fun kv : value * value =>
       let (k, v) := kv in
       match k with
       | PStr key => _flatten separator v (new_key "" separator key)
       | _ => None
       end)
    (map (fun kv : string * value => (PStr (fst kv), snd kv)) items)
  = Some items.
Proof.
  induction 1 as [|[k v] rest Hv Hrest IH]; cbn [map extend_all fst snd];
    [reflexivity|].
  cbn [snd] in Hv. rewrite (_flatten_leaf _ _ _ Hv), IH. reflexivity.
Qed.
End Dicts.

(** X13 (flatten_dict): for a value whose dicts have str keys, the result is
    a dict (no key twice) in which no value is a dict or a list. *)
Theorem flatten_dict_flat (nested_dict : Json.value) (separator : string) :
  str_keyed nested_dict = true ->
  exists items,
    UtilitiesRest.flatten_dict nested_dict separator = Some items /\
    NoDup (map fst items) /\
    Forall (fun kv : string * Json.value => is_leaf (snd kv) = true) items.
Proof.
  intros Hkeys. unfold UtilitiesRest.flatten_dict.
  destruct (_flatten_some separator nested_dict Hkeys ""%string) as [items H].
  exists items. split; [exact H|]. exact (_flatten_flat _ _ _ _ H).
Qed.

Lemma flatten_dict_flat_witness :
  str_keyed nested_items = true /\
  exists items,
    UtilitiesRest.flatten_dict nested_items UtilitiesRest.default_separator
    = Some items /\
    NoDup (map fst items) /\
    Forall (fun kv : string * Json.value => is_leaf (snd kv) = true) items.
Proof.
  split; [reflexivity|].
  apply (flatten_dict_flat nested_items UtilitiesRest.default_separator).
  reflexivity.
Defined.

(** X14 (flatten_dict): flattening is idempotent; the flat dict, flattened
    again, is itself. *)
Theorem flatten_dict_idempotent (nested_dict : Json.value) (separator : string)
    (items : list (string * Json.value)) :
  UtilitiesRest.flatten_dict nested_dict separator = Some items ->
  UtilitiesRest.flatten_dict (dict_value items) separator = Some items.
Proof.
  unfold UtilitiesRest.flatten_dict. intros H.
  destruct (_flatten_flat _ _ _ _ H) as [Hnd Hleaves].
  unfold dict_value. rewrite _flatten_dict_eq.
  rewrite (extend_all_leaves separator items Hleaves).
  unfold UtilitiesRest.dict_items.
  rewrite fold_dict_set_distinct by exact Hnd. reflexivity.
Qed.

Lemma flatten_dict_idempotent_witness :
  UtilitiesRest.flatten_dict nested_items UtilitiesRest.default_separator
  = Some [("items.0", Json.PInt 1); ("items.1", Json.PInt 2);
          ("items.2.nested", Json.PStr "value")]%string /\
  UtilitiesRest.flatten_dict
    (dict_value [("items.0", Json.PInt 1); ("items.1", Json.PInt 2);
                 ("items.2.nested", Json.PStr "value")]%string)
    UtilitiesRest.default_separator
  = Some [("items.0", Json.PInt 1); ("items.1", Json.PInt 2);
          ("items.2.nested", Json.PStr "value")]%string.
Proof.
  split; [reflexivity|].
  apply (flatten_dict_idempotent nested_items UtilitiesRest.default_separator).
  reflexivity.
Defined.

(** Two members may end under the same key, and the later one wins; a dict
    or a list with nothing in it leaves nothing. *)
Example flatten_dict_collision :
  UtilitiesRest.flatten_dict
    (Json.PDict [(Json.PStr "a.b", Json.PInt 1);
                 (Json.PStr "a", Json.PDict [(Json.PStr "b", Json.PInt 2)])]%string)
    UtilitiesRest.default_separator
  = Some [("a.b"%string, Json.PInt 2)].
Proof. reflexivity. Qed.

Example flatten_dict_empty_members :
  UtilitiesRest.flatten_dict
    (Json.PDict [(Json.PStr "a", Json.PDict []); (Json.PStr "b", Json.PList [])]%string)
    UtilitiesRest.default_separator
  = Some [].
Proof. reflexivity. Qed.

(** ** Rows: [clean_data], [group_by], [filter_data], [count_occurrences] *)

Section CleanData.
Import Py Json DataProcessingRest.

Lemma filter_keys_In {V : Type} (f : string * V -> bool) (l : list (string * V)) k :
  In k (map fst (filter f l)) -> In k (map fst l).
Proof.
  induction l as [|[k' v] l IH]; cbn; [trivial|].
  destruct (f (k', v)); cbn; intros H; [destruct H as [H|H]|]; auto.
Qed.

Lemma filter_keys_NoDup {V : Type} (f : string * V -> bool) (l : list (string * V)) :
  NoDup (map fst l) -> NoDup (map fst (filter f l)).
Proof.
  induction l as [|[k v] l IH]; cbn; [trivial|]. intros Hnd.
  inversion Hnd as [|? ? Hk Hl]; subst.
  destruct (f (k, v)); cbn; [|now apply IH].
  constructor; [|now apply IH]. intros Hin. apply Hk.
  eapply filter_keys_In. exact Hin.
Qed.

(** What the loop over the items of a row keeps true of the row built. *)
Lemma clean_item_keeps (P : string * value -> Prop)
    (remove_empty strip_strings : bool) :
  (forall key v,
     (remove_empty && (is_none v || py_eqb v (PStr "")) = false)%bool ->
     P (key, match v with
             | PStr s => if strip_strings then PStr (strip s) else v
             | _ => v
             end)) ->
  forall item acc,
    NoDup (map fst acc) -> Forall P acc ->
    NoDup (map fst (fold_left (clean_value remove_empty strip_strings) item acc)) /\
    Forall P (fold_left (clean_value remove_empty strip_strings) item acc).
Proof.
  intros Hstep. induction item as [|[key v] item IH]; intros acc Hnd Hacc;
    cbn [fold_left]; [now split|].
  apply IH; unfold clean_value;
    destruct (remove_empty && (is_none v || py_eqb v (PStr "")))%bool eqn:Hskip;
    trivial.
  - now apply dict_set_keys.
  - apply Forall_forall. intros kv Hin.
    destruct (dict_set_In _ _ _ _ Hin) as [H| ->].
    + exact (proj1 (Forall_forall P acc) Hacc kv H).
    + now apply Hstep.
Qed.

Lemma clean_data_Forall (P : Item -> Prop) (remove_empty strip_strings : bool)
    (data : list Item) :
  (forall item,
     clean_item remove_empty strip_strings item <> [] ->
     P (clean_item remove_empty strip_strings item)) ->
  Forall P (clean_data data remove_empty strip_strings).
Proof.
  intros HP. induction data as [|item data IH]; cbn [clean_data]; [constructor|].
  specialize (HP item).
  destruct (clean_item remove_empty strip_strings item) as [|kv cleaned];
    [exact IH|].
  constructor; [now apply HP | exact IH].
Qed.

Lemma strip_idem s : strip (strip s) = strip s.
Proof. apply strip_by_idem. Qed.

Lemma cleaned_step (key : string) (v : value) :
  (true && (is_none v || py_eqb v (PStr "")) = false)%bool ->
  cleaned_once (snd (key, match v with
                          | PStr s => if true then PStr (strip s) else v
                          | _ => v
                          end)).
Proof.
  cbn [andb snd]. intros Hv. apply orb_false_elim in Hv as [Hnone _].
  destruct v; try discriminate Hnone; split; try discriminate;
    intros s' Hs'; try discriminate Hs'.
  injection Hs' as <-. apply strip_idem.
Qed.

(** A row of values that went through the cleaning once: the next cleaning
    only leaves out the empty strs. *)
Lemma clean_item_cleaned item :
  forall acc,
    NoDup (map fst (acc ++ item)) ->
    Forall (fun kv : string * value => cleaned_once (snd kv)) item ->
    fold_left (clean_value true true) item acc
    = acc ++ filter (fun kv : string * value => negb (py_eqb (snd kv) (PStr ""))) item.
Proof.
  induction item as [|[key v] item IH]; intros acc Hnd Hitem; cbn [fold_left filter].
  - now rewrite app_nil_r.
  - inversion Hitem as [|? ? [Hnone Hstr] Hrest]; subst. cbn [snd] in *.
    assert (Hfresh : ~ In key (map fst acc)).
    { rewrite map_app in Hnd. cbn in Hnd. apply NoDup_remove_2 in Hnd.
      intros Hin. apply Hnd. apply in_or_app. now left. }
    unfold clean_value at 2. cbn [andb].
    assert (His : is_none v = false) by (destruct v; [congruence | reflexivity ..]).
    rewrite His. cbn [orb].
    destruct (py_eqb v (PStr "")) eqn:Hempty; cbn [negb].
    + apply IH; [|exact Hrest].
      rewrite map_app in *. cbn [map] in Hnd. now apply NoDup_remove_1 in Hnd.
    + assert (Hv : match v with
                   | PStr s => PStr (strip s)
                   | _ => v
                   end = v).
      { destruct v; try reflexivity. f_equal. now apply Hstr. }
      rewrite Hv, dict_set_fresh by exact Hfresh.
      rewrite IH; [now rewrite <- app_assoc | | exact Hrest].
      now rewrite <- app_assoc.
Qed.

Lemma filter_all {V : Type} (f : V -> bool) (l : list V) :
  Forall (fun x => f x = true) l -> filter f l = l.
Proof.
  induction 1 as [|x l Hx Hl IH]; cbn; [reflexivity|]. now rewrite Hx, IH.
Qed.
End CleanData.

(** X15 (clean_data with remove_empty): no row of the result is empty, no
    key comes twice in a row, no value is None, and no more rows come out
    than went in.  When the strs are not stripped, no value is the empty
    str either. *)
Theorem clean_data_no_empty (data : list DataProcessingRest.Item)
    (strip_strings : bool) :
  let cleaned := DataProcessingRest.clean_data data true strip_strings in
  (length cleaned <= length data)%nat /\
  Forall (fun item : DataProcessingRest.Item =>
            item <> [] /\ NoDup (map fst item) /\
            Forall (fun kv : string * Json.value =>
                      snd kv <> Json.PNone /\
                      (strip_strings = false -> snd kv <> Json.PStr "")) item)
         cleaned.
Proof.
  cbn zeta. split.
  - induction data as [|item data IH]; cbn [DataProcessingRest.clean_data length];
      [lia|].
    destruct (DataProcessingRest.clean_item true strip_strings item); cbn [length]; lia.
  - apply clean_data_Forall. intros item Hne. split; [exact Hne|].
    unfold DataProcessingRest.clean_item.
    apply clean_item_keeps; [|constructor|constructor].
    intros key v Hv. cbn [andb snd] in *.
    apply orb_false_elim in Hv as [Hnone Hempty]. split.
    + destruct v; try discriminate Hnone; try discriminate;
        destruct strip_strings; discriminate.
    + intros ->. destruct v; try discriminate.
      cbn in Hempty. intros H. injection H as ->. discriminate Hempty.
Qed.

(** With the strs stripped, a str of spaces only gets past the test for
    empty values and is stored as the empty str: one pass can leave empty
    strs, and a second pass takes them out. *)
Example clean_data_leaves_empty_str :
  DataProcessingRest.clean_data [[("name", Json.PStr "  ")]]%string true true
  = [[("name", Json.PStr "")]]%string /\
  DataProcessingRest.clean_data
    (DataProcessingRest.clean_data [[("name", Json.PStr "  ")]]%string true true)
    true true
  = [].
Proof. split; reflexivity. Qed.

(** X16 (clean_data with both options): the cleaning is not idempotent, but
    the second pass gives rows that a third pass leaves as they are. *)
Theorem clean_data_twice_fixed (data : list DataProcessingRest.Item) :
  let pass := fun d => DataProcessingRest.clean_data d true true in
  pass (pass (pass data)) = pass (pass data).
Proof.
  cbn zeta.
  set (once := fun item : DataProcessingRest.Item =>
         NoDup (map fst item) /\
         Forall (fun kv : string * Json.value => cleaned_once (snd kv)) item).
  set (twice := fun item : DataProcessingRest.Item =>
         item <> [] /\ NoDup (map fst item) /\
         Forall (fun kv : string * Json.value => cleaned_once (snd kv)) item /\
         Forall (fun kv : string * Json.value =>
                   negb (Json.py_eqb (snd kv) (Json.PStr "")) = true) item).
  assert (H1 : forall d, Forall once (DataProcessingRest.clean_data d true true)).
  { intros d. apply clean_data_Forall. intros item _.
    unfold DataProcessingRest.clean_item.
    apply (clean_item_keeps (fun kv => cleaned_once (snd kv)));
      [|constructor|constructor].
    intros key v Hv. now apply cleaned_step. }
  assert (H2 : forall d, Forall once d ->
                 Forall twice (DataProcessingRest.clean_data d true true)).
  { intros d Hd. induction Hd as [|item d [Hnd Hitem] Hd IH];
      cbn [DataProcessingRest.clean_data]; [constructor|].
    unfold DataProcessingRest.clean_item.
    rewrite (clean_item_cleaned item []) by assumption. cbn [app].
    destruct (filter _ item) as [|kv kept] eqn:Hkept; [exact IH|].
    constructor; [|exact IH]. rewrite <- Hkept.
    split; [rewrite Hkept; discriminate|].
    split; [now apply filter_keys_NoDup|]. split.
    - apply Forall_forall. intros x Hx. apply filter_In in Hx as [Hx _].
      exact (proj1 (Forall_forall _ item) Hitem x Hx).
    - apply Forall_forall. intros x Hx. now apply filter_In in Hx as [_ Hx]. }
  assert (H3 : forall d, Forall twice d ->
                 DataProcessingRest.clean_data d true true = d).
  { intros d Hd. induction Hd as [|item d (Hne & Hnd & Hitem & Hfull) Hd IH];
      cbn [DataProcessingRest.clean_data]; [reflexivity|].
    unfold DataProcessingRest.clean_item.
    rewrite (clean_item_cleaned item []) by assumption. cbn [app].
    rewrite (filter_all _ item Hfull), IH.
    destruct item; [congruence | reflexivity]. }
  apply H3, H2, H1.
Qed.

Example clean_data_sample_rows :
  DataProcessingRest.clean_data sample_rows true true
  = [[("name", Json.PStr "Alice Brown"); ("age", Json.PStr "28");
      ("department", Json.PStr "HR")];
     [("name", Json.PStr "")];
     [("name", Json.PStr "Bob Johnson"); ("department", Json.PStr "Engineering")];
     [("name", Json.PStr "Eve Martinez"); ("age", Json.PStr "32");
      ("department", Json.PStr "HR")]]%string.
Proof. reflexivity. Qed.

Section GroupBy.
Import Py Json DataProcessingRest.

(** A value that has a hash equals itself. *)
Lemma py_eqb_refl (v : value) : hashable v = true -> py_eqb v v = true.
Proof.
  induction v as [| b | z | s | elements IH | elements IH | members IH]
    using value_ind_items; cbn [hashable]; intros Hh; try discriminate Hh.
  - reflexivity.
  - destruct b; reflexivity.
  - cbn. apply Z.eqb_refl.
  - cbn. apply String.eqb_refl.
  - cbn [py_eqb]. induction IH as [|x rest Hx Hrest IHrest]; [reflexivity|].
    cbn [forallb] in Hh. apply andb_prop in Hh as [Hhx Hhrest].
    rewrite (Hx Hhx). cbn [andb]. exact (IHrest Hhrest).
Qed.

Lemma groups_append_concat groups group_key item :
  Permutation (concat (map snd (groups_append groups group_key item)))
              (concat (map snd groups) ++ [item]).
Proof.
  induction groups as [|[g items] groups IH]; cbn [groups_append].
  - cbn. apply Permutation_refl.
  - destruct (py_eqb g group_key); cbn [map concat snd].
    + rewrite <- !app_assoc. apply Permutation_app_head.
      apply Permutation_app_comm.
    + rewrite <- app_assoc. now apply Permutation_app_head.
Qed.

Lemma groups_append_Forall (P : value * list Item -> Prop) groups group_key item :
  Forall P groups ->
  P (group_key, [item]) ->
  (forall g items, P (g, items) -> py_eqb g group_key = true ->
                   P (g, items ++ [item])) ->
  Forall P (groups_append groups group_key item).
Proof.
  intros Hgroups Hnew Hmore.
  induction Hgroups as [|[g items] groups Hg Hgroups IH]; cbn [groups_append].
  - now constructor.
  - destruct (py_eqb g group_key) eqn:Heq; constructor; auto.
Qed.

(** The keys after a row is added: the same, or one more at the end that
    equals none of the others. *)
Lemma groups_append_keys groups group_key item :
  map fst (groups_append groups group_key item) = map fst groups \/
  (map fst (groups_append groups group_key item) = map fst groups ++ [group_key] /\
   Forall (fun g => py_eqb g group_key = false) (map fst groups)).
Proof.
  induction groups as [|[g items] groups IH]; cbn [groups_append].
  - right. split; [reflexivity | constructor].
  - destruct (py_eqb g group_key) eqn:Heq; cbn [map fst].
    + now left.
    + destruct IH as [->|[-> Hall]]; [now left|].
      right. split; [reflexivity | now constructor].
Qed.

Lemma ForallOrdPairs_snoc {T : Type} (R : T -> T -> Prop) (l : list T) (x : T) :
  ForallOrdPairs R l -> Forall (fun a => R a x) l -> ForallOrdPairs R (l ++ [x]).
Proof.
  induction 1 as [|a l Ha Hl IH]; intros Hx; cbn.
  - repeat constructor.
  - inversion Hx as [|? ? Hax Hlx]; subst. constructor.
    + apply Forall_app. split; [exact Ha | now constructor].
    + now apply IH.
Qed.

Lemma group_loop_spec key data :
  forall groups,
    (forall item v, In item data -> dict_get item key = Some v ->
                    hashable v = true) ->
    exists groups',
      group_loop data key groups = Returned groups' /\
      Permutation (concat (map snd groups'))
                  (concat (map snd groups) ++ filter (has_key key) data) /\
      (Forall (group_of key) groups -> Forall (group_of key) groups') /\
      (ForallOrdPairs (fun a b => py_eqb a b = false) (map fst groups) ->
       ForallOrdPairs (fun a b => py_eqb a b = false) (map fst groups')).
Proof.
  induction data as [|item data IH]; intros groups Hhash; cbn [group_loop filter].
  - exists groups. rewrite app_nil_r. repeat split; auto.
  - unfold has_key at 1.
    assert (Hrest : forall item v, In item data -> dict_get item key = Some v ->
                                   hashable v = true)
      by (intros i v Hi; apply Hhash; now right).
    destruct (dict_get item key) as [group_key|] eqn:Hget.
    + assert (Hh : hashable group_key = true)
        by (apply (Hhash item); [now left | exact Hget]).
      rewrite Hh.
      destruct (IH (groups_append groups group_key item) Hrest)
        as (groups' & Hrun & Hperm & Hgood & Hkeys).
      exists groups'. split; [exact Hrun|]. split; [|split].
      * eapply Permutation_trans; [exact Hperm|].
        change (item :: filter (has_key key) data)
          with ([item] ++ filter (has_key key) data).
        rewrite app_assoc. apply Permutation_app_tail.
        apply groups_append_concat.
      * intros Hgroups. apply Hgood.
        apply groups_append_Forall; [exact Hgroups | |].
        -- split; [discriminate|]. repeat constructor.
           exists group_key. split; [exact Hget | now apply py_eqb_refl].
        -- intros g items [_ Hitems] Heq. split.
           ++ cbn [snd]. intros Hnil. now apply app_eq_nil in Hnil as [_ Hnil].
           ++ cbn [fst snd] in *. apply Forall_app. split; [exact Hitems|].
              repeat constructor. now exists group_key.
      * intros Hdistinct. apply Hkeys.
        destruct (groups_append_keys groups group_key item) as [->|[-> Hall]];
          [exact Hdistinct | now apply ForallOrdPairs_snoc].
    + apply IH. exact Hrest.
Qed.

Lemma counter_add_sizes groups v item :
  counter_add (group_sizes groups) v = group_sizes (groups_append groups v item).
Proof.
  induction groups as [|[g items] groups IH]; cbn [group_sizes map groups_append
                                                    counter_add fst snd].
  - reflexivity.
  - destruct (py_eqb g v); cbn [map fst snd].
    + f_equal. f_equal. rewrite length_app. cbn [length]. lia.
    + f_equal. exact IH.
Qed.

Lemma counter_groups key data :
  forall groups,
    counter (flat_map (fun item => match counted_value key item with
                                   | Some v => [v]
                                   | None => []
                                   end) data)
            (group_sizes groups)
    = match group_loop (filter (is_counted key) data) key groups with
      | Returned groups' => Returned (group_sizes groups')
      | Raised e => Raised e
      end.
Proof.
  induction data as [|item data IH]; intros groups; cbn [flat_map filter];
    [reflexivity|].
  unfold is_counted at 1.
  destruct (counted_value key item) as [v|] eqn:Hv; [|apply IH].
  cbn [app counter group_loop].
  assert (Hget : dict_get item key = Some v).
  { unfold counted_value in Hv. destruct (dict_get item key) as [x|]; [|discriminate].
    destruct (is_none x); [discriminate | exact Hv]. }
  rewrite Hget. destruct (hashable v); [|reflexivity].
  rewrite (counter_add_sizes groups v item). apply IH.
Qed.

Lemma counter_add_total counts v :
  total_of (counter_add counts v) = total_of counts + 1 /\
  (Forall (fun c : value * Z => 1 <= snd c) counts ->
   Forall (fun c : value * Z => 1 <= snd c) (counter_add counts v)).
Proof.
  unfold total_of. induction counts as [|[g n] counts [IHt IHp]];
    cbn [counter_add map snd fold_right].
  - split; [lia | repeat constructor; cbn; lia].
  - destruct (py_eqb g v); cbn [map snd fold_right].
    + split; [lia|]. intros H. inversion H; subst. constructor; [cbn in *; lia | assumption].
    + split; [lia|]. intros H. inversion H; subst. constructor; auto.
Qed.

Lemma counter_total values :
  forall counts counts',
    counter values counts = Returned counts' ->
    total_of counts' = total_of counts + Z.of_nat (length values) /\
    (Forall (fun c : value * Z => 1 <= snd c) counts ->
     Forall (fun c : value * Z => 1 <= snd c) counts').
Proof.
  induction values as [|v values IH]; intros counts counts' H; cbn [counter] in H.
  - injection H as <-. cbn. split; [lia | trivial].
  - destruct (hashable v); [|discriminate].
    destruct (IH _ _ H) as [Ht Hp].
    destruct (counter_add_total counts v) as [Ht1 Hp1].
    split; [cbn [length]; lia | auto].
Qed.

Lemma counted_values_length key data :
  length (flat_map (fun item => match counted_value key item with
                                | Some v => [v]
                                | None => []
                                end) data)
  = length (filter (is_counted key) data).
Proof.
  induction data as [|item data IH]; cbn [flat_map filter]; [reflexivity|].
  unfold is_counted at 1. destruct (counted_value key item); cbn; now rewrite IH.
Qed.
End GroupBy.

(** X17 (group_by): when the values under the key have a hash, the rows
    that have the key are shared out among the groups, none lost and none
    twice; no group is empty; each row sits in a group whose key equals its
    value under the key; and no two groups have equal keys.  Rows without
    the key are in no group. *)
Theorem group_by_partition (data : list DataProcessingRest.Item) (key : string) :
  (forall item v, In item data -> DataProcessingRest.dict_get item key = Some v ->
                  DataProcessingRest.hashable v = true) ->
  exists groups,
    DataProcessingRest.group_by data key = Py.Returned groups /\
    Permutation (concat (map snd groups)) (filter (has_key key) data) /\
    Forall (fun g : Json.value * list DataProcessingRest.Item =>
              snd g <> [] /\
              Forall (fun item =>
                        exists v, DataProcessingRest.dict_get item key = Some v /\
                                  Json.py_eqb (fst g) v = true) (snd g))
           groups /\
    ForallOrdPairs (fun a b => Json.py_eqb a b = false) (map fst groups).
Proof.
  intros Hhash.
  destruct (group_loop_spec key data [] Hhash) as (groups & Hrun & Hperm & Hgood & Hkeys).
  exists groups. split; [exact Hrun|]. split; [exact Hperm|]. split.
  - apply Hgood. constructor.
  - apply Hkeys. constructor.
Qed.

Lemma group_by_partition_witness :
  (forall item v, In item sample_rows ->
                  DataProcessingRest.dict_get item "department" = Some v ->
                  DataProcessingRest.hashable v = true) /\
  exists groups,
    DataProcessingRest.group_by sample_rows "department" = Py.Returned groups /\
    Permutation (concat (map snd groups)) (filter (has_key "department") sample_rows) /\
    Forall (fun g : Json.value * list DataProcessingRest.Item =>
              snd g <> [] /\
              Forall (fun item =>
                        exists v, DataProcessingRest.dict_get item "department" = Some v /\
                                  Json.py_eqb (fst g) v = true) (snd g))
           groups /\
    ForallOrdPairs (fun a b => Json.py_eqb a b = false) (map fst groups).
Proof.
  assert (H : forall item v, In item sample_rows ->
                DataProcessingRest.dict_get item "department" = Some v ->
                DataProcessingRest.hashable v = true).
  { intros item v Hin Hget.
    repeat (destruct Hin as [<-|Hin]; [injection Hget as <-; reflexivity|]).
    destruct Hin. }
  split; [exact H|]. exact (group_by_partition sample_rows "department" H).
Defined.

(** A value without a hash under the key makes [group_by] raise. *)
Example group_by_unhashable :
  DataProcessingRest.group_by (sample_rows ++ [unhashable_row]) "department"
  = Py.Raised DataProcessingRest.unhashable.
Proof. reflexivity. Qed.

(** X18 (count_occurrences and group_by): the counts are the sizes of the
    groups of the rows that have the key with a value other than None, key
    by key and in the same order; and [count_occurrences] raises when
    [group_by] does on these rows. *)
Theorem count_occurrences_group_sizes (data : list DataProcessingRest.Item)
    (key : string) :
  DataProcessingRest.count_occurrences data key
  = match DataProcessingRest.group_by (filter (is_counted key) data) key with
    | Py.Returned groups => Py.Returned (group_sizes groups)
    | Py.Raised e => Py.Raised e
    end.
Proof.
  unfold DataProcessingRest.count_occurrences, DataProcessingRest.group_by.
  exact (counter_groups key data []).
Qed.

(** X19 (count_occurrences): the counts it returns are at least 1 each and
    add up to the number of rows that have the key with a value other than
    None. *)
Theorem count_occurrences_total (data : list DataProcessingRest.Item)
    (key : string) (counts : list (Json.value * Z)) :
  DataProcessingRest.count_occurrences data key = Py.Returned counts ->
  total_of counts = Z.of_nat (length (filter (is_counted key) data)) /\
  Forall (fun c : Json.value * Z => 1 <= snd c) counts.
Proof.
  unfold DataProcessingRest.count_occurrences. intros H.
  destruct (counter_total _ _ _ H) as [Ht Hp].
  rewrite counted_values_length in Ht. split; [exact Ht|].
  apply Hp. constructor.
Qed.

Lemma count_occurrences_total_witness :
  DataProcessingRest.count_occurrences sample_rows "department"
  = Py.Returned [(Json.PStr "HR", 2); (Json.PStr "Engineering", 1)]%string /\
  total_of [(Json.PStr "HR", 2); (Json.PStr "Engineering", 1)]%string
  = Z.of_nat (length (filter (is_counted "department") sample_rows)).
Proof.
  split; [reflexivity|].
  apply (count_occurrences_total sample_rows "department").
  reflexivity.
Defined.

Section FilterData.
Import Py Json DataProcessingRest.

Lemma matches_app item f1 f2 :
  matches item (f1 ++ f2) = matches item f1 && matches item f2.
Proof. apply forallb_app. Qed.

Lemma matches_spec item filters :
  matches item filters = true <->
  forall k v, In (k, v) filters ->
              exists x, dict_get item k = Some x /\ py_eqb x v = true.
Proof.
  unfold matches. rewrite forallb_forall. split.
  - intros H k v Hin. specialize (H (k, v) Hin). cbn in H.
    destruct (dict_get item k) as [x|]; [now exists x | discriminate].
  - intros H [k v] Hin. destruct (H k v Hin) as (x & -> & Hx). exact Hx.
Qed.
End FilterData.


Example filter_data_engineering :
  DataProcessingRest.filter_data sample_rows
    [("department", Json.PStr "Engineering")]%string
  = [[("name", Json.PStr "Bob Johnson"); ("age", Json.PStr "");
      ("department", Json.PStr "Engineering")]]%string.
Proof. reflexivity. Qed.

(** ** The pending-reports job: the records, and several runs in a row *)

Section PendingRecords.
Import Py PendingReports.

Lemma add_row_fold rows :
  forall acc,
    fold_left add_row rows acc
    = (fst acc ++ rows_read rows, snd acc + sum_counts (rows_read rows)).
Proof.
  induction rows as [|row rows IH]; intros [recs total]; cbn [fold_left].
  - cbn. now rewrite app_nil_r, Z.add_0_r.
  - rewrite IH. destruct row as [r|]; cbn [add_row fst snd rows_read flat_map app].
    + rewrite <- app_assoc. cbn [app]. f_equal.
      unfold sum_counts. cbn [fold_right]. fold (sum_counts (rows_read rows)).
      change (flat_map _ rows) with (rows_read rows). unfold sum_counts. lia.
    + reflexivity.
Qed.
End PendingRecords.

(** X21 (get_pending_records_from_database): the total is the sum of the
    counts of the records returned; the records are the rows that could be
    read, in the order of the query; a query that raises gives no record
    and a total of 0. *)
Theorem pending_records_total (connection : PendingReports.Connection) :
  let records := fst (PendingReports.get_pending_records_from_database connection) in
  let total_count := snd (PendingReports.get_pending_records_from_database connection) in
  total_count = sum_counts records /\
  (forall rows, connection = PendingReports.QueryRows rows ->
                records = rows_read rows) /\
  (connection = PendingReports.QueryRaises -> records = [] /\ total_count = 0).
Proof.
  cbn zeta. destruct connection as [|rows]; cbn [PendingReports.get_pending_records_from_database].
  - split; [reflexivity|]. split; [discriminate | now split].
  - rewrite add_row_fold. cbn [fst snd app]. split; [lia|].
    split; [|discriminate]. intros rows' H. now injection H as <-.
Qed.

Section SeveralRuns.
Import Py PendingReports.
Variable ALERT_THRESHOLD : Z.

Lemma read_normal env w :
  state_file w = Some "NORMAL"%string ->
  fst (read_last_alert_state env w) = "NORMAL"%string.
Proof.
  intros Hs. unfold read_last_alert_state. rewrite Hs.
  destruct (read_raises env); reflexivity.
Qed.

(** A calm run that reads a state other than WARNING leaves the world as
    it is. *)
Lemma calm_run_quiet env w :
  calm_run ALERT_THRESHOLD env ->
  fst (read_last_alert_state env w) <> "WARNING"%string ->
  main ALERT_THRESHOLD env w = (tt, w).
Proof.
  intros Hcalm Hstate. destruct (db_connect env) as [connection|] eqn:Hc.
  - rewrite (main_connected ALERT_THRESHOLD env w connection Hc).
    specialize (Hcalm connection Hc). unfold alert_step.
    destruct (Z.gtb_spec (snd (get_pending_records_from_database connection))
                         ALERT_THRESHOLD) as [?|_]; [lia|].
    destruct ((_ <=? _) && (_ >=? _)); [|reflexivity].
    apply String.eqb_neq in Hstate. now rewrite Hstate.
  - now apply main_not_connected.
Qed.

(** What one run adds to the trace: nothing, with the world left as it is;
    or a WARNING send and the write of WARNING; or, when the state read was
    WARNING, a RECOVERY send and the write of NORMAL. *)
Lemma main_cases env w :
  main ALERT_THRESHOLD env w = (tt, w) \/
  exists msg state,
    io_trace (snd (main ALERT_THRESHOLD env w))
    = io_trace w ++ [SmtpSend msg (negb (smtp_raises env));
                     WriteState state (negb (write_raises env))] /\
    state_file (snd (main ALERT_THRESHOLD env w))
    = (if write_raises env then state_file w else Some state) /\
    ((alert_type msg = "WARNING"%string /\ state = "WARNING"%string) \/
     (alert_type msg = "RECOVERY"%string /\ state = "NORMAL"%string /\
      fst (read_last_alert_state env w) = "WARNING"%string)).
Proof.
  destruct (db_connect env) as [connection|] eqn:Hc.
  - rewrite (main_connected ALERT_THRESHOLD env w connection Hc).
    set (recs := fst (get_pending_records_from_database connection)).
    set (total := snd (get_pending_records_from_database connection)).
    unfold alert_step.
    destruct (total >? ALERT_THRESHOLD).
    + right.
      destruct (send_then_write ALERT_THRESHOLD env recs total "WARNING" "WARNING" w)
        as (Ht & _ & Hs).
      eexists. eexists. split; [exact Ht|]. split; [exact Hs|]. left. now split.
    + destruct ((total <=? ALERT_THRESHOLD) && (total >=? 0)); [|now left].
      destruct (String.eqb_spec (fst (read_last_alert_state env w)) "WARNING")
        as [Hlast|_]; [|now left].
      right.
      destruct (send_then_write ALERT_THRESHOLD env recs total "RECOVERY" "NORMAL" w)
        as (Ht & _ & Hs).
      eexists. eexists. split; [exact Ht|]. split; [exact Hs|]. right. now repeat split.
  - left. now apply main_not_connected.
Qed.

Lemma no_recovery_twice_snoc kinds k :
  no_recovery_twice (kinds ++ [k])
  = no_recovery_twice kinds
    && negb (String.eqb (last kinds ""%string) "RECOVERY" && String.eqb k "RECOVERY").
Proof.
  induction kinds as [|a kinds IH].
  - reflexivity.
  - destruct kinds as [|b kinds].
    + cbn. now rewrite !andb_true_r.
    + change (no_recovery_twice ((a :: b :: kinds) ++ [k]))
        with (negb (String.eqb a "RECOVERY" && String.eqb b "RECOVERY")
              && no_recovery_twice ((b :: kinds) ++ [k])).
      rewrite IH.
      change (no_recovery_twice (a :: b :: kinds))
        with (negb (String.eqb a "RECOVERY" && String.eqb b "RECOVERY")
              && no_recovery_twice (b :: kinds)).
      change (last (a :: b :: kinds) ""%string) with (last (b :: kinds) ""%string).
      now rewrite andb_assoc.
Qed.

(** Over the runs, from the actions [acts0] made so far: no RECOVERY is
    asked twice in a row, and after a RECOVERY the state file holds
    NORMAL. *)
Lemma run_jobs_recovery envs :
  forall w acts0,
    (forall env, In env envs -> write_raises env = false) ->
    no_recovery_twice (send_kinds acts0) = true ->
    (last (send_kinds acts0) ""%string = "RECOVERY"%string ->
     state_file w = Some "NORMAL"%string) ->
    exists acts,
      io_trace (run_jobs ALERT_THRESHOLD envs w) = io_trace w ++ acts /\
      no_recovery_twice (send_kinds (acts0 ++ acts)) = true.
Proof.
  induction envs as [|env envs IH]; intros w acts0 Hwrites Hno Hlast.
  - exists []. cbn. now rewrite !app_nil_r.
  - change (run_jobs ALERT_THRESHOLD (env :: envs) w)
      with (run_jobs ALERT_THRESHOLD envs (snd (main ALERT_THRESHOLD env w))).
    assert (Hrest : forall e, In e envs -> write_raises e = false)
      by (intros e He; apply Hwrites; now right).
    assert (Hw : write_raises env = false) by (apply Hwrites; now left).
    destruct (main_cases env w) as [Hquiet|(msg & state & Ht & Hs & Hkind)].
    + rewrite Hquiet. cbn [snd]. now apply IH.
    + rewrite Hw in Hs, Ht. cbn [negb] in Ht.
      set (step := [SmtpSend msg (negb (smtp_raises env)); WriteState state true]) in *.
      assert (Hkinds : send_kinds (acts0 ++ step)
                       = send_kinds acts0 ++ [alert_type msg]).
      { unfold send_kinds. rewrite flat_map_app. reflexivity. }
      destruct (IH (snd (main ALERT_THRESHOLD env w)) (acts0 ++ step) Hrest)
        as (acts & Hacts & Hok).
      * rewrite Hkinds, no_recovery_twice_snoc, Hno. cbn [andb].
        destruct Hkind as [[-> _]|(-> & _ & Hread)]; [now rewrite andb_false_r|].
        destruct (String.eqb_spec (last (send_kinds acts0) ""%string) "RECOVERY")
          as [Hrec|_]; [|reflexivity].
        rewrite (read_normal env w (Hlast Hrec)) in Hread. discriminate Hread.
      * rewrite Hkinds, last_last, Hs.
        destruct Hkind as [[-> _]|(_ & -> & _)]; [discriminate | reflexivity].
      * exists (step ++ acts). rewrite Hacts, Ht, <- app_assoc. split; [reflexivity|].
        now rewrite app_assoc.
Qed.
End SeveralRuns.

(** X22 (main, run after run): when the writes of the state file work, the
    job never asks for two RECOVERY messages in a row, whatever the runs
    find and whatever the state file held at first: a WARNING message comes
    between any two of them. *)
Theorem recovery_not_repeated (ALERT_THRESHOLD : Z)
    (envs : list PendingReports.Env) (w : PendingReports.World) :
  (forall env, In env envs -> PendingReports.write_raises env = false) ->
  exists acts,
    PendingReports.io_trace (PendingReports.run_jobs ALERT_THRESHOLD envs w)
    = PendingReports.io_trace w ++ acts /\
    no_recovery_twice (send_kinds acts) = true.
Proof.
  intros Hwrites.
  destruct (run_jobs_recovery ALERT_THRESHOLD envs w [] Hwrites eq_refl)
    as (acts & Hacts & Hok); [discriminate|].
  exists acts. now split.
Qed.

Lemma recovery_not_repeated_witness :
  (forall env, In env [busy_env; calm_env; calm_env; busy_env; calm_env] ->
               PendingReports.write_raises env = false) /\
  exists acts,
    PendingReports.io_trace
      (PendingReports.run_jobs 50 [busy_env; calm_env; calm_env; busy_env; calm_env]
                               (world_with None))
    = PendingReports.io_trace (world_with None) ++ acts /\
    no_recovery_twice (send_kinds acts) = true.
Proof.
  assert (H : forall env, In env [busy_env; calm_env; calm_env; busy_env; calm_env] ->
                PendingReports.write_raises env = false).
  { intros env Hin. repeat (destruct Hin as [<-|Hin]; [reflexivity|]). destruct Hin. }
  split; [exact H|].
  exact (recovery_not_repeated 50 [busy_env; calm_env; calm_env; busy_env; calm_env]
           (world_with None) H).
Defined.

(** X23 (main, run after run): a RECOVERY message that the mail server
    does not take is lost.  When the run that should send it cannot reach
    the server and the write works, the state file holds NORMAL, and the
    calm runs that follow send nothing and write nothing. *)
Theorem recovery_lost_when_smtp_fails (ALERT_THRESHOLD : Z)
    (env : PendingReports.Env) (envs : list PendingReports.Env)
    (w : PendingReports.World) (connection : PendingReports.Connection) :
  PendingReports.db_connect env = Some connection ->
  snd (PendingReports.get_pending_records_from_database connection) <= ALERT_THRESHOLD ->
  fst (PendingReports.read_last_alert_state env w) = "WARNING"%string ->
  PendingReports.smtp_raises env = true ->
  PendingReports.write_raises env = false ->
  (forall env', In env' envs -> calm_run ALERT_THRESHOLD env') ->
  let records := fst (PendingReports.get_pending_records_from_database connection) in
  let total_count := snd (PendingReports.get_pending_records_from_database connection) in
  let msg := PendingReports.mkEmail
               (PendingReports.RecoverySubject total_count)
               "RECOVERY" total_count records in
  let w' := PendingReports.run_jobs ALERT_THRESHOLD (env :: envs) w in
  PendingReports.outbox w' = PendingReports.outbox w /\
  PendingReports.state_file w' = Some "NORMAL"%string /\
  PendingReports.io_trace w'
  = PendingReports.io_trace w
    ++ [PendingReports.SmtpSend msg false; PendingReports.WriteState "NORMAL" true].
Proof.
  intros Hc Hcalm Hlast Hsmtp Hwrite Hcalms. cbn zeta.
  change (PendingReports.run_jobs ALERT_THRESHOLD (env :: envs) w)
    with (PendingReports.run_jobs ALERT_THRESHOLD envs
            (snd (PendingReports.main ALERT_THRESHOLD env w))).
  rewrite (main_connected ALERT_THRESHOLD env w connection Hc).
  unfold PendingReports.alert_step.
  destruct (Z.gtb_spec (snd (PendingReports.get_pending_records_from_database connection))
                       ALERT_THRESHOLD) as [?|_]; [lia|].
  pose proof (total_count_nonneg connection) as Hnonneg.
  destruct (Z.leb_spec (snd (PendingReports.get_pending_records_from_database connection))
                       ALERT_THRESHOLD) as [_|?]; [|lia].
  destruct (Z.geb_spec (snd (PendingReports.get_pending_records_from_database connection)) 0)
    as [_|?]; [|lia].
  cbn [andb]. rewrite Hlast. cbn [String.eqb Ascii.eqb Bool.eqb].
  destruct (send_then_write ALERT_THRESHOLD env
              (fst (PendingReports.get_pending_records_from_database connection))
              (snd (PendingReports.get_pending_records_from_database connection))
              "RECOVERY" "NORMAL" w) as (Ht & Ho & Hs).
  rewrite Hsmtp in Ht, Ho. rewrite Hwrite in Ht, Hs. cbn [negb] in Ht.
  rewrite app_nil_r in Ho.
  set (w1 := snd ((PendingReports.bind
                     (PendingReports.send_email_report ALERT_THRESHOLD env _ _ "RECOVERY")
                     (fun _ => PendingReports.write_alert_state env "NORMAL")) w)) in *.
  cbn [String.eqb Ascii.eqb Bool.eqb] in Ht.
  rewrite <- Ht, <- Ho. clearbody w1. clear Ht Ho.
  revert w1 Hs. induction envs as [|env' envs IH]; intros w1 Hs.
  - cbn. auto.
  - change (PendingReports.run_jobs ALERT_THRESHOLD (env' :: envs) w1)
      with (PendingReports.run_jobs ALERT_THRESHOLD envs
              (snd (PendingReports.main ALERT_THRESHOLD env' w1))).
    rewrite (calm_run_quiet ALERT_THRESHOLD env' w1).
    + cbn [snd]. apply IH; [|exact Hs]. intros e He. apply Hcalms. now right.
    + apply Hcalms. now left.
    + rewrite (read_normal env' w1 Hs). discriminate.
Qed.

Lemma recovery_lost_when_smtp_fails_witness :
  PendingReports.outbox
    (PendingReports.run_jobs 50 [smtp_down_env; calm_env; calm_env]
                             (world_with (Some "WARNING"%string)))
  = [] /\
  PendingReports.state_file
    (PendingReports.run_jobs 50 [smtp_down_env; calm_env; calm_env]
                             (world_with (Some "WARNING"%string)))
  = Some "NORMAL"%string.
Proof.
  assert (Hcalm : forall env', In env' [calm_env; calm_env] -> calm_run 50 env').
  { intros env' Hin c Hc.
    repeat (destruct Hin as [<-|Hin]; [injection Hc as <-; cbn; lia|]).
    destruct Hin. }
  destruct (recovery_lost_when_smtp_fails 50 smtp_down_env [calm_env; calm_env]
              (world_with (Some "WARNING"%string)) calm_connection
              eq_refl ltac:(cbn; lia) eq_refl eq_refl eq_refl Hcalm)
    as (Ho & Hs & _).
  split; [exact Ho | exact Hs].
Defined.

(** ** [extract_links]: how a relative href is resolved *)

Section Links.
Import Py WebScrapingRest.

Lemma rstrip_by_snoc_dropped (drop : ascii -> bool) (s : string) (c : ascii) :
  drop c = true ->
  rstrip_by drop (s ++ String c EmptyString) = rstrip_by drop s.
Proof.
  intros Hc. induction s as [|a s IH]; cbn [append rstrip_by].
  - now rewrite Hc.
  - now rewrite IH.
Qed.

Lemma append_not_empty (s t : string) :
  s <> EmptyString -> (s ++ t)%string <> EmptyString.
Proof. destruct s; [congruence | discriminate]. Qed.

(** The href of the second branch does not start with a slash, so that
    [lstrip] leaves it as it is. *)
Lemma resolve_href_spec base_url href :
  base_url <> EmptyString ->
  resolve_href base_url href
  = if startswith "/" href
    then (rstrip_by (fun c => char_in c "/") base_url ++ href)%string
    else if is_absolute href then href
    else (rstrip_by (fun c => char_in c "/") base_url ++ "/" ++ href)%string.
Proof.
  intros Hbase. unfold resolve_href, is_absolute.
  apply String.eqb_neq in Hbase. rewrite Hbase. cbn [negb andb].
  destruct (startswith "/" href) eqn:Hslash; [reflexivity|].
  destruct (startswith "http://" href || startswith "https://" href);
    cbn [negb]; [reflexivity|].
  rewrite lstrip_by_fixed; [reflexivity|].
  destruct href as [|c rest]; [exact I|]. cbn.
  unfold startswith in Hslash. cbn in Hslash.
  destruct (Ascii.eqb_spec "/"%char c) as [<-|Hne]; [discriminate Hslash|].
  destruct (Ascii.eqb_spec c "/"%char) as [->|_]; [congruence | reflexivity].
Qed.
End Links.

(** X24 (extract_links, with a base address): one link comes out for each
    anchor, in order, with its text and title.  An href that starts with a
    slash is put after the base without its closing slashes; an href that
    starts with http:// or https:// is kept; any other href is put after
    the base and one slash.  Closing slashes of the base make no
    difference. *)
Theorem extract_links_resolution (anchors : list WebScrapingRest.Anchor)
    (base_url : string) :
  base_url <> EmptyString ->
  let base := Py.rstrip_by (fun c => Py.char_in c "/") base_url in
  WebScrapingRest.extract_links (Some anchors) base_url
  = map (fun link =>
           WebScrapingRest.mkLink
             (if WebScrapingRest.startswith "/" (WebScrapingRest.href link)
              then base ++ WebScrapingRest.href link
              else if is_absolute (WebScrapingRest.href link)
              then WebScrapingRest.href link
              else base ++ "/" ++ WebScrapingRest.href link)%string
             (WebScrapingRest.anchor_text link)
             (match WebScrapingRest.anchor_title link with
              | Some t => t
              | None => EmptyString
              end))
        anchors /\
  WebScrapingRest.extract_links (Some anchors) (base_url ++ "/")
  = WebScrapingRest.extract_links (Some anchors) base_url.
Proof.
  intros Hbase. cbn zeta. unfold WebScrapingRest.extract_links. split.
  - apply map_ext. intros link. now rewrite resolve_href_spec.
  - apply map_ext. intros link. f_equal.
    rewrite !resolve_href_spec by (trivial; now apply append_not_empty).
    now rewrite rstrip_by_snoc_dropped.
Qed.

Lemma extract_links_resolution_witness :
  "https://example.com/"%string <> EmptyString /\
  WebScrapingRest.extract_links (Some sample_anchors) "https://example.com/"
  = [WebScrapingRest.mkLink "https://example.com/about" "About" "";
     WebScrapingRest.mkLink "https://example.com/docs/index.html" "Docs" "The docs";
     WebScrapingRest.mkLink "https://example.org/x" "Other" "";
     WebScrapingRest.mkLink "https://example.com/#top" "Top" ""]%string.
Proof.
  split; [discriminate|].
  apply (proj1 (extract_links_resolution sample_anchors "https://example.com/"
                  ltac:(discriminate))).
Defined.

(** Without a base address, and without a page, nothing is resolved. *)
Example extract_links_no_base :
  map WebScrapingRest.url (WebScrapingRest.extract_links (Some sample_anchors) "")
  = ["/about"; "docs/index.html"; "https://example.org/x"; "#top"]%string /\
  WebScrapingRest.extract_links None "https://example.com" = [].
Proof. split; reflexivity. Qed.

(** ** [safe_copy] on the machine in memory *)

Section CopyInMemory.
Import Py IO FileOps.

Lemma mem_lookup_store_other p q text fs :
  q <> p -> Mem.lookup p (Mem.store q text fs) = Mem.lookup p fs.
Proof.
  intros Hne. induction fs as [|[r old] fs IH]; cbn.
  - apply String.eqb_neq in Hne. now rewrite Hne.
  - destruct (String.eqb_spec r q) as [->|Hrq]; cbn.
    + apply String.eqb_neq in Hne. now rewrite Hne.
    + destruct (String.eqb r p); [reflexivity | exact IH].
Qed.
End CopyInMemory.


(** The destination that exists is left alone, and overwritten when asked. *)
Example safe_copy_keeps_backup :
  text_after (FileOps.safe_copy "report.txt" "backup.txt" false (Mem.start two_files))
             "backup.txt"
  = Some "old"%string /\
  text_after (FileOps.safe_copy "report.txt" "backup.txt" true (Mem.start two_files))
             "backup.txt"
  = Some "new"%string.
Proof. split; reflexivity. Qed.

(** ** [safe_request] and [download_file]: how many requests are made *)

Section RequestCounts.
Import Py IO WebScraping.
Variables (url : string) (headers : list (string * string)) (timeout retries : Z).

Lemma request_loop_cons attempt rest (st : St Mem.Machine) :
  request_loop (attempt :: rest) url headers timeout retries st
  = try_except
      (response <- call (sys_http_get url headers timeout) ;;
       lib (raise_for_status response) ;;;
       ret (Some response))
      (fun e =>
         if attempt <? retries - 1 then
           sleep ;;;
           request_loop rest url headers timeout retries
         else
           print ("Error after " ++ Json.int_repr retries ++ " attempts: "
                  ++ exn_str e) ;;;
           ret None)
      st.
Proof. reflexivity. Qed.

(** One request that fails: the handler runs on the machine with that
    response taken off. *)
Lemma failing_request r rest (st : St Mem.Machine) (handler : exn -> IO (option Response)) :
  Mem.responses (os st) = r :: rest ->
  failing r = true ->
  exists e evs,
    try_except
      (response <- call (sys_http_get url headers timeout) ;;
       lib (raise_for_status response) ;;;
       ret (Some response))
      handler st
    = handler e (mkSt (after_requests (os st) rest) (stdout st) (calls st ++ evs)).
Proof.
  intros Hresp Hfail. destruct st as [[files ro resp inst] out cs].
  cbn in Hresp. subst resp.
  unfold try_except, bind, lib, call, after_requests.
  cbn [os stdout calls sys_http_get Mem.system Mem.http_get Mem.responses
       Mem.files Mem.read_only Mem.requests_installed].
  destruct r as [response|e]; cbn [failing] in Hfail.
  - unfold response_ok in Hfail.
    destruct (raise_for_status response) as [|e] eqn:Hstatus; [discriminate|].
    exists e, [Completed; Failed e]. cbn [os stdout calls].
    now rewrite <- app_assoc.
  - exists e, [Failed e]. reflexivity.
Qed.

Lemma request_loop_gives_up fails :
  forall (j : nat) (st : St Mem.Machine) rest,
    fails <> [] ->
    Mem.responses (os st) = fails ++ rest ->
    forallb failing fails = true ->
    retries = Z.of_nat (j + length fails) ->
    exists line,
      let run := request_loop (map Z.of_nat (seq j (length fails)))
                              url headers timeout retries st in
      fst run = Returned None /\
      os (snd run) = after_requests (os st) rest /\
      stdout (snd run) = stdout st ++ [line].
Proof.
  induction fails as [|r fails IH]; intros j st rest Hne Hresp Hfail Hretries;
    [congruence|].
  cbn [length seq map]. rewrite request_loop_cons.
  cbn [forallb] in Hfail. apply andb_prop in Hfail as [Hr Hfails].
  destruct (failing_request r (fails ++ rest) st
              (fun e =>
                 if Z.of_nat j <? retries - 1 then
                   sleep ;;;
                   request_loop (map Z.of_nat (seq (S j) (length fails)))
                                url headers timeout retries
                 else
                   print ("Error after " ++ Json.int_repr retries ++ " attempts: "
                          ++ exn_str e) ;;;
                   ret None) Hresp Hr) as (e & evs & ->).
  destruct fails as [|r' fails].
  - destruct (Z.ltb_spec (Z.of_nat j) (retries - 1)) as [Hlt|_];
      [cbn [length] in Hretries; lia|].
    eexists. cbn zeta. unfold bind, print, ret.
    cbn [fst snd os stdout]. repeat split; reflexivity.
  - destruct (Z.ltb_spec (Z.of_nat j) (retries - 1)) as [_|Hge];
      [|cbn [length] in Hretries; lia].
    unfold bind at 1, sleep at 1. cbn [os stdout calls sys_sleep Mem.system].
    match goal with
    | |- context [request_loop _ _ _ _ _ ?st1] =>
        destruct (IH (S j) st1 rest) as [line Hline]
    end.
    + discriminate.
    + reflexivity.
    + exact Hfails.
    + cbn [length] in *. lia.
    + exists line. exact Hline.
Qed.

Lemma request_loop_first_response fails :
  forall (j n : nat) (st : St Mem.Machine) response rest,
    Mem.responses (os st) = fails ++ Returned response :: rest ->
    forallb failing fails = true ->
    response_ok response = true ->
    retries = Z.of_nat n ->
    (j + length fails < n)%nat ->
    let run := request_loop (map Z.of_nat (seq j (n - j)))
                            url headers timeout retries st in
    fst run = Returned (Some response) /\
    os (snd run) = after_requests (os st) rest /\
    stdout (snd run) = stdout st.
Proof.
  induction fails as [|r fails IH]; intros j n st response rest Hresp Hfail Hok Hretries Hlt;
    cbn zeta.
  - replace (n - j)%nat with (S (n - S j)) by lia. cbn [seq map].
    rewrite request_loop_cons.
    destruct st as [[files ro resp inst] out cs]. cbn in Hresp. subst resp.
    unfold try_except, bind, lib, call, ret, after_requests.
    cbn [os stdout calls sys_http_get Mem.system Mem.http_get Mem.responses
         Mem.files Mem.read_only Mem.requests_installed].
    unfold response_ok in Hok.
    destruct (raise_for_status response) as [[]|e]; [|discriminate].
    cbn [fst snd os stdout Mem.responses]. repeat split; reflexivity.
  - replace (n - j)%nat with (S (n - S j)) by lia. cbn [seq map].
    rewrite request_loop_cons.
    cbn [forallb] in Hfail. apply andb_prop in Hfail as [Hr Hfails].
    destruct (failing_request r (fails ++ Returned response :: rest) st
                (fun e =>
                   if Z.of_nat j <? retries - 1 then
                     sleep ;;;
                     request_loop (map Z.of_nat (seq (S j) (n - S j)))
                                  url headers timeout retries
                   else
                     print ("Error after " ++ Json.int_repr retries ++ " attempts: "
                            ++ exn_str e) ;;;
                     ret None) Hresp Hr) as (e & evs & ->).
    destruct (Z.ltb_spec (Z.of_nat j) (retries - 1)) as [_|Hge];
      [|cbn [length] in Hlt; lia].
    unfold bind at 1, sleep at 1. cbn [os stdout calls sys_sleep Mem.system].
    match goal with
    | |- context [request_loop _ _ _ _ _ ?st1] =>
        apply (IH (S j) n st1 response rest)
    end; trivial.
    cbn [length] in Hlt. lia.
Qed.
End RequestCounts.

Section SafeRequestInMemory.
Import Py IO WebScraping.
Variables (url : string) (given : option (list (string * string))).
Variables (timeout retries : Z).

(** With the package installed, [safe_request] is its loop, run after the
    import. *)
Lemma safe_request_loop (st : St Mem.Machine) :
  Mem.requests_installed (os st) = true ->
  exists headers',
    safe_request url given timeout retries st
    = request_loop (map Z.of_nat (seq 0 (Z.to_nat retries))) url headers'
                   timeout retries
                   (mkSt (os st) (stdout st) (calls st ++ [Completed])).
Proof.
  intros Hinst. unfold safe_request, try_except_ImportError, bind, import_requests.
  cbn [os stdout calls sys_import_requests Mem.system]. rewrite Hinst.
  exists (match given with
          | Some (h :: hs) => dict_update [("User-Agent", user_agent)] (h :: hs)
          | _ => [("User-Agent", user_agent)]
          end).
  match goal with
  | |- context [request_loop ?a url ?h timeout retries ?st] =>
      destruct (request_loop_range url h timeout retries st)
        as (v & evs & lines & (st'' & Hrun & _) & _)
  end.
  now rewrite Hrun.
Qed.

Lemma safe_request_gives_up_from (st : St Mem.Machine) fails rest :
  Mem.requests_installed (os st) = true ->
  Mem.responses (os st) = fails ++ rest ->
  forallb failing fails = true ->
  1 <= retries ->
  Z.of_nat (length fails) = retries ->
  exists line,
    let run := safe_request url given timeout retries st in
    fst run = Returned None /\
    os (snd run) = after_requests (os st) rest /\
    stdout (snd run) = stdout st ++ [line].
Proof.
  intros Hinst Hresp Hfail Hpos Hlen.
  destruct (safe_request_loop st Hinst) as [headers' ->].
  replace (Z.to_nat retries) with (length fails) by lia.
  apply (request_loop_gives_up url headers' timeout retries fails 0%nat
           (mkSt (os st) (stdout st) (calls st ++ [Completed])) rest);
    trivial.
  - destruct fails; [cbn in Hlen; lia | discriminate].
  - cbn [Nat.add]. lia.
Qed.

Lemma safe_request_first_from (st : St Mem.Machine) fails response rest :
  Mem.requests_installed (os st) = true ->
  Mem.responses (os st) = fails ++ Returned response :: rest ->
  forallb failing fails = true ->
  response_ok response = true ->
  Z.of_nat (length fails) < retries ->
  let run := safe_request url given timeout retries st in
  fst run = Returned (Some response) /\
  os (snd run) = after_requests (os st) rest /\
  stdout (snd run) = stdout st.
Proof.
  intros Hinst Hresp Hfail Hok Hlen. cbn zeta.
  destruct (safe_request_loop st Hinst) as [headers' ->].
  replace (Z.to_nat retries) with (Z.to_nat retries - 0)%nat by lia.
  apply (request_loop_first_response url headers' timeout retries fails 0%nat
           (Z.to_nat retries) (mkSt (os st) (stdout st) (calls st ++ [Completed]))
           response rest);
    trivial; cbn [Nat.add]; lia.
Qed.
End SafeRequestInMemory.

(** X26 (safe_request, on the network in memory): when each of the
    [retries] requests fails (it raises, or its status is an error), exactly
    [retries] requests are made, None is returned and one line is
    printed. *)
Theorem safe_request_gives_up_after_retries (m : Mem.Machine) (url : string)
    (headers : option (list (string * string))) (timeout retries : Z)
    (fails rest : list (Py.result Py.exn IO.Response)) :
  Mem.requests_installed m = true ->
  Mem.responses m = fails ++ rest ->
  forallb failing fails = true ->
  1 <= retries ->
  Z.of_nat (length fails) = retries ->
  let run := WebScraping.safe_request url headers timeout retries (Mem.start m) in
  fst run = Py.Returned None /\
  responses_after run = rest /\
  exists line, IO.stdout (snd run) = [line].
Proof.
  intros Hinst Hresp Hfail Hpos Hlen. cbn zeta.
  destruct (safe_request_gives_up_from url headers timeout retries (Mem.start m)
              fails rest Hinst Hresp Hfail Hpos Hlen) as (line & Hv & Hos & Hout).
  split; [exact Hv|]. split.
  - unfold responses_after. rewrite Hos. reflexivity.
  - exists line. exact Hout.
Qed.

Lemma safe_request_gives_up_after_retries_witness :
  responses_after
    (WebScraping.safe_request "http://example.org" None 10 3 (Mem.start slow_network))
  = [Py.Returned (IO.mkResponse 200 "hello")] /\
  fst (WebScraping.safe_request "http://example.org" None 10 3 (Mem.start slow_network))
  = Py.Returned None.
Proof.
  destruct (safe_request_gives_up_after_retries slow_network "http://example.org"
              None 10 3
              [Py.Raised (Py.OSError "Connection refused");
               Py.Returned (IO.mkResponse 503 "busy");
               Py.Raised (Py.OSError "timed out")]
              [Py.Returned (IO.mkResponse 200 "hello")]
              eq_refl eq_refl eq_refl ltac:(lia) eq_refl)
    as (Hv & Hrest & _).
  split; [exact Hrest | exact Hv].
Defined.

(** X27 (safe_request, on the network in memory): when fewer than [retries]
    requests fail before one gives a response whose status is no error,
    that response is returned, no request is made after it and nothing is
    printed. *)
Theorem safe_request_first_response (m : Mem.Machine) (url : string)
    (headers : option (list (string * string))) (timeout retries : Z)
    (fails rest : list (Py.result Py.exn IO.Response)) (response : IO.Response) :
  Mem.requests_installed m = true ->
  Mem.responses m = fails ++ Py.Returned response :: rest ->
  forallb failing fails = true ->
  WebScraping.response_ok response = true ->
  Z.of_nat (length fails) < retries ->
  let run := WebScraping.safe_request url headers timeout retries (Mem.start m) in
  fst run = Py.Returned (Some response) /\
  responses_after run = rest /\
  IO.stdout (snd run) = [].
Proof.
  intros Hinst Hresp Hfail Hok Hlen. cbn zeta.
  destruct (safe_request_first_from url headers timeout retries (Mem.start m)
              fails response rest Hinst Hresp Hfail Hok Hlen) as (Hv & Hos & Hout).
  split; [exact Hv|]. split; [|exact Hout].
  unfold responses_after. rewrite Hos. reflexivity.
Qed.

Lemma safe_request_first_response_witness :
  fst (WebScraping.safe_request "http://example.org" None 10 4 (Mem.start slow_network))
  = Py.Returned (Some (IO.mkResponse 200 "hello")) /\
  IO.stdout (snd (WebScraping.safe_request "http://example.org" None 10 4
                    (Mem.start slow_network)))
  = [].
Proof.
  destruct (safe_request_first_response slow_network "http://example.org"
              None 10 4
              [Py.Raised (Py.OSError "Connection refused");
               Py.Returned (IO.mkResponse 503 "busy");
               Py.Raised (Py.OSError "timed out")]
              [] (IO.mkResponse 200 "hello")
              eq_refl eq_refl eq_refl eq_refl ltac:(cbn; lia))
    as (Hv & _ & Hout).
  split; [exact Hv | exact Hout].
Defined.

(** X28 (download_file, on the machine in memory): when fewer than three
    requests fail before one gives a response whose status is no error, and
    the file can be written, True is returned, the file holds the content
    of that response, every other file is as it was and nothing is
    printed. *)
Theorem download_file_writes_content (m : Mem.Machine) (url : string)
    (filename : IO.Path) (headers : option (list (string * string)))
    (fails rest : list (Py.result Py.exn IO.Response)) (response : IO.Response) :
  Mem.requests_installed m = true ->
  Mem.responses m = fails ++ Py.Returned response :: rest ->
  forallb failing fails = true ->
  WebScraping.response_ok response = true ->
  Z.of_nat (length fails) < WebScraping.default_retries ->
  existsb (String.eqb filename) (Mem.read_only m) = false ->
  let run := WebScraping.download_file url filename headers (Mem.start m) in
  fst run = Py.Returned true /\
  text_after run filename = Some (IO.content response) /\
  (forall p, filename <> p -> text_after run p = Mem.lookup p (Mem.files m)) /\
  IO.stdout (snd run) = [].
Proof.
  intros Hinst Hresp Hfail Hok Hlen Hwritable. cbn zeta.
  assert (Hrun : exists cs,
    WebScraping.download_file url filename headers (Mem.start m)
    = (Py.Returned true,
       IO.mkSt (Mem.mkMachine
                  (Mem.store filename (IO.content response)
                     (Mem.store filename "" (Mem.files m)))
                  (Mem.read_only m) rest (Mem.requests_installed m))
               [] cs)).
  { unfold WebScraping.download_file, IO.try_except.
    unfold IO.bind at 1, WebScraping.import_requests at 1.
    cbn [IO.os IO.stdout IO.calls IO.sys_import_requests Mem.system Mem.start].
    rewrite Hinst. unfold IO.bind at 1.
    destruct (safe_request_first_from url headers WebScraping.default_timeout
                WebScraping.default_retries
                (IO.mkSt m [] ([] ++ [IO.Completed])) fails response rest
                Hinst Hresp Hfail Hok Hlen) as (Hv & Hos & Hout).
    destruct (WebScraping.safe_request url headers WebScraping.default_timeout
                WebScraping.default_retries (IO.mkSt m [] ([] ++ [IO.Completed])))
      as [v [o out cs]].
    cbn [fst snd IO.os IO.stdout] in Hv, Hos, Hout. subst v o out.
    rewrite Hok. unfold IO.bind, IO.call, IO.ret, after_requests.
    cbn [IO.os IO.stdout IO.calls IO.sys_open_write IO.sys_write_text Mem.system].
    unfold Mem.open_write, Mem.write_text. cbn [Mem.read_only].
    rewrite Hwritable.
    unfold Mem.with_files.
    cbn [IO.os IO.stdout IO.calls Mem.read_only Mem.files Mem.responses
         Mem.requests_installed fst snd].
    rewrite ?Hinst. eexists. reflexivity. }
  destruct Hrun as [cs ->]. unfold text_after.
  cbn [fst snd IO.os IO.stdout Mem.files].
  split; [reflexivity|]. split; [apply mem_lookup_store|].
  split; [|reflexivity].
  intros p Hp. now rewrite !mem_lookup_store_other.
Qed.

Lemma download_file_writes_content_witness :
  fst (WebScraping.download_file "http://example.org" "page.html" None
         (Mem.start flaky_network))
  = Py.Returned true /\
  text_after (WebScraping.download_file "http://example.org" "page.html" None
                (Mem.start flaky_network)) "page.html"
  = Some "hello"%string.
Proof.
  destruct (download_file_writes_content flaky_network "http://example.org"
              "page.html" None
              [Py.Raised (Py.OSError "Connection refused")] []
              (IO.mkResponse 200 "hello")
              eq_refl eq_refl eq_refl eq_refl eq_refl eq_refl)
    as (Hv & Htext & _).
  split; [exact Hv | exact Htext].
Defined.

(** X29 (download_file, on the machine in memory): when the three requests
    fail, False is returned, no file is written and one line is printed. *)
Theorem download_file_gives_up (m : Mem.Machine) (url : string)
    (filename : IO.Path) (headers : option (list (string * string)))
    (fails rest : list (Py.result Py.exn IO.Response)) :
  Mem.requests_installed m = true ->
  Mem.responses m = fails ++ rest ->
  forallb failing fails = true ->
  Z.of_nat (length fails) = WebScraping.default_retries ->
  let run := WebScraping.download_file url filename headers (Mem.start m) in
  fst run = Py.Returned false /\
  Mem.files (IO.os (snd run)) = Mem.files m /\
  exists line, IO.stdout (snd run) = [line].
Proof.
  intros Hinst Hresp Hfail Hlen. cbn zeta.
  assert (Hrun : exists line cs,
    WebScraping.download_file url filename headers (Mem.start m)
    = (Py.Returned false, IO.mkSt (after_requests m rest) [line] cs)).
  { unfold WebScraping.download_file, IO.try_except.
    unfold IO.bind at 1, WebScraping.import_requests at 1.
    cbn [IO.os IO.stdout IO.calls IO.sys_import_requests Mem.system Mem.start].
    rewrite Hinst. unfold IO.bind at 1.
    destruct (safe_request_gives_up_from url headers WebScraping.default_timeout
                WebScraping.default_retries
                (IO.mkSt m [] ([] ++ [IO.Completed])) fails rest
                Hinst Hresp Hfail ltac:(unfold WebScraping.default_retries; lia) Hlen)
      as (line & Hv & Hos & Hout).
    destruct (WebScraping.safe_request url headers WebScraping.default_timeout
                WebScraping.default_retries (IO.mkSt m [] ([] ++ [IO.Completed])))
      as [v [o out cs]].
    cbn [fst snd IO.os IO.stdout app] in Hv, Hos, Hout. subst v o out.
    exists line, cs. reflexivity. }
  destruct Hrun as (line & cs & ->).
  cbn [fst snd IO.os IO.stdout after_requests Mem.files].
  split; [reflexivity|]. split; [reflexivity|]. now exists line.
Qed.

Lemma download_file_gives_up_witness :
  fst (WebScraping.download_file "http://example.org" "page.html" None
         (Mem.start slow_network))
  = Py.Returned false /\
  Mem.files (IO.os (snd (WebScraping.download_file "http://example.org" "page.html"
                           None (Mem.start slow_network))))
  = [].
Proof.
  destruct (download_file_gives_up slow_network "http://example.org" "page.html" None
              [Py.Raised (Py.OSError "Connection refused");
               Py.Returned (IO.mkResponse 503 "busy");
               Py.Raised (Py.OSError "timed out")]
              [Py.Returned (IO.mkResponse 200 "hello")]
              eq_refl eq_refl eq_refl eq_refl)
    as (Hv & Hfiles & _).
  split; [exact Hv | exact Hfiles].
Defined.
